(** * Verification of the dev-editor middleware (src/integrations/dev-editor.ts)

    The development embeds the helper functions and the request dispatcher of
    the Vite plugin [dev-editor-api] and settles the properties that the
    specification states about them.

    Modelling conventions.
    - A JavaScript string is a [string]: a sequence of 8-bit code units
      (ASCII and the Latin-1 supplement).
    - The platform's built-ins ([String.prototype], [path], [fs], [JSON]) are
      modelled from their documented behaviour, POSIX flavour.
    - A handler is a function from the filesystem to a response and the
      filesystem it leaves behind; an exception is a value of the [Throw]
      constructor, caught where the source catches it. *)

From Stdlib Require Import ZArith Ascii String List Bool Lia.
From Stdlib Require Import Decimal DecimalString DecimalZ.
From stdpp Require Import base option list strings gmap.

#[local] Set Warnings "-register-all".
Local Open Scope Z_scope.

(** ** JavaScript strings *)

Definition char_between (lo hi : nat) (c : ascii) : bool :=
  (lo <=? nat_of_ascii c)%nat && (nat_of_ascii c <=? hi)%nat.

Definition is_hyphen (c : ascii) : bool := Ascii.eqb c "-"%char.
Definition is_dot (c : ascii) : bool := Ascii.eqb c "."%char.
(** [a-z] *)
Definition is_lower (c : ascii) : bool := char_between 97 122 c.
(** [\d], that is [0-9] *)
Definition is_digit (c : ascii) : bool := char_between 48 57 c.

(** The character a code unit lowercases to: [A-Z], and the capital letters
    of the Latin-1 supplement (U+00C0 to U+00DE, the sign U+00D7 apart). *)
Definition lower_char (c : ascii) : ascii :=
  if char_between 65 90 c then ascii_of_nat (nat_of_ascii c + 32)
  else if char_between 192 222 c && negb (nat_of_ascii c =? 215)%nat
       then ascii_of_nat (nat_of_ascii c + 32)
       else c.

Fixpoint map_chars (f : ascii -> ascii) (s : string) : string :=
  match s with
  | EmptyString => EmptyString
  | String c s' => String (f c) (map_chars f s')
  end.

(** [s.toLowerCase()] *)
Definition toLowerCase (s : string) : string := map_chars lower_char s.

Fixpoint all_chars (p : ascii -> bool) (s : string) : bool :=
  match s with
  | EmptyString => true
  | String c s' => p c && all_chars p s'
  end.

Fixpoint any_char (p : ascii -> bool) (s : string) : bool :=
  match s with
  | EmptyString => false
  | String c s' => p c || any_char p s'
  end.

Definition head_sat (p : ascii -> bool) (s : string) : bool :=
  match s with
  | EmptyString => false
  | String c _ => p c
  end.

Fixpoint last_sat (p : ascii -> bool) (s : string) : bool :=
  match s with
  | EmptyString => false
  | String c EmptyString => p c
  | String _ s' => last_sat p s'
  end.

(** [s.startsWith(t)] *)
Definition startsWith (s t : string) : bool := String.prefix t s.

(** [s.replace(/[class]/g, r)]: every character of the class becomes [r]. *)
Fixpoint replace_each (p : ascii -> bool) (r : string) (s : string) : string :=
  match s with
  | EmptyString => EmptyString
  | String c s' =>
      if p c then r +:+ replace_each p r s' else String c (replace_each p r s')
  end.

(** [s.replace(/[class]+/g, r)]: every maximal run of characters of the class
    becomes one [r] (written at the last character of the run). *)
Fixpoint replace_runs (p : ascii -> bool) (r : string) (s : string) : string :=
  match s with
  | EmptyString => EmptyString
  | String c s' =>
      if p c then
        if head_sat p s' then replace_runs p r s' else r +:+ replace_runs p r s'
      else String c (replace_runs p r s')
  end.

Definition drop_leading_hyphen (s : string) : string :=
  match s with
  | String c s' => if is_hyphen c then s' else s
  | EmptyString => EmptyString
  end.

Fixpoint drop_trailing_hyphen (s : string) : string :=
  match s with
  | EmptyString => EmptyString
  | String c EmptyString => if is_hyphen c then EmptyString else s
  | String c s' => String c (drop_trailing_hyphen s')
  end.

(** [s.replace(/^-|-$/g, '')]: the scan removes a hyphen at index 0, and then
    a hyphen at the last index when that one is still there. *)
Definition strip_edge_hyphens (s : string) : string :=
  drop_trailing_hyphen (drop_leading_hyphen s).

(** A hyphen directly followed by a hyphen. *)
Fixpoint has_double_hyphen (s : string) : bool :=
  match s with
  | EmptyString => false
  | String c s' => is_hyphen c && head_sat is_hyphen s' || has_double_hyphen s'
  end.

(** ** The sanitizers (dev-editor.ts, lines 25-39) *)

(** The class [a-z0-9.-] *)
Definition filename_char (c : ascii) : bool :=
  is_lower c || is_digit c || is_dot c || is_hyphen c.

(** The class [a-z0-9] *)
Definition alnum_char (c : ascii) : bool := is_lower c || is_digit c.

Definition sanitizeFilename (name : string) : string :=
  strip_edge_hyphens
    (replace_runs is_hyphen "-"
       (replace_each (fun c => negb (filename_char c)) "-" (toLowerCase name))).

Definition slugify (text : string) : string :=
  strip_edge_hyphens
    (replace_runs (fun c => negb (alnum_char c)) "-" (toLowerCase text)).

(** What the claims say of a sanitized name: its characters, and where its
    hyphens stand. *)
Definition slug_char (c : ascii) : bool := alnum_char c || is_hyphen c.

Definition tidy_hyphens (s : string) : bool :=
  negb (has_double_hyphen s) && negb (head_sat is_hyphen s)
  && negb (last_sat is_hyphen s).

(** [s.split(sep)] for a one-character separator: never the empty list. *)
Fixpoint split_on (sep : ascii) (s : string) : list string :=
  match s with
  | EmptyString => [EmptyString]
  | String c s' =>
      if Ascii.eqb c sep then EmptyString :: split_on sep s'
      else match split_on sep s' with
           | seg :: rest => String c seg :: rest
           | [] => [String c EmptyString]
           end
  end.

(** [parts.join(sep)] *)
Definition join (sep : string) (parts : list string) : string :=
  String.concat sep parts.

(** [s.includes(c)] for a one-character needle. *)
Definition includes_char (c : ascii) (s : string) : bool :=
  any_char (Ascii.eqb c) s.

(** [s.endsWith(t)] *)
Definition endsWith (s t : string) : bool :=
  String.prefix (String.rev t) (String.rev s).

(** What follows the prefix [pre] of [s], when [s] starts with it. *)
Fixpoint strip_prefix (pre s : string) : option string :=
  match pre, s with
  | EmptyString, _ => Some s
  | String a pre', String b s' => if Ascii.eqb a b then strip_prefix pre' s' else None
  | String _ _, EmptyString => None
  end.

Definition is_slash (c : ascii) : bool := Ascii.eqb c "/"%char.

(** ** [node:path], POSIX flavour *)

Module path.

(** [normalizeString]: the segments between slashes, with empty segments
    and [.] dropped and [..] removing the segment before it; above the root
    [..] is kept only when [allowAboveRoot]. [acc] is the result so far,
    last segment first. *)
Fixpoint normalize_segments (allowAboveRoot : bool) (acc : list string)
    (segs : list string) : list string :=
  match segs with
  | [] => rev acc
  | seg :: rest =>
      if String.eqb seg "" || String.eqb seg "." then
        normalize_segments allowAboveRoot acc rest
      else if String.eqb seg ".." then
        match acc with
        | top :: acc' =>
            if String.eqb top ".." then
              normalize_segments allowAboveRoot
                (if allowAboveRoot then seg :: acc else acc) rest
            else normalize_segments allowAboveRoot acc' rest
        | [] =>
            normalize_segments allowAboveRoot
              (if allowAboveRoot then [seg] else []) rest
        end
      else normalize_segments allowAboveRoot (seg :: acc) rest
  end.

(** The loop of [resolve], from the last argument to the first: empty
    arguments are skipped, and the scan stops at the first absolute one. *)
Fixpoint resolve_scan (args_rev : list string) (resolvedPath : string)
    : string * bool :=
  match args_rev with
  | [] => (resolvedPath, false)
  | p :: rest =>
      if String.eqb p "" then resolve_scan rest resolvedPath
      else if head_sat is_slash p then (p +:+ "/" +:+ resolvedPath, true)
      else resolve_scan rest (p +:+ "/" +:+ resolvedPath)
  end.

(** [path.resolve(...args)] in a process whose working directory is
    [process_cwd]. *)
Definition resolve (process_cwd : string) (args : list string) : string :=
  let '(resolvedPath, resolvedAbsolute) :=
    resolve_scan (rev (process_cwd :: args)) "" in
  let normalized :=
    join "/" (normalize_segments (negb resolvedAbsolute) []
                (split_on "/" resolvedPath)) in
  if resolvedAbsolute then "/" +:+ normalized
  else if String.eqb normalized "" then "." else normalized.

(** [path.basename(p)]: the last segment that is not empty. *)
Definition basename (p : string) : string :=
  List.last (List.filter (fun seg => negb (String.eqb seg "")) (split_on "/" p)) "".

(** [path.extname(p)]: from the last dot of the basename, unless no
    character other than a dot stands before that dot in a basename
    that is [.x] or [..]. *)
Definition extname (p : string) : string :=
  let base := basename p in
  let parts := split_on "." base in
  match rev parts with
  | ext :: (_ :: _) as before =>
      if forallb (String.eqb "") before
         && ((length before =? 1)%nat || String.eqb base "..")
      then "" else "." +:+ ext
  | _ => ""
  end.

End path.

(** ** JavaScript values that come out of [JSON.parse] *)

(** A number is modelled by its integer value: the fractional and the very
    large doubles are outside the model. An object is the list of its own
    properties, in property order. *)
Inductive json : Type :=
  | JNull
  | JBool (b : bool)
  | JNum (n : Z)
  | JStr (s : string)
  | JArr (items : list json)
  | JObj (entries : list (string * json)).

(** The line feed and the double quote, which no string literal holds. *)
Definition nl : string := String (ascii_of_nat 10) EmptyString.
Definition dquote : string := String (ascii_of_nat 34) EmptyString.
Definition backslash : string := String (ascii_of_nat 92) EmptyString.

(** [String(n)] of an integer. *)
Definition decimal (n : Z) : string := NilZero.string_of_int (Z.to_int n).

(** The integer that a decimal literal denotes. *)
Definition read_int (s : string) : option Z :=
  option_map Z.of_int (NilZero.int_of_string s).

(** [String(v)], which is also what a template literal writes for [v]. *)
Fixpoint js_String (v : json) : string :=
  match v with
  | JNull => "null"
  | JBool b => if b then "true" else "false"
  | JNum n => decimal n
  | JStr s => s
  | JArr items =>
      join "," (map (fun x => match x with JNull => "" | _ => js_String x end) items)
  | JObj _ => "[object Object]"
  end.

(** A value that may be [undefined] is an [option json]. *)
Definition js_String_opt (v : option json) : string :=
  match v with
  | None => "undefined"
  | Some x => js_String x
  end.

(** Truthiness, as [&&], [||] and [!] read a value. *)
Definition truthy (v : option json) : bool :=
  match v with
  | None | Some JNull => false
  | Some (JBool b) => b
  | Some (JNum n) => negb (n =? 0)
  | Some (JStr s) => negb (String.eqb s "")
  | Some (JArr _) | Some (JObj _) => true
  end.

Fixpoint assoc_lookup (key : string) (entries : list (string * json)) : option json :=
  match entries with
  | [] => None
  | (k, v) :: rest => if String.eqb k key then Some v else assoc_lookup key rest
  end.

(** The property [key] of a value other than [null]; the keys the source
    reads are own properties of objects only. *)
Definition get_property (v : json) (key : string) : option json :=
  match v with
  | JObj entries => assoc_lookup key entries
  | _ => None
  end.

(** [list.includes(v)] for a list of strings. *)
Definition includes_string (list : list string) (v : option json) : bool :=
  match v with
  | Some (JStr s) => existsb (String.eqb s) list
  | _ => false
  end.

(** [Object.entries(v)]; [None] is the [TypeError] on [undefined] and [null]. *)
Definition Object_entries (v : option json) : option (list (string * json)) :=
  match v with
  | None | Some JNull => None
  | Some (JObj entries) => Some entries
  | Some (JArr items) =>
      Some (imap (fun i x => (decimal (Z.of_nat i), x)) items)
  | Some (JStr s) =>
      Some (imap (fun i c => (decimal (Z.of_nat i), JStr (String c EmptyString)))
              (String.list_ascii_of_string s))
  | Some (JBool _) | Some (JNum _) => Some []
  end.

Module JSON.

Definition hex_digit (n : nat) : ascii :=
  ascii_of_nat (if (n <? 10)%nat then 48 + n else 87 + n).

(** One character inside a JSON string literal. *)
Definition quote_char (c : ascii) : string :=
  let n := nat_of_ascii c in
  if (n =? 34)%nat then backslash +:+ dquote
  else if (n =? 92)%nat then backslash +:+ backslash
  else if (n =? 8)%nat then backslash +:+ "b"
  else if (n =? 12)%nat then backslash +:+ "f"
  else if (n =? 10)%nat then backslash +:+ "n"
  else if (n =? 13)%nat then backslash +:+ "r"
  else if (n =? 9)%nat then backslash +:+ "t"
  else if (n <? 32)%nat then
    backslash +:+ "u00" +:+ String (hex_digit (n / 16)) (String (hex_digit (n mod 16)) EmptyString)
  else String c EmptyString.

Fixpoint quote_chars (s : string) : string :=
  match s with
  | EmptyString => EmptyString
  | String c s' => quote_char c +:+ quote_chars s'
  end.

(** [QuoteJSONString] *)
Definition quote (s : string) : string := dquote +:+ quote_chars s +:+ dquote.

(** [SerializeJSONProperty] with the gap [gap] at the indentation [indent]. *)
Fixpoint serialize (gap indent : string) (v : json) : string :=
  match v with
  | JNull => "null"
  | JBool b => if b then "true" else "false"
  | JNum n => decimal n
  | JStr s => quote s
  | JArr items =>
      let stepback := indent in
      let indent := indent +:+ gap in
      match items with
      | [] => "[]"
      | _ =>
          let partial := map (serialize gap indent) items in
          if String.eqb gap "" then "[" +:+ join "," partial +:+ "]"
          else "[" +:+ nl +:+ indent +:+ join ("," +:+ nl +:+ indent) partial
               +:+ nl +:+ stepback +:+ "]"
      end
  | JObj entries =>
      let stepback := indent in
      let indent := indent +:+ gap in
      match entries with
      | [] => "{}"
      | _ =>
          let partial :=
            map (fun kv =>
                   quote (fst kv) +:+ (if String.eqb gap "" then ":" else ": ")
                   +:+ serialize gap indent (snd kv)) entries in
          if String.eqb gap "" then "{" +:+ join "," partial +:+ "}"
          else "{" +:+ nl +:+ indent +:+ join ("," +:+ nl +:+ indent) partial
               +:+ nl +:+ stepback +:+ "}"
      end
  end.

(** [JSON.stringify(v)] *)
Definition stringify (v : json) : string := serialize "" "" v.

(** [JSON.stringify(v, null, 2)] *)
Definition stringify_indent2 (v : json) : string := serialize "  " "" v.

(** *** [JSON.parse] *)

(** The JSON grammar with integer numbers; a number with a fraction or an
    exponent, the negative zero and a code point above U+00FF are outside the
    model and read as no value. *)

Definition is_ws (c : ascii) : bool :=
  let n := nat_of_ascii c in
  (n =? 32)%nat || (n =? 9)%nat || (n =? 10)%nat || (n =? 13)%nat.

Fixpoint skip_ws (s : string) : string :=
  match s with
  | String c rest => if is_ws c then skip_ws rest else s
  | EmptyString => EmptyString
  end.

Definition num_char (c : ascii) : bool := is_digit c || is_hyphen c.

Definition continues_number (c : ascii) : bool :=
  num_char c || is_dot c || Ascii.eqb c "e"%char || Ascii.eqb c "E"%char
  || Ascii.eqb c "+"%char.

Fixpoint span (p : ascii -> bool) (s : string) : string * string :=
  match s with
  | String c rest =>
      if p c then let (taken, remaining) := span p rest in (String c taken, remaining)
      else (EmptyString, s)
  | EmptyString => (EmptyString, EmptyString)
  end.

Definition hex_value (c : ascii) : option nat :=
  let n := nat_of_ascii c in
  if char_between 48 57 c then Some (n - 48)%nat
  else if char_between 97 102 c then Some (n - 87)%nat
  else if char_between 65 70 c then Some (n - 55)%nat
  else None.

(** The character that a one-letter escape stands for. *)
Definition unescape (e : ascii) : option ascii :=
  let n := nat_of_ascii e in
  if (n =? 34)%nat || (n =? 92)%nat || (n =? 47)%nat then Some e
  else if (n =? 98)%nat then Some (ascii_of_nat 8)
  else if (n =? 102)%nat then Some (ascii_of_nat 12)
  else if (n =? 110)%nat then Some (ascii_of_nat 10)
  else if (n =? 114)%nat then Some (ascii_of_nat 13)
  else if (n =? 116)%nat then Some (ascii_of_nat 9)
  else None.

Definition prepend (c : ascii) (r : option (string * string)) : option (string * string) :=
  match r with
  | Some (text, remaining) => Some (String c text, remaining)
  | None => None
  end.

(** A string literal from behind its opening quote: its text and what
    follows the closing quote. *)
Fixpoint parse_string_body (s : string) : option (string * string) :=
  match s with
  | EmptyString => None
  | String c rest =>
      if (nat_of_ascii c =? 34)%nat then Some (EmptyString, rest)
      else if (nat_of_ascii c =? 92)%nat then
        match rest with
        | String e rest' =>
            if Ascii.eqb e "u"%char then
              match rest' with
              | String h1 (String h2 (String h3 (String h4 rest''))) =>
                  match hex_value h1, hex_value h2, hex_value h3, hex_value h4 with
                  | Some n1, Some n2, Some n3, Some n4 =>
                      let code := (((n1 * 16 + n2) * 16 + n3) * 16 + n4)%nat in
                      if (code <? 256)%nat
                      then prepend (ascii_of_nat code) (parse_string_body rest'')
                      else None
                  | _, _, _, _ => None
                  end
              | _ => None
              end
            else
              match unescape e with
              | Some x => prepend x (parse_string_body rest')
              | None => None
              end
        | EmptyString => None
        end
      else if (nat_of_ascii c <? 32)%nat then None
      else prepend c (parse_string_body rest)
  end.

(** An integer literal in its canonical form. *)
Definition parse_number (s : string) : option (json * string) :=
  let (token, remaining) := span num_char s in
  if head_sat continues_number remaining then None
  else match read_int token with
       | Some n => if String.eqb (decimal n) token then Some (JNum n, remaining) else None
       | None => None
       end.

Definition parse_literal (s : string) : option (json * string) :=
  match strip_prefix "true" s with
  | Some remaining => Some (JBool true, remaining)
  | None =>
      match strip_prefix "false" s with
      | Some remaining => Some (JBool false, remaining)
      | None =>
          match strip_prefix "null" s with
          | Some remaining => Some (JNull, remaining)
          | None => None
          end
      end
  end.

(** [CreateDataProperty]: a key that is there keeps its place and takes the
    new value. *)
Fixpoint set_property (key : string) (v : json) (entries : list (string * json))
    : list (string * json) :=
  match entries with
  | [] => [(key, v)]
  | (k, old) :: rest =>
      if String.eqb k key then (k, v) :: rest else (k, old) :: set_property key v rest
  end.

Definition build_object (members : list (string * json)) : list (string * json) :=
  fold_left (fun entries member => set_property (fst member) (snd member) entries)
    members [].

(** A value at the head of [s], and what follows it. [parse_elements] reads
    the elements of an array up to its closing bracket, [parse_members] the
    members of an object up to its closing brace. [fuel] bounds the depth of
    the calls. *)
Fixpoint parse_value (fuel : nat) (s : string) {struct fuel} : option (json * string) :=
  match fuel with
  | O => None
  | S fuel =>
      match s with
      | EmptyString => None
      | String c rest =>
          if Ascii.eqb c "["%char then
            match skip_ws rest with
            | String c' rest' =>
                if Ascii.eqb c' "]"%char then Some (JArr [], rest')
                else match parse_elements fuel (String c' rest') with
                     | Some (items, remaining) => Some (JArr items, remaining)
                     | None => None
                     end
            | EmptyString => None
            end
          else if Ascii.eqb c "{"%char then
            match skip_ws rest with
            | String c' rest' =>
                if Ascii.eqb c' "}"%char then Some (JObj [], rest')
                else match parse_members fuel (String c' rest') with
                     | Some (members, remaining) => Some (JObj (build_object members), remaining)
                     | None => None
                     end
            | EmptyString => None
            end
          else if (nat_of_ascii c =? 34)%nat then
            match parse_string_body rest with
            | Some (text, remaining) => Some (JStr text, remaining)
            | None => None
            end
          else if num_char c then parse_number s
          else parse_literal s
      end
  end
with parse_elements (fuel : nat) (s : string) {struct fuel} : option (list json * string) :=
  match fuel with
  | O => None
  | S fuel =>
      match parse_value fuel s with
      | Some (v, remaining) =>
          match skip_ws remaining with
          | String c rest =>
              if Ascii.eqb c ","%char then
                match parse_elements fuel (skip_ws rest) with
                | Some (items, after) => Some (v :: items, after)
                | None => None
                end
              else if Ascii.eqb c "]"%char then Some ([v], rest)
              else None
          | EmptyString => None
          end
      | None => None
      end
  end
with parse_members (fuel : nat) (s : string) {struct fuel}
    : option (list (string * json) * string) :=
  match fuel with
  | O => None
  | S fuel =>
      match s with
      | String q rest =>
          if (nat_of_ascii q =? 34)%nat then
            match parse_string_body rest with
            | Some (key, remaining) =>
                match skip_ws remaining with
                | String colon after_key =>
                    if Ascii.eqb colon ":"%char then
                      match parse_value fuel (skip_ws after_key) with
                      | Some (v, after_value) =>
                          match skip_ws after_value with
                          | String c rest' =>
                              if Ascii.eqb c ","%char then
                                match parse_members fuel (skip_ws rest') with
                                | Some (members, after) => Some ((key, v) :: members, after)
                                | None => None
                                end
                              else if Ascii.eqb c "}"%char then Some ([(key, v)], rest')
                              else None
                          | EmptyString => None
                          end
                      | None => None
                      end
                    else None
                | EmptyString => None
                end
            | None => None
            end
          else None
      | EmptyString => None
      end
  end.

(** [JSON.parse(text)]; [None] is the [SyntaxError]. *)
Definition parse (text : string) : option json :=
  match parse_value (S (String.length text)) (skip_ws text) with
  | Some (v, remaining) =>
      match skip_ws remaining with
      | EmptyString => Some v
      | String _ _ => None
      end
  | None => None
  end.

End JSON.

(** ** The filesystem *)

(** A disk maps the absolute, normalized path of each entry to a regular file
    with its content or to a directory; the root directory is always there.
    Links, permissions and clocks are outside the model. *)
Inductive node : Type :=
  | File (content : string)
  | Dir.

Abbreviation disk := (gmap string node).

(** The result of a call that may throw; [err] is what [String(err)] gives. *)
Inductive outcome (A : Type) : Type :=
  | Ok (a : A)
  | Throw (err : string).
Arguments Ok {A} a.
Arguments Throw {A} err.

(** A computation of the handler: it reads and updates the disk, and what it
    did before throwing stays done. *)
Definition M (A : Type) : Type := disk -> outcome A * disk.

Definition ret {A} (a : A) : M A := fun d => (Ok a, d).
Definition throw {A} (err : string) : M A := fun d => (Throw err, d).
Definition bind {A B} (m : M A) (k : A -> M B) : M B :=
  fun d =>
    match m d with
    | (Ok a, d') => k a d'
    | (Throw err, d') => (Throw err, d')
    end.

Notation "'let*' x ':=' m 'in' k" :=
  (bind m (fun x => k))
  (at level 10, x name, m at level 100, k at level 200).

Module fs.

Definition segments (p : string) : list string :=
  List.filter (fun seg => negb (String.eqb seg "")) (split_on "/" p).

Definition of_segments (segs : list string) : string := "/" +:+ join "/" segs.

(** The directory an entry lives in. *)
Definition parent (p : string) : string := of_segments (removelast (segments p)).

(** [/a], [/a/b], ..., up to [p] itself. *)
Definition ancestors (p : string) : list string :=
  map (fun n => of_segments (firstn (S n) (segments p))) (seq 0 (length (segments p))).

Definition is_dir (d : disk) (p : string) : bool :=
  String.eqb p "/" || match d !! p with Some Dir => true | _ => false end.

Definition is_file (d : disk) (p : string) : bool :=
  match d !! p with Some (File _) => true | _ => false end.

(** [fs.existsSync(p)] *)
Definition existsSync (d : disk) (p : string) : bool :=
  String.eqb p "/" || match d !! p with Some _ => true | None => false end.

(** [fs.promises.writeFile(p, content)]: creates or replaces a regular file
    in a directory that exists. *)
Definition writeFile (p content : string) : M unit :=
  fun d =>
    if is_dir d p then (Throw "Error: EISDIR: illegal operation on a directory", d)
    else if is_dir d (parent p) then (Ok tt, <[p := File content]> d)
    else (Throw "Error: ENOENT: no such file or directory", d).

(** [fs.promises.readFile(p, 'utf-8')] *)
Definition readFile (p : string) : M string :=
  fun d =>
    match d !! p with
    | Some (File content) => (Ok content, d)
    | Some Dir => (Throw "Error: EISDIR: illegal operation on a directory", d)
    | None =>
        if String.eqb p "/" then (Throw "Error: EISDIR: illegal operation on a directory", d)
        else (Throw "Error: ENOENT: no such file or directory", d)
    end.

(** [fs.promises.unlink(p)]: removes a regular file, and nothing else. *)
Definition unlink (p : string) : M unit :=
  fun d =>
    match d !! p with
    | Some (File _) => (Ok tt, delete p d)
    | Some Dir => (Throw "Error: EPERM: operation not permitted", d)
    | None =>
        if String.eqb p "/" then (Throw "Error: EPERM: operation not permitted", d)
        else (Throw "Error: ENOENT: no such file or directory", d)
    end.

(** [fs.promises.mkdir(p, { recursive: true })]: fails when a regular file
    stands in the way, and creates the missing directories otherwise. *)
Definition mkdir_recursive (p : string) : M unit :=
  fun d =>
    if existsb (is_file d) (ancestors p)
    then (Throw "Error: EEXIST: file already exists", d)
    else (Ok tt, fold_right (fun a acc => <[a := Dir]> acc) d (ancestors p)).

(** [fs.promises.readdir(p)]: the names of the entries of a directory. *)
Definition readdir (p : string) : M (list string) :=
  fun d =>
    if is_dir d p then
      (Ok (map (fun kv => path.basename (fst kv))
             (List.filter (fun kv => String.eqb (parent (fst kv)) p
                                     && negb (String.eqb (fst kv) "/"))
                (map_to_list d))), d)
    else (Throw "Error: ENOENT: no such file or directory", d).

(** The node of an entry, for [fs.promises.stat(p)]. *)
Definition stat (p : string) : M node :=
  fun d =>
    match d !! p with
    | Some n => (Ok n, d)
    | None =>
        if String.eqb p "/" then (Ok Dir, d)
        else (Throw "Error: ENOENT: no such file or directory", d)
    end.

End fs.

(** ** Front matter (dev-editor.ts, lines 41-69) *)

(** The test [/^\d{4}-\d{2}-\d{2}$/]. *)
Definition is_date_string (s : string) : bool :=
  match String.list_ascii_of_string s with
  | [y1; y2; y3; y4; h1; m1; m2; h2; d1; d2] =>
      forallb is_digit [y1; y2; y3; y4; m1; m2; d1; d2] && is_hyphen h1 && is_hyphen h2
  | _ => false
  end.

Definition is_dquote (c : ascii) : bool := Ascii.eqb c (ascii_of_nat 34).

(** The text of a string value: quoted when it holds a colon, a hash or a
    quote, with each double quote escaped. *)
Definition yaml_string (value : string) : string :=
  if includes_char ":" value || includes_char "#" value
     || includes_char (ascii_of_nat 34) value || includes_char "'" value
  then dquote +:+ replace_each is_dquote (backslash +:+ dquote) value +:+ dquote
  else value.

(** The callback of [.map]: the line(s) of one entry, [None] for [null]. *)
Definition yaml_entry (entry : string * json) : option string :=
  let '(key, value) := entry in
  match value with
  | JArr items =>
      match items with
      | [] => None
      | _ => Some (key +:+ ":" +:+ nl
                   +:+ join nl (map (fun v => "  - " +:+ js_String v) items))
      end
  | JStr s =>
      if is_date_string s then Some (key +:+ ": " +:+ s)
      else Some (key +:+ ": " +:+ yaml_string s)
  | JBool _ | JNum _ | JNull | JObj _ => Some (key +:+ ": " +:+ js_String value)
  end.

(** [Boolean(x)] of a mapped entry: [null] and the empty string are dropped. *)
Definition kept (line : option string) : bool :=
  match line with
  | Some text => negb (String.eqb text "")
  | None => false
  end.

Definition frontmatterToYaml (data : list (string * json)) : string :=
  join nl (omap id (List.filter kept (map yaml_entry data))).

(** ** The middleware (dev-editor.ts, lines 94-517) *)

Record request : Type := {
  url : option string;          (** [req.url] *)
  method : string;              (** [req.method] *)
  json_body : option json       (** the body parsed by [JSON.parse], when it parses *)
}.

Record response : Type := {
  statusCode : Z;
  contentType : string;
  body : string
}.

(** [res.statusCode = status; res.setHeader('Content-Type', 'application/json');
    res.end(text)]; the status of a response that sets none is 200. *)
Definition send_text (status : Z) (text : string) : response :=
  {| statusCode := status; contentType := "application/json"; body := text |}.

Definition send (status : Z) (payload : json) : response :=
  send_text status (JSON.stringify payload).

Definition error_payload (message : string) : json := JObj [("error", JStr message)].

(** [try { ... } catch (err) { 500, { error: String(err) } }] *)
Definition try_catch (m : M response) : M response :=
  fun d =>
    match m d with
    | (Ok r, d') => (Ok r, d')
    | (Throw err, d') => (Ok (send 500 (error_payload err)), d')
    end.

(** What the platform supplies beside [path], [fs] and [JSON]. *)
Record Platform : Type := {
  (** [Buffer.from(data, 'base64')]; [None] when it throws *)
  Buffer_from_base64 : option json -> option string;
  (** [sharp(buffer).jpeg({ quality: 92 }).toBuffer()]; [None] when it rejects *)
  sharp_jpeg : string -> option string;
  (** [buffer.toString('base64')] *)
  Buffer_to_base64 : string -> string;
  (** [stats.size] and [stats.mtime.toISOString()] of an entry *)
  stat_size : string -> node -> Z;
  stat_mtime : string -> node -> string
}.

Definition lift_option {A} (err : string) (o : option A) : M A :=
  match o with
  | Some a => ret a
  | None => throw err
  end.

(** [await readJsonBody(req)]: rejects when the body is not JSON. *)
Definition readJsonBody (req : request) : M json :=
  lift_option "SyntaxError: Unexpected token in JSON" (json_body req).

(** Destructuring [const { ... } = v] throws on [null]. *)
Definition destructure (v : json) : M json :=
  match v with
  | JNull => throw "TypeError: Cannot destructure 'null' as it is null."
  | _ => ret v
  end.

(** A method of [String.prototype] called on a value: only a string has it. *)
Definition as_string (v : option json) : M string :=
  match v with
  | Some (JStr s) => ret s
  | _ => throw "TypeError: not a function"
  end.

(** An argument that [path.resolve] and [fs.promises.writeFile] take as a
    string (data given as an iterable of chunks is outside the model). *)
Definition string_argument (v : option json) : M string :=
  match v with
  | Some (JStr s) => ret s
  | _ => throw "TypeError [ERR_INVALID_ARG_TYPE]: The argument must be of type string"
  end.

(** [name.match(/\.(jpg|jpeg|png|webp|gif|heic|heif)$/i)] *)
Definition has_image_extension (name : string) : bool :=
  existsb (endsWith (toLowerCase name))
    [".jpg"; ".jpeg"; ".png"; ".webp"; ".gif"; ".heic"; ".heif"].

Definition allowedCollections : list string := ["books"; "games"; "blog"].
Definition allowedTypes : list string :=
  ["image/jpeg"; "image/png"; "image/webp"; "image/gif"; "image/heic"; "image/heif"].
Definition imageExtensions : list string :=
  [".jpg"; ".jpeg"; ".png"; ".webp"; ".gif"; ".heic"; ".heif"].

Section Handlers.
Variable P : Platform.
(** [process.cwd()] *)
Variable cwd : string.

Definition contentDir : string := path.resolve cwd [cwd; "src/content"].
Definition dataDir : string := path.resolve cwd [cwd; "src/data"].
Definition galleryDir : string := path.resolve cwd [cwd; "public/gallery"].
Definition galleryConfigPath : string := path.resolve cwd [dataDir; "gallery-config.json"].
Definition memesDir : string := path.resolve cwd [cwd; "public/memes"].
Definition memesConfigPath : string := path.resolve cwd [dataDir; "memes-config.json"].

(** POST /__dev-editor/save (lines 106-128) *)
Definition handle_save (req : request) : M response :=
  try_catch (
    let* parsed := readJsonBody req in
    let* parsed := destructure parsed in
    let filePath := get_property parsed "filePath" in
    let content := get_property parsed "content" in
    let* filePath := string_argument filePath in
    let absolutePath := path.resolve cwd [cwd; filePath] in
    if negb (startsWith absolutePath contentDir) then
      ret (send 403 (error_payload "Can only edit content files"))
    else
      let* content := string_argument content in
      let* _ := fs.writeFile absolutePath content in
      ret (send 200 (JObj [("success", JBool true)]))).

(** POST /__dev-editor/create (lines 131-176) *)
Definition handle_create (req : request) : M response :=
  try_catch (
    let* parsed := readJsonBody req in
    let* parsed := destructure parsed in
    let collection := get_property parsed "collection" in
    let slug := get_property parsed "slug" in
    let frontmatter := get_property parsed "frontmatter" in
    let body := get_property parsed "body" in
    if negb (includes_string allowedCollections collection) then
      ret (send 400 (error_payload ("Invalid collection: " +:+ js_String_opt collection)))
    else
      let* slug := as_string slug in
      let safeSlug := slugify slug in
      if String.eqb safeSlug "" then
        ret (send 400 (error_payload "Invalid slug"))
      else
        let filePath :=
          path.resolve cwd [contentDir; js_String_opt collection; safeSlug +:+ ".md"] in
        fun d =>
          if fs.existsSync d filePath then
            (Ok (send 409 (error_payload "File already exists")), d)
          else
            (let* entries :=
               lift_option "TypeError: Cannot convert undefined or null to object"
                 (Object_entries frontmatter) in
             let yamlFrontmatter := frontmatterToYaml entries in
             let markdownContent :=
               "---" +:+ nl +:+ yamlFrontmatter +:+ nl +:+ "---" +:+ nl +:+ nl
               +:+ (if truthy body then js_String_opt body else "") in
             let* _ := fs.writeFile filePath markdownContent in
             ret (send 200 (JObj [("success", JBool true);
                                  ("filePath", JStr ("src/content/" +:+ js_String_opt collection
                                                     +:+ "/" +:+ safeSlug +:+ ".md"))]))) d).

(** POST /__dev-editor/upload and /__dev-editor/upload-meme
    (lines 179-218 and 398-433): the same code on two directories. *)
Definition handle_upload_to (dir publicPrefix : string) (req : request) : M response :=
  try_catch (
    let* parsed := readJsonBody req in
    let* parsed := destructure parsed in
    let filename := get_property parsed "filename" in
    let data := get_property parsed "data" in
    let mimeType := get_property parsed "mimeType" in
    if truthy mimeType && negb (includes_string allowedTypes mimeType) then
      ret (send 400 (error_payload "Invalid image type"))
    else
      let* filename := as_string filename in
      let safeFilename := sanitizeFilename filename in
      if String.eqb safeFilename "" || negb (has_image_extension safeFilename) then
        ret (send 400 (error_payload "Invalid filename"))
      else
        let* _ := fs.mkdir_recursive dir in
        let filePath := path.resolve cwd [dir; safeFilename] in
        let* buffer :=
          lift_option "TypeError [ERR_INVALID_ARG_TYPE]: The first argument must be of type string"
            (Buffer_from_base64 P data) in
        let* _ := fs.writeFile filePath buffer in
        ret (send 200 (JObj [("success", JBool true);
                             ("path", JStr (publicPrefix +:+ safeFilename))]))).

(** DELETE /__dev-editor/delete and /__dev-editor/delete-meme
    (lines 221-260 and 436-473): the same code on two directories. *)
Definition handle_delete_from (dir publicPrefix what : string) (req : request) : M response :=
  try_catch (
    let* parsed := readJsonBody req in
    let* parsed := destructure parsed in
    let* imagePath := as_string (get_property parsed "path") in
    if negb (startsWith imagePath publicPrefix) then
      ret (send 403 (error_payload ("Can only delete " +:+ what +:+ " images")))
    else
      let filename := path.basename imagePath in
      let absolutePath := path.resolve cwd [dir; filename] in
      if negb (startsWith absolutePath dir) then
        ret (send 403 (error_payload "Invalid path"))
      else
        fun d =>
          if negb (fs.existsSync d absolutePath) then
            (Ok (send 404 (error_payload "File not found")), d)
          else
            (let* _ := fs.unlink absolutePath in
             ret (send 200 (JObj [("success", JBool true)]))) d).

(** POST /__dev-editor/convert-heic (lines 263-286) *)
Definition handle_convert_heic (req : request) : M response :=
  try_catch (
    let* parsed := readJsonBody req in
    let* parsed := destructure parsed in
    let data := get_property parsed "data" in
    let* heicBuffer :=
      lift_option "TypeError [ERR_INVALID_ARG_TYPE]: The first argument must be of type string"
        (Buffer_from_base64 P data) in
    let* jpegBuffer :=
      lift_option "Error: Input buffer contains unsupported image format"
        (sharp_jpeg P heicBuffer) in
    let jpegBase64 := Buffer_to_base64 P jpegBuffer in
    ret (send 200 (JObj [("success", JBool true); ("data", JStr jpegBase64)]))).

Fixpoint stat_all (dir publicPrefix : string) (files : list string) : M (list json) :=
  match files with
  | [] => ret []
  | filename :: rest =>
      let filePath := path.resolve cwd [dir; filename] in
      let* stats := fs.stat filePath in
      let* others := stat_all dir publicPrefix rest in
      ret (JObj [("filename", JStr filename);
                 ("path", JStr (publicPrefix +:+ filename));
                 ("size", JNum (stat_size P filePath stats));
                 ("modified", JStr (stat_mtime P filePath stats))] :: others)
  end.

(** GET /__dev-editor/list-images and /__dev-editor/list-memes
    (lines 289-320 and 476-506): the same code on two directories. *)
Definition handle_list (dir publicPrefix : string) : M response :=
  try_catch (
    let* _ := fs.mkdir_recursive dir in
    let* files := fs.readdir dir in
    let* images :=
      stat_all dir publicPrefix
        (List.filter (fun f => existsb (String.eqb (toLowerCase (path.extname f)))
                                 imageExtensions) files) in
    ret (send 200 (JObj [("images", JArr images)]))).

(** GET of a config file (lines 327-343 and 364-380) *)
Definition handle_config_get (configPath : string) : M response :=
  try_catch (
    fun d =>
      if fs.existsSync d configPath then
        (let* content := fs.readFile configPath in
         ret (send_text 200 content)) d
      else (Ok (send 200 (JObj [("images", JArr [])])), d)).

(** POST of a config file (lines 345-357 and 382-394) *)
Definition handle_config_post (configPath : string) (req : request) : M response :=
  try_catch (
    let* data := readJsonBody req in
    let* _ := fs.writeFile configPath (JSON.stringify_indent2 data) in
    ret (send 200 (JObj [("success", JBool true)]))).

Definition unknown_endpoint : M response :=
  ret (send 404 (error_payload "Unknown endpoint")).

(** The routes below the memes config block (lines 397-511). *)
Definition route_after_memes (u : string) (req : request) : M response :=
  if String.eqb u "/__dev-editor/upload-meme" && String.eqb (method req) "POST" then
    handle_upload_to memesDir "/memes/" req
  else if String.eqb u "/__dev-editor/delete-meme" && String.eqb (method req) "DELETE" then
    handle_delete_from memesDir "/memes/" "meme" req
  else if String.eqb u "/__dev-editor/list-memes" && String.eqb (method req) "GET" then
    handle_list memesDir "/memes/"
  else unknown_endpoint.

(** The memes config block and what follows it (lines 360-511): the data
    directory is created before the method is looked at. *)
Definition route_after_gallery (u : string) (req : request) : M response :=
  if String.eqb u "/__dev-editor/memes" then
    let* _ := fs.mkdir_recursive dataDir in
    if String.eqb (method req) "GET" then handle_config_get memesConfigPath
    else if String.eqb (method req) "POST" then handle_config_post memesConfigPath req
    else route_after_memes u req
  else route_after_memes u req.

(** The body of the async function (lines 103-511). *)
Definition route (u : string) (req : request) : M response :=
  if String.eqb u "/__dev-editor/save" && String.eqb (method req) "POST" then
    handle_save req
  else if String.eqb u "/__dev-editor/create" && String.eqb (method req) "POST" then
    handle_create req
  else if String.eqb u "/__dev-editor/upload" && String.eqb (method req) "POST" then
    handle_upload_to galleryDir "/gallery/" req
  else if String.eqb u "/__dev-editor/delete" && String.eqb (method req) "DELETE" then
    handle_delete_from galleryDir "/gallery/" "gallery" req
  else if String.eqb u "/__dev-editor/convert-heic" && String.eqb (method req) "POST" then
    handle_convert_heic req
  else if String.eqb u "/__dev-editor/list-images" && String.eqb (method req) "GET" then
    handle_list galleryDir "/gallery/"
  else if String.eqb u "/__dev-editor/gallery" then
    let* _ := fs.mkdir_recursive dataDir in
    if String.eqb (method req) "GET" then handle_config_get galleryConfigPath
    else if String.eqb (method req) "POST" then handle_config_post galleryConfigPath req
    else route_after_gallery u req
  else route_after_gallery u req.

(** [req.url?.split('?')[0]] *)
Definition request_path (req : request) : option string :=
  match url req with
  | Some u => Some (hd "" (split_on "?" u))
  | None => None
  end.

(** The middleware (lines 94-517): [None] is [next()], for a request that
    is not the editor's; otherwise the response sent and the disk left. *)
Definition middleware (req : request) (d : disk) : option (response * disk) :=
  match request_path req with
  | Some u =>
      if startsWith u "/__dev-editor/" then
        match route u req d with
        | (Ok r, d') => Some (r, d')
        | (Throw err, d') => Some (send 500 (error_payload err), d')
        end
      else None
  | None => None
  end.

End Handlers.

(** ** Concrete environments for the checks *)

(** A platform that decodes nothing: a string is its own buffer, and every
    conversion succeeds. *)
Definition plain_platform : Platform :=
  {| Buffer_from_base64 := fun data => match data with Some (JStr s) => Some s | _ => None end;
     sharp_jpeg := fun buffer => Some buffer;
     Buffer_to_base64 := fun buffer => buffer;
     stat_size := fun _ n => match n with File content => Z.of_nat (String.length content) | Dir => 4096 end;
     stat_mtime := fun _ _ => "2024-01-01T00:00:00.000Z" |}.

(** The endpoints and the methods that the middleware answers. *)
Definition endpoints : list (string * string) :=
  [("/__dev-editor/save", "POST"); ("/__dev-editor/create", "POST");
   ("/__dev-editor/upload", "POST"); ("/__dev-editor/delete", "DELETE");
   ("/__dev-editor/convert-heic", "POST"); ("/__dev-editor/list-images", "GET");
   ("/__dev-editor/gallery", "GET"); ("/__dev-editor/gallery", "POST");
   ("/__dev-editor/memes", "GET"); ("/__dev-editor/memes", "POST");
   ("/__dev-editor/upload-meme", "POST"); ("/__dev-editor/delete-meme", "DELETE");
   ("/__dev-editor/list-memes", "GET")].

Definition defined_endpoint (u meth : string) : bool :=
  existsb (fun e => String.eqb u (fst e) && String.eqb meth (snd e)) endpoints.

Definition status_of (result : option (response * disk)) : option Z :=
  match result with
  | Some (r, _) => Some (statusCode r)
  | None => None
  end.

(** [p] is the directory [dir] or an entry below it. *)
Definition inside_directory (dir p : string) : bool :=
  String.eqb p dir || startsWith p (dir +:+ "/").

Definition save_request (filePath content : json) : request :=
  {| url := Some "/__dev-editor/save";
     method := "POST";
     json_body := Some (JObj [("filePath", filePath); ("content", content)]) |}.

Definition delete_request (imagePath : json) : request :=
  {| url := Some "/__dev-editor/delete";
     method := "DELETE";
     json_body := Some (JObj [("path", imagePath)]) |}.

(** A site with a directory beside the content directory whose name starts
    with the same letters. *)
Definition drafts_disk : disk :=
  list_to_map [("/site", Dir); ("/site/src", Dir); ("/site/src/content", Dir);
               ("/site/src/content-drafts", Dir);
               ("/site/public", Dir); ("/site/public/gallery", Dir);
               ("/site/public/gallery/cat.jpg", File "jpeg bytes");
               ("/site/public/secret.txt", File "keep")].

(** A gallery config as the editor posts it. *)
Definition gallery_config : json :=
  JObj [("images",
         JArr [JObj [("src", JStr "/gallery/cat.jpg"); ("caption", JStr "A cat");
                     ("order", JNum 1); ("hidden", JBool false)];
               JObj [("src", JStr "/gallery/dog.jpg"); ("caption", JNull);
                     ("order", JNum (-2)); ("tags", JArr [])]]);
        ("title", JStr ("Line one" +:+ nl +:+ "say " +:+ dquote +:+ "hi" +:+ dquote));
        ("layout", JObj [])].

Definition config_request (endpoint meth : string) (payload : option json) : request :=
  {| url := Some endpoint; method := meth; json_body := payload |}.

(** ** Reading front matter back *)

(** The reader of the block that [frontmatterToYaml] writes, for the subset
    of YAML that the writer uses: one [key: scalar] line per entry, or a
    [key:] line followed by [  - item] lines. A scalar is read as the YAML
    core schema reads it: an integer, [true], [false], [null], a
    double-quoted string, or else the text itself. *)

Definition nl_char : ascii := ascii_of_nat 10.
Definition is_backslash (c : ascii) : bool := Ascii.eqb c (ascii_of_nat 92).

(** The key before the first colon of a line, and what follows that colon. *)
Fixpoint split_key (line : string) : option (string * string) :=
  match line with
  | EmptyString => None
  | String c rest =>
      if Ascii.eqb c ":" then Some (EmptyString, rest)
      else match split_key rest with
           | Some (key, value) => Some (String c key, value)
           | None => None
           end
  end.

(** The text of a double-quoted scalar, from behind its opening quote to the
    closing quote that ends the line; the only escape read is the escaped
    quote. *)
Fixpoint unescape_quoted (s : string) : option string :=
  match s with
  | EmptyString => None
  | String c rest =>
      if is_dquote c then
        match rest with
        | EmptyString => Some EmptyString
        | String _ _ => None
        end
      else if is_backslash c then
        match rest with
        | String c' rest' =>
            if is_dquote c' then option_map (String c') (unescape_quoted rest') else None
        | EmptyString => None
        end
      else option_map (String c) (unescape_quoted rest)
  end.

Definition read_scalar (s : string) : option json :=
  match read_int s with
  | Some n => Some (JNum n)
  | None =>
      if String.eqb s "true" then Some (JBool true)
      else if String.eqb s "false" then Some (JBool false)
      else if String.eqb s "null" then Some JNull
      else match s with
           | String c rest =>
               if is_dquote c then option_map JStr (unescape_quoted rest)
               else Some (JStr s)
           | EmptyString => Some JNull
           end
  end.

(** One line read after the entries [entries_rev] (last entry first). *)
Definition read_line (state : option (list (string * json))) (line : string)
    : option (list (string * json)) :=
  match state with
  | None => None
  | Some entries_rev =>
      if String.eqb line "" then Some entries_rev
      else
        match strip_prefix "  - " line with
        | Some item =>
            match entries_rev, read_scalar item with
            | (key, JArr items) :: others, Some v =>
                Some ((key, JArr (items ++ [v])) :: others)
            | _, _ => None
            end
        | None =>
            match split_key line with
            | Some (key, EmptyString) => Some ((key, JArr []) :: entries_rev)
            | Some (key, String c text) =>
                if Ascii.eqb c " " then
                  option_map (fun v => (key, v) :: entries_rev) (read_scalar text)
                else None
            | None => None
            end
        end
  end.

(** A key with nothing after it and no item below it is [null]. *)
Definition close_entry (entry : string * json) : string * json :=
  match entry with
  | (key, JArr []) => (key, JNull)
  | _ => entry
  end.

Definition read_lines (lines : list string) : option (list (string * json)) :=
  option_map (fun entries_rev => rev (map close_entry entries_rev))
    (fold_left read_line lines (Some [])).

Fixpoint take_until_delimiter (lines : list string) : option (list string) :=
  match lines with
  | [] => None
  | line :: rest =>
      if String.eqb line "---" then Some []
      else option_map (cons line) (take_until_delimiter rest)
  end.

(** The lines between the two [---] delimiters of a Markdown file. *)
Definition front_matter_lines (content : string) : option (list string) :=
  match split_on nl_char content with
  | first :: rest =>
      if String.eqb first "---" then take_until_delimiter rest else None
  | [] => None
  end.

(** Parsing the front matter of a Markdown file. *)
Definition read_front_matter (content : string) : option (list (string * json)) :=
  match front_matter_lines content with
  | Some lines => read_lines lines
  | None => None
  end.

(** *** The front matter that is written plainly *)

Definition is_letter (c : ascii) : bool := char_between 65 90 c || char_between 97 122 c.
Definition is_space (c : ascii) : bool := Ascii.eqb c " "%char.

Definition key_char (c : ascii) : bool :=
  is_letter c || is_digit c || Ascii.eqb c "_"%char || is_hyphen c.

(** A key: a letter, then letters, digits, underscores and hyphens. *)
Definition plain_key (key : string) : bool :=
  head_sat is_letter key && all_chars key_char key.

Definition text_char (c : ascii) : bool :=
  is_letter c || is_digit c || is_space c || Ascii.eqb c "_"%char || is_hyphen c
  || is_dot c || is_slash c || Ascii.eqb c ","%char.

Definition reserved_words : list string :=
  ["true"; "false"; "null"; "yes"; "no"; "on"; "off"; "y"; "n"].

(** A text written without quotes that reads back as itself: it starts with
    a letter, does not end with a space, and is no reserved word. *)
Definition plain_text (s : string) : bool :=
  head_sat is_letter s && all_chars text_char s && negb (last_sat is_space s)
  && negb (existsb (String.eqb (toLowerCase s)) reserved_words).

Definition is_special (c : ascii) : bool :=
  Ascii.eqb c ":"%char || Ascii.eqb c "#"%char || is_dquote c || Ascii.eqb c "'"%char.

(** A text that the writer quotes and that reads back as itself: printable
    ASCII with a colon, a hash or a quote in it, and no backslash. *)
Definition quotable_text (s : string) : bool :=
  any_char is_special s
  && all_chars (fun c => char_between 32 126 c && negb (is_backslash c)) s.

Definition plain_item (v : json) : bool :=
  match v with
  | JBool _ | JNum _ | JNull => true
  | JStr s => plain_text s
  | JArr _ | JObj _ => false
  end.

Definition plain_value (v : json) : bool :=
  match v with
  | JBool _ | JNum _ | JNull => true
  | JStr s => plain_text s || quotable_text s
  | JArr items => forallb plain_item items
  | JObj _ => false
  end.

Fixpoint distinct_keys (entries : list (string * json)) : bool :=
  match entries with
  | [] => true
  | (key, _) :: rest =>
      negb (existsb (fun e => String.eqb key (fst e)) rest) && distinct_keys rest
  end.

(** Front matter of a flat schema: distinct plain keys, each with a boolean,
    an integer, [null], a text, or an array of such scalars. *)
Definition plain_frontmatter (data : list (string * json)) : bool :=
  forallb (fun e => plain_key (fst e) && plain_value (snd e)) data
  && distinct_keys data.

Definition drop_empty_arrays (data : list (string * json)) : list (string * json) :=
  List.filter (fun e => negb (match snd e with JArr [] => true | _ => false end)) data.

Definition post_frontmatter : list (string * json) :=
  [("title", JStr "It's a post: part 2"); ("description", JStr "A plain text");
   ("tags", JArr []); ("tech", JArr [JStr "rocq"; JStr "type theory"]);
   ("rating", JNum 5); ("draft", JBool false); ("cover", JNull)].

(** * Checks of the model on concrete inputs *)

Example sanitizeFilename_photo :
  sanitizeFilename "My Photo__1.JPG" = "my-photo-1.jpg".
Proof. reflexivity. Qed.

Example sanitizeFilename_edges : sanitizeFilename "--a--" = "a".
Proof. reflexivity. Qed.

Example slugify_title : slugify "  Hello, World! (2nd) " = "hello-world-2nd".
Proof. reflexivity. Qed.

Example split_on_slash : split_on "/" "/a//b/" = [""; "a"; ""; "b"; ""].
Proof. reflexivity. Qed.

Example resolve_relative :
  path.resolve "/site" ["/site"; "src/content"] = "/site/src/content".
Proof. reflexivity. Qed.

Example resolve_dotdot :
  path.resolve "/site" ["/site/src/content"; "../../../etc/./passwd"] = "/etc/passwd".
Proof. reflexivity. Qed.

Example resolve_absolute_wins :
  path.resolve "/site" ["/site"; "/tmp/x"; "y"] = "/tmp/x/y".
Proof. reflexivity. Qed.

Example basename_trailing : path.basename "/gallery/a.jpg//" = "a.jpg".
Proof. reflexivity. Qed.

Example extname_cases :
  map path.extname ["index.html"; "index."; "index"; ".index"; ".index.md"; ".."; "..."; "..a"]
  = [".html"; "."; ""; ""; ".md"; ""; "."; ".a"].
Proof. reflexivity. Qed.

Example stringify_error :
  JSON.stringify (JObj [("error", JStr "Unknown endpoint")])
  = "{" +:+ dquote +:+ "error" +:+ dquote +:+ ":" +:+ dquote +:+ "Unknown endpoint" +:+ dquote +:+ "}".
Proof. reflexivity. Qed.

Example stringify_pretty :
  JSON.stringify_indent2 (JObj [("images", JArr [JNum 1; JArr []]); ("n", JNum (-20))])
  = "{" +:+ nl +:+ "  " +:+ dquote +:+ "images" +:+ dquote +:+ ": [" +:+ nl
    +:+ "    1," +:+ nl +:+ "    []" +:+ nl +:+ "  ]," +:+ nl
    +:+ "  " +:+ dquote +:+ "n" +:+ dquote +:+ ": -20" +:+ nl +:+ "}".
Proof. reflexivity. Qed.

Example js_String_nested :
  js_String (JArr [JNum 1; JNull; JArr [JStr "a"; JBool true]; JObj []])
  = "1,,a,true,[object Object]".
Proof. reflexivity. Qed.

Example frontmatterToYaml_post :
  frontmatterToYaml post_frontmatter
  = "title: " +:+ dquote +:+ "It's a post: part 2" +:+ dquote +:+ nl
    +:+ "description: A plain text" +:+ nl
    +:+ "tech:" +:+ nl +:+ "  - rocq" +:+ nl +:+ "  - type theory" +:+ nl
    +:+ "rating: 5" +:+ nl +:+ "draft: false" +:+ nl +:+ "cover: null".
Proof. reflexivity. Qed.

Example read_post :
  plain_frontmatter post_frontmatter = true
  /\ read_lines (split_on nl_char (frontmatterToYaml post_frontmatter))
     = Some (drop_empty_arrays post_frontmatter).
Proof. split; vm_compute; reflexivity. Qed.

Example parse_stringify_config :
  JSON.parse (JSON.stringify_indent2 gallery_config) = Some gallery_config
  /\ JSON.parse (JSON.stringify gallery_config) = Some gallery_config.
Proof. split; vm_compute; reflexivity. Qed.

Example parse_handwritten :
  JSON.parse ("  { " +:+ dquote +:+ "a" +:+ dquote +:+ " : [1, -20 ,true , null], "
              +:+ dquote +:+ "b" +:+ backslash +:+ "u0041" +:+ dquote +:+ ":{}, "
              +:+ dquote +:+ "a" +:+ dquote +:+ ": false } ")
  = Some (JObj [("a", JBool false); ("bA", JObj [])]).
Proof. vm_compute. reflexivity. Qed.

Example parse_rejects :
  map JSON.parse ["01"; "-0"; "1.5"; "[1,]"; "{"; "tru"; "1 2"] = [None; None; None; None; None; None; None].
Proof. vm_compute. reflexivity. Qed.
(** * Properties *)

(** ** Sanitizers *)

Lemma hyphen_app (s : string) : "-" +:+ s = String "-"%char s.
Proof. reflexivity. Qed.

Section RunLemmas.
Variable p : ascii -> bool.
Hypothesis p_hyphen : p "-"%char = true.

Lemma replace_runs_head s :
  head_sat is_hyphen (replace_runs p "-" s) = head_sat p s.
Proof.
  induction s as [|c s IH]; simpl; [reflexivity|].
  destruct (p c) eqn:Hc.
  - destruct (head_sat p s) eqn:Hs; [congruence | rewrite hyphen_app; reflexivity].
  - simpl. unfold is_hyphen. destruct (Ascii.eqb_spec c "-"%char); congruence.
Qed.

Lemma replace_runs_no_double s :
  has_double_hyphen (replace_runs p "-" s) = false.
Proof.
  induction s as [|c s IH]; simpl; [reflexivity|].
  destruct (p c) eqn:Hc.
  - destruct (head_sat p s) eqn:Hs; [exact IH|].
    rewrite hyphen_app. simpl. rewrite replace_runs_head, Hs, IH. reflexivity.
  - simpl. rewrite IH, orb_false_r.
    unfold is_hyphen at 1. destruct (Ascii.eqb_spec c "-"%char); [congruence | reflexivity].
Qed.

Lemma replace_runs_chars (q : ascii -> bool) s :
  q "-"%char = true ->
  all_chars (fun c => p c || q c) s = true ->
  all_chars q (replace_runs p "-" s) = true.
Proof.
  intros Hq. induction s as [|c s IH]; simpl; [reflexivity|].
  intros H. apply andb_true_iff in H as [Hc Hs].
  destruct (p c) eqn:Hpc.
  - destruct (head_sat p s); rewrite ?hyphen_app; simpl; rewrite ?Hq; auto.
  - simpl in Hc. simpl. rewrite Hc. auto.
Qed.

Lemma replace_runs_fixed s :
  all_chars (fun c => negb (p c) || is_hyphen c) s = true ->
  has_double_hyphen s = false ->
  replace_runs p "-" s = s.
Proof.
  induction s as [|c s IH]; simpl; [reflexivity|].
  intros H D. apply andb_true_iff in H as [Hc Hs].
  apply orb_false_iff in D as [D1 D2].
  destruct (p c) eqn:Hpc.
  - simpl in Hc. unfold is_hyphen in Hc. apply Ascii.eqb_eq in Hc. subst c.
    simpl in D1.
    assert (Hh : head_sat p s = false).
    { destruct s as [|d s]; [reflexivity|]. simpl in *.
      apply andb_true_iff in Hs as [Hd _]. rewrite D1 in Hd.
      rewrite orb_false_r in Hd. apply negb_true_iff in Hd. exact Hd. }
    rewrite Hh, hyphen_app. f_equal. auto.
  - f_equal. auto.
Qed.
End RunLemmas.

Lemma all_chars_impl (p q : ascii -> bool) s :
  (forall c, p c = true -> q c = true) ->
  all_chars p s = true -> all_chars q s = true.
Proof.
  intros Hpq. induction s as [|c s IH]; simpl; [reflexivity|].
  intros H. apply andb_true_iff in H as [Hc Hs]. rewrite (Hpq _ Hc). auto.
Qed.

Lemma replace_each_chars (q : ascii -> bool) s :
  q "-"%char = true ->
  all_chars q (replace_each (fun c => negb (q c)) "-" s) = true.
Proof.
  intros Hq. induction s as [|c s IH]; simpl; [reflexivity|].
  destruct (q c) eqn:Hc; rewrite ?hyphen_app; simpl; rewrite ?Hq, ?Hc; exact IH.
Qed.

Lemma replace_each_fixed (q : ascii -> bool) r s :
  all_chars q s = true -> replace_each (fun c => negb (q c)) r s = s.
Proof.
  induction s as [|c s IH]; simpl; [reflexivity|].
  intros H. apply andb_true_iff in H as [Hc Hs]. rewrite Hc. simpl. f_equal. auto.
Qed.

Lemma drop_trailing_chars q s :
  all_chars q s = true -> all_chars q (drop_trailing_hyphen s) = true.
Proof.
  induction s as [|c s IH]; simpl; [reflexivity|].
  intros H. apply andb_true_iff in H as [Hc Hs].
  destruct s as [|d s]; [destruct (is_hyphen c); simpl; rewrite ?Hc; reflexivity|].
  change (q c && all_chars q (drop_trailing_hyphen (String d s)) = true).
  rewrite Hc. auto.
Qed.

Lemma drop_leading_chars q s :
  all_chars q s = true -> all_chars q (drop_leading_hyphen s) = true.
Proof.
  destruct s as [|c s]; simpl; [reflexivity|].
  intros H. destruct (is_hyphen c); [|exact H].
  apply andb_true_iff in H as [_ Hs]. exact Hs.
Qed.

Lemma drop_trailing_head s :
  has_double_hyphen s = false ->
  head_sat is_hyphen s = false ->
  head_sat is_hyphen (drop_trailing_hyphen s) = false.
Proof.
  destruct s as [|c [|d s]]; simpl; intros _ H; rewrite ?H; simpl; auto.
Qed.

Lemma drop_trailing_double s :
  has_double_hyphen s = false ->
  has_double_hyphen (drop_trailing_hyphen s) = false.
Proof.
  induction s as [|c s IH]; [reflexivity|].
  intros D. destruct s as [|d s]; [simpl; destruct (is_hyphen c); [reflexivity | exact D]|].
  change (drop_trailing_hyphen (String c (String d s)))
    with (String c (drop_trailing_hyphen (String d s))).
  simpl in D. apply orb_false_iff in D as [D1 D2].
  change (is_hyphen c && head_sat is_hyphen (drop_trailing_hyphen (String d s))
          || has_double_hyphen (drop_trailing_hyphen (String d s)) = false).
  rewrite (IH D2), orb_false_r.
  destruct (is_hyphen c) eqn:Hc; [|reflexivity]. simpl in *.
  destruct s as [|e s]; simpl; [rewrite D1; exact D1 | exact D1].
Qed.

Lemma drop_trailing_last s :
  has_double_hyphen s = false ->
  last_sat is_hyphen (drop_trailing_hyphen s) = false.
Proof.
  induction s as [|c s IH]; [reflexivity|].
  intros D. destruct s as [|d s].
  - simpl. destruct (is_hyphen c) eqn:Hc; simpl; [reflexivity | exact Hc].
  - change (drop_trailing_hyphen (String c (String d s)))
      with (String c (drop_trailing_hyphen (String d s))).
    simpl in D. apply orb_false_iff in D as [D1 D2].
    specialize (IH D2).
    destruct (drop_trailing_hyphen (String d s)) as [|e t] eqn:E; [|exact IH].
    (* the rest was the single hyphen [d]: then [c] is no hyphen *)
    destruct s as [|e s]; [|discriminate E].
    simpl in E. destruct (is_hyphen d) eqn:Hd; [|discriminate E].
    simpl in D1. rewrite ?Hd, andb_true_r in D1. simpl. exact D1.
Qed.

Lemma drop_leading_double s :
  has_double_hyphen s = false -> has_double_hyphen (drop_leading_hyphen s) = false.
Proof.
  destruct s as [|c s]; simpl; [reflexivity|].
  intros D. apply orb_false_iff in D as [D1 D2].
  destruct (is_hyphen c) eqn:Hc; simpl; [exact D2 | rewrite Hc, D2; reflexivity].
Qed.

Lemma drop_leading_head s :
  has_double_hyphen s = false -> head_sat is_hyphen (drop_leading_hyphen s) = false.
Proof.
  destruct s as [|c s]; simpl; [reflexivity|].
  intros D. apply orb_false_iff in D as [D1 _].
  destruct (is_hyphen c) eqn:Hc; simpl; [exact D1 | exact Hc].
Qed.

Lemma strip_edge_tidy s :
  has_double_hyphen s = false -> tidy_hyphens (strip_edge_hyphens s) = true.
Proof.
  intros D. unfold tidy_hyphens, strip_edge_hyphens.
  pose proof (drop_leading_double s D) as D'.
  rewrite (drop_trailing_double _ D'), (drop_trailing_last _ D'),
    (drop_trailing_head _ D' (drop_leading_head s D)).
  reflexivity.
Qed.

Lemma drop_trailing_fixed s :
  last_sat is_hyphen s = false -> drop_trailing_hyphen s = s.
Proof.
  induction s as [|c s IH]; [reflexivity|].
  destruct s as [|d s]; [simpl; intros ->; reflexivity|].
  intros H. change (String c (drop_trailing_hyphen (String d s)) = String c (String d s)).
  f_equal. apply IH. exact H.
Qed.

Lemma strip_edge_fixed s :
  tidy_hyphens s = true -> strip_edge_hyphens s = s.
Proof.
  unfold tidy_hyphens, strip_edge_hyphens. intros H.
  apply andb_true_iff in H as [H H3]. apply andb_true_iff in H as [_ H2].
  apply negb_true_iff in H2, H3.
  assert (E : drop_leading_hyphen s = s).
  { destruct s as [|c s]; [reflexivity|]. simpl in *. rewrite H2. reflexivity. }
  rewrite E. apply drop_trailing_fixed. exact H3.
Qed.

Lemma tidy_no_double s : tidy_hyphens s = true -> has_double_hyphen s = false.
Proof.
  unfold tidy_hyphens. intros H.
  apply andb_true_iff in H as [H _]. apply andb_true_iff in H as [H _].
  apply negb_true_iff in H. exact H.
Qed.

Lemma lower_char_fixed c : filename_char c = true -> lower_char c = c.
Proof.
  destruct c as [[] [] [] [] [] [] [] []]; vm_compute; intros H;
    first [reflexivity | discriminate H].
Qed.

Lemma toLowerCase_fixed s : all_chars filename_char s = true -> toLowerCase s = s.
Proof.
  induction s as [|c s IH]; simpl; [reflexivity|].
  intros H. apply andb_true_iff in H as [Hc Hs].
  unfold toLowerCase in *. simpl. rewrite (lower_char_fixed _ Hc). f_equal. auto.
Qed.

Lemma slug_char_filename c : slug_char c = true -> filename_char c = true.
Proof.
  unfold slug_char, filename_char, alnum_char.
  destruct (is_lower c), (is_digit c), (is_dot c), (is_hyphen c); simpl; congruence.
Qed.

Lemma sanitizeFilename_chars s : all_chars filename_char (sanitizeFilename s) = true.
Proof.
  unfold sanitizeFilename, strip_edge_hyphens.
  apply drop_trailing_chars, drop_leading_chars.
  apply (replace_runs_chars is_hyphen filename_char); [reflexivity|].
  eapply all_chars_impl; [|apply (replace_each_chars filename_char); reflexivity].
  intros c ->. apply orb_true_r.
Qed.

Lemma sanitizeFilename_tidy s : tidy_hyphens (sanitizeFilename s) = true.
Proof.
  unfold sanitizeFilename. apply strip_edge_tidy.
  apply replace_runs_no_double. reflexivity.
Qed.

Lemma slugify_chars s : all_chars slug_char (slugify s) = true.
Proof.
  unfold slugify, strip_edge_hyphens.
  apply drop_trailing_chars, drop_leading_chars.
  apply (replace_runs_chars (fun c => negb (alnum_char c)) slug_char); [reflexivity|].
  generalize (toLowerCase s). intros t.
  induction t as [|c t IH]; simpl; [reflexivity|].
  rewrite IH, andb_true_r. unfold slug_char.
  destruct (alnum_char c); reflexivity.
Qed.

Lemma slugify_tidy s : tidy_hyphens (slugify s) = true.
Proof.
  unfold slugify. apply strip_edge_tidy.
  apply replace_runs_no_double. reflexivity.
Qed.

Lemma sanitizeFilename_fixed s :
  all_chars filename_char s = true -> tidy_hyphens s = true -> sanitizeFilename s = s.
Proof.
  intros Hc Ht. unfold sanitizeFilename.
  rewrite (toLowerCase_fixed _ Hc), (replace_each_fixed _ _ _ Hc).
  rewrite replace_runs_fixed; [apply strip_edge_fixed; exact Ht | | ].
  - eapply all_chars_impl; [|exact Hc]. intros c _.
    destruct (is_hyphen c); reflexivity.
  - apply tidy_no_double. exact Ht.
Qed.

Lemma slugify_fixed s :
  all_chars slug_char s = true -> tidy_hyphens s = true -> slugify s = s.
Proof.
  intros Hc Ht. unfold slugify.
  rewrite (toLowerCase_fixed s);
    [|eapply all_chars_impl; [apply slug_char_filename | exact Hc]].
  rewrite replace_runs_fixed; [apply strip_edge_fixed; exact Ht | | ].
  - eapply all_chars_impl; [|exact Hc]. intros c. unfold slug_char.
    destruct (alnum_char c); simpl; auto.
  - apply tidy_no_double. exact Ht.
Qed.

(** C3. Both sanitizers are idempotent: sanitizing a sanitized name changes
    nothing, for [sanitizeFilename] and for [slugify], whatever the string. *)
Theorem sanitizers_idempotent (s : string) :
  sanitizeFilename (sanitizeFilename s) = sanitizeFilename s
  /\ slugify (slugify s) = slugify s.
Proof.
  split.
  - apply sanitizeFilename_fixed; [apply sanitizeFilename_chars | apply sanitizeFilename_tidy].
  - apply slugify_fixed; [apply slugify_chars | apply slugify_tidy].
Qed.

(** C4. The sanitizers strip disallowed characters: [sanitizeFilename s] holds
    only lowercase letters, digits, dots and hyphens, with no two hyphens in a
    row and none at either end; [slugify s] holds only lowercase letters,
    digits and hyphens, with none at either end. *)
Theorem sanitizers_strip_disallowed (s : string) :
  (all_chars filename_char (sanitizeFilename s) = true
   /\ has_double_hyphen (sanitizeFilename s) = false
   /\ head_sat is_hyphen (sanitizeFilename s) = false
   /\ last_sat is_hyphen (sanitizeFilename s) = false)
  /\ (all_chars slug_char (slugify s) = true
      /\ head_sat is_hyphen (slugify s) = false
      /\ last_sat is_hyphen (slugify s) = false).
Proof.
  pose proof (sanitizeFilename_tidy s) as T1.
  pose proof (slugify_tidy s) as T2.
  unfold tidy_hyphens in T1, T2.
  apply andb_true_iff in T1 as [T1 L1]. apply andb_true_iff in T1 as [D1 H1].
  apply andb_true_iff in T2 as [T2 L2]. apply andb_true_iff in T2 as [D2 H2].
  apply negb_true_iff in L1, D1, H1, L2, H2.
  repeat split; auto using sanitizeFilename_chars, slugify_chars.
Qed.

(** ** Front matter and the create handler *)

Definition is_empty_array (v : json) : bool :=
  match v with
  | JArr [] => true
  | _ => false
  end.

(** The request that the editor's client sends to create a file. *)
Definition create_request (collection slug : json) (frontmatter : list (string * json))
    (text : json) : request :=
  {| url := Some "/__dev-editor/create";
     method := "POST";
     json_body := Some (JObj [("collection", collection); ("slug", slug);
                              ("frontmatter", JObj frontmatter); ("body", text)]) |}.

Lemma yaml_entry_None key value :
  yaml_entry (key, value) = None <-> is_empty_array value = true.
Proof.
  destruct value as [| | | s | [|x items] |]; simpl; try (split; congruence).
  destruct (is_date_string s); split; congruence.
Qed.

Lemma frontmatterToYaml_filter data :
  frontmatterToYaml data
  = frontmatterToYaml (List.filter (fun entry => negb (is_empty_array (snd entry))) data).
Proof.
  unfold frontmatterToYaml. f_equal. f_equal.
  induction data as [|[key value] data IH]; [reflexivity|].
  cbn [map List.filter snd].
  destruct (is_empty_array value) eqn:E; cbn [negb].
  - rewrite (proj2 (yaml_entry_None key value) E). exact IH.
  - cbn [map List.filter]. destruct (kept (yaml_entry (key, value))); rewrite IH; reflexivity.
Qed.

Lemma frontmatterToYaml_skip before key after :
  frontmatterToYaml (before ++ (key, JArr []) :: after) = frontmatterToYaml (before ++ after).
Proof.
  rewrite frontmatterToYaml_filter, (frontmatterToYaml_filter (before ++ after)).
  f_equal. rewrite !List.filter_app. reflexivity.
Qed.

(** C10. An entry whose value is the empty array leaves no trace in the YAML:
    its callback returns [null], [frontmatterToYaml] gives the text it gives
    without such entries, and a create request writes the same file and sends
    the same response with or without the entry. *)
Theorem frontmatterToYaml_omits_empty_arrays
    (cwd : string) (collection slug text : json)
    (before after : list (string * json)) (key : string) (d : disk) :
  yaml_entry (key, JArr []) = None
  /\ frontmatterToYaml (before ++ (key, JArr []) :: after)
     = frontmatterToYaml (before ++ after)
  /\ (forall data,
        frontmatterToYaml data
        = frontmatterToYaml
            (List.filter (fun entry => negb (is_empty_array (snd entry))) data))
  /\ handle_create cwd
       (create_request collection slug (before ++ (key, JArr []) :: after) text) d
     = handle_create cwd (create_request collection slug (before ++ after) text) d.
Proof.
  split; [reflexivity|]. split; [apply frontmatterToYaml_skip|].
  split; [apply frontmatterToYaml_filter|].
  unfold handle_create, create_request, try_catch, bind, readJsonBody, lift_option, ret.
  cbn [json_body destructure ret get_property assoc_lookup String.eqb Ascii.eqb Bool.eqb
       Object_entries].
  rewrite frontmatterToYaml_skip. reflexivity.
Qed.

Lemma create_writes_fresh cwd req d :
  match handle_create cwd req d with
  | (_, d') =>
      d' = d
      \/ exists target content,
           fs.existsSync d target = false /\ d' = <[target := File content]> d
  end.
Proof.
  unfold handle_create, try_catch, bind, readJsonBody, lift_option.
  destruct (json_body req) as [parsed|]; [|left; reflexivity].
  unfold ret at 1.
  destruct (destructure parsed d) as [[parsed'|err] d0] eqn:Hd.
  2:{ left. destruct parsed; simpl in Hd; inversion Hd; reflexivity. }
  assert (d0 = d) as -> by (destruct parsed; simpl in Hd; inversion Hd; reflexivity).
  destruct (negb (includes_string allowedCollections (get_property parsed' "collection")));
    [left; reflexivity|].
  destruct (get_property parsed' "slug") as [[| | |slug| |]|]; try (left; reflexivity).
  cbn [as_string ret].
  destruct (String.eqb (slugify slug) ""); [left; reflexivity|].
  set (target := path.resolve cwd _).
  destruct (fs.existsSync d target) eqn:Hex; [left; reflexivity|].
  destruct (Object_entries (get_property parsed' "frontmatter")) as [entries|];
    [|left; reflexivity].
  unfold ret at 1. unfold fs.writeFile.
  destruct (fs.is_dir d target); [left; reflexivity|].
  destruct (fs.is_dir d (fs.parent target)); [|left; reflexivity].
  right. eexists target, _. split; [exact Hex|]. reflexivity.
Qed.

(** C9. POST /__dev-editor/create never overwrites: when the target
    [<slug>.md] of a valid request exists, the answer is 409 and the disk is
    as it was; and whatever the request, the disk is left unchanged or gains
    one file at a path where nothing existed. *)
Theorem create_never_overwrites (cwd : string) (req : request) (d : disk) :
  (forall parsed collection slug,
      json_body req = Some parsed ->
      get_property parsed "collection" = Some (JStr collection) ->
      In collection allowedCollections ->
      get_property parsed "slug" = Some (JStr slug) ->
      slugify slug <> "" ->
      fs.existsSync d
        (path.resolve cwd [contentDir cwd; collection; slugify slug +:+ ".md"]) = true ->
      handle_create cwd req d = (Ok (send 409 (error_payload "File already exists")), d))
  /\ match handle_create cwd req d with
     | (_, d') =>
         d' = d
         \/ exists target content,
              fs.existsSync d target = false /\ d' = <[target := File content]> d
     end.
Proof.
  split; [|apply create_writes_fresh].
  intros parsed collection slug Hbody Hcol Hin Hslug Hne Hex.
  unfold handle_create, try_catch, bind, readJsonBody, lift_option.
  rewrite Hbody. unfold ret at 1.
  assert (Hd : destructure parsed d = (Ok parsed, d)).
  { destruct parsed; try reflexivity. discriminate Hcol. }
  rewrite Hd, Hcol, Hslug.
  assert (Hinc : includes_string allowedCollections (Some (JStr collection)) = true).
  { unfold includes_string. apply existsb_exists. exists collection. split; [exact Hin|].
    apply String.eqb_refl. }
  rewrite Hinc. cbn [negb as_string ret js_String_opt js_String].
  destruct (String.eqb_spec (slugify slug) ""); [contradiction|].
  rewrite Hex. reflexivity.
Qed.

Definition site_disk : disk :=
  list_to_map [("/site", Dir); ("/site/src", Dir); ("/site/src/content", Dir);
               ("/site/src/content/blog", Dir);
               ("/site/src/content/blog/hello-world.md", File "old post")].

Lemma create_never_overwrites_witness :
  handle_create "/site" (create_request (JStr "blog") (JStr "Hello, World!") [] JNull) site_disk
  = (Ok (send 409 (error_payload "File already exists")), site_disk).
Proof.
  apply (proj1 (create_never_overwrites "/site"
                  (create_request (JStr "blog") (JStr "Hello, World!") [] JNull) site_disk)
           (JObj [("collection", JStr "blog"); ("slug", JStr "Hello, World!");
                  ("frontmatter", JObj []); ("body", JNull)])
           "blog" "Hello, World!").
  - reflexivity.
  - reflexivity.
  - simpl. auto.
  - reflexivity.
  - vm_compute. discriminate.
  - vm_compute. reflexivity.
Defined.

(** ** Status codes of the dispatcher *)

(** A response as the handlers build them: one of the six status codes, and
    a 500 carries the stringified error. *)
Definition good (r : response) : Prop :=
  In (statusCode r) [200; 400; 403; 404; 409; 500]
  /\ (statusCode r = 500 -> exists err, r = send 500 (error_payload err)).

Definition Good (m : M response) : Prop :=
  forall d, match m d with (Ok r, _) => good r | (Throw _, _) => True end.

Lemma good_send status payload :
  In status [200; 400; 403; 404; 409] -> good (send status payload).
Proof.
  intros H. split; [simpl in *; tauto|].
  simpl. intros E. subst status. simpl in H.
  repeat (destruct H as [H|H]; [discriminate H|]). contradiction.
Qed.

Lemma good_send_500 err : good (send 500 (error_payload err)).
Proof. split; [simpl; tauto|]. intros _. exists err. reflexivity. Qed.

Lemma Good_ret r : good r -> Good (ret r).
Proof. intros H d. exact H. Qed.

Lemma Good_throw err : Good (throw err).
Proof. intros d. exact I. Qed.

Lemma Good_bind {A} (m : M A) (k : A -> M response) :
  (forall a, Good (k a)) -> Good (bind m k).
Proof.
  intros H d. unfold bind. destruct (m d) as [[a|err] d']; [apply H | exact I].
Qed.

Lemma Good_try_catch m : Good m -> Good (try_catch m).
Proof.
  intros H d. unfold try_catch. specialize (H d).
  destruct (m d) as [[r|err] d']; [exact H | apply good_send_500].
Qed.

Lemma Good_if (b : bool) (m1 m2 : M response) :
  Good m1 -> Good m2 -> Good (if b then m1 else m2).
Proof. destruct b; auto. Qed.

Lemma Good_read (f : disk -> bool) (r : response) (m : M response) :
  good r -> Good m -> Good (fun d => if f d then (Ok r, d) else m d).
Proof. intros Hr Hm d. destruct (f d); [exact Hr | apply Hm]. Qed.

Ltac good_send_tac :=
  first [ apply good_send_500
        | apply good_send; simpl; tauto
        | split; [simpl; tauto | simpl; intros E; discriminate E] ].

Ltac good_tac :=
  repeat first
    [ apply Good_try_catch
    | apply Good_bind; intros ?
    | apply Good_throw
    | apply Good_ret; good_send_tac
    | apply Good_if
    | apply Good_read; [good_send_tac|] ].

Lemma Good_save cwd req : Good (handle_save cwd req).
Proof. unfold handle_save. good_tac. Qed.

Lemma Good_create cwd req : Good (handle_create cwd req).
Proof. unfold handle_create. good_tac. Qed.

Lemma Good_upload P cwd dir pre req : Good (handle_upload_to P cwd dir pre req).
Proof. unfold handle_upload_to. good_tac. Qed.

Lemma Good_delete cwd dir pre what req : Good (handle_delete_from cwd dir pre what req).
Proof.
  unfold handle_delete_from. good_tac.
Qed.

Lemma Good_convert P req : Good (handle_convert_heic P req).
Proof. unfold handle_convert_heic. good_tac. Qed.

Lemma Good_list P cwd dir pre : Good (handle_list P cwd dir pre).
Proof. unfold handle_list. good_tac. Qed.

Lemma Good_config_get path : Good (handle_config_get path).
Proof.
  unfold handle_config_get. apply Good_try_catch.
  intros d. destruct (fs.existsSync d path); [|good_send_tac].
  revert d. good_tac.
Qed.

Lemma Good_config_post path req : Good (handle_config_post path req).
Proof. unfold handle_config_post. good_tac. Qed.

Lemma Good_route P cwd u req : Good (route P cwd u req).
Proof.
  unfold route, route_after_gallery, route_after_memes, unknown_endpoint.
  repeat first
    [ apply Good_if
    | apply Good_bind; intros ?
    | apply Good_save | apply Good_create | apply Good_upload | apply Good_delete
    | apply Good_convert | apply Good_list | apply Good_config_get
    | apply Good_config_post
    | apply Good_ret; good_send_tac ].
Qed.

(** The claim's list of error codes fails on a create request whose target
    exists: the answer is 409. *)
Lemma create_conflict_is_409 :
  status_of (middleware plain_platform "/site"
               (create_request (JStr "blog") (JStr "Hello, World!") [] JNull) site_disk)
  = Some 409
  /\ existsb (Z.eqb 409) [400; 403; 404; 500] = false.
Proof. split; vm_compute; reflexivity. Qed.

(** C6, amended. Every response of the middleware has status 200 (success),
    400, 403, 404, 409 or 500, and a 500 has the body
    [{ error: String(err) }] of a caught exception. *)
Theorem error_statuses_uniform (P : Platform) (cwd : string) (req : request) (d : disk) :
  match middleware P cwd req d with
  | Some (r, _) =>
      In (statusCode r) [200; 400; 403; 404; 409; 500]
      /\ (statusCode r = 500 -> exists err, r = send 500 (error_payload err))
  | None => True
  end.
Proof.
  unfold middleware. destruct (request_path req) as [u|]; [|exact I].
  destruct (startsWith u "/__dev-editor/"); [|exact I].
  pose proof (Good_route P cwd u req d) as H.
  destruct (route P cwd u req d) as [[r|err] d']; [exact H | apply good_send_500].
Qed.

(** ** Unknown endpoints *)

Definition blocked_disk : disk :=
  list_to_map [("/site", Dir); ("/site/src", Dir); ("/site/src/data", File "not a directory")].

Definition put_gallery : request :=
  {| url := Some "/__dev-editor/gallery"; method := "PUT"; json_body := None |}.

(** A known path with an unsupported method is answered 500, not 404, when
    the data directory cannot be created: the block of the gallery config
    creates it before it looks at the method. *)
Lemma put_gallery_is_500 :
  defined_endpoint "/__dev-editor/gallery" (method put_gallery) = false
  /\ status_of (middleware plain_platform "/site" put_gallery blocked_disk) = Some 500.
Proof. split; vm_compute; reflexivity. Qed.

Lemma undefined_endpoint_route u meth e :
  defined_endpoint u meth = false -> In e endpoints ->
  String.eqb u (fst e) && String.eqb meth (snd e) = false.
Proof.
  unfold defined_endpoint. intros H Hin.
  destruct (String.eqb u (fst e) && String.eqb meth (snd e)) eqn:E; [|reflexivity].
  rewrite <- H. symmetry. apply existsb_exists. exists e. auto.
Qed.

Ltac endpoint_off H p m :=
  let E := fresh "E" in
  pose proof (undefined_endpoint_route _ _ (p, m) H ltac:(simpl; tauto)) as E;
  cbn [fst snd] in E.

(** C7, amended. A request under /__dev-editor/ that matches no endpoint and
    method is answered 404 with the body [{ error: 'Unknown endpoint' }] and
    the disk untouched; on the paths of the two config files the data
    directory is created first, and the answer is 500 when that fails. *)
Theorem unknown_endpoint_404 (P : Platform) (cwd : string) (req : request) (d : disk)
    (u : string) :
  request_path req = Some u ->
  startsWith u "/__dev-editor/" = true ->
  defined_endpoint u (method req) = false ->
  middleware P cwd req d
  = (if String.eqb u "/__dev-editor/gallery" || String.eqb u "/__dev-editor/memes" then
       match fs.mkdir_recursive (dataDir cwd) d with
       | (Ok _, d') => Some (send 404 (error_payload "Unknown endpoint"), d')
       | (Throw err, d') => Some (send 500 (error_payload err), d')
       end
     else Some (send 404 (error_payload "Unknown endpoint"), d))
  /\ body (send 404 (error_payload "Unknown endpoint"))
     = "{" +:+ dquote +:+ "error" +:+ dquote +:+ ":" +:+ dquote +:+ "Unknown endpoint"
       +:+ dquote +:+ "}".
Proof.
  intros Hu Hpre Hdef. split; [|reflexivity].
  unfold middleware. rewrite Hu, Hpre.
  endpoint_off Hdef "/__dev-editor/save" "POST".
  endpoint_off Hdef "/__dev-editor/create" "POST".
  endpoint_off Hdef "/__dev-editor/upload" "POST".
  endpoint_off Hdef "/__dev-editor/delete" "DELETE".
  endpoint_off Hdef "/__dev-editor/convert-heic" "POST".
  endpoint_off Hdef "/__dev-editor/list-images" "GET".
  endpoint_off Hdef "/__dev-editor/gallery" "GET".
  endpoint_off Hdef "/__dev-editor/gallery" "POST".
  endpoint_off Hdef "/__dev-editor/memes" "GET".
  endpoint_off Hdef "/__dev-editor/memes" "POST".
  endpoint_off Hdef "/__dev-editor/upload-meme" "POST".
  endpoint_off Hdef "/__dev-editor/delete-meme" "DELETE".
  endpoint_off Hdef "/__dev-editor/list-memes" "GET".
  unfold route, route_after_gallery, route_after_memes, unknown_endpoint.
  rewrite E, E0, E1, E2, E3, E4, E9, E10, E11.
  destruct (String.eqb_spec u "/__dev-editor/gallery") as [->|Hg].
  - cbn [orb]. simpl in E5, E6. rewrite E5, E6.
    unfold bind. destruct (fs.mkdir_recursive (dataDir cwd) d) as [[[]|err] d']; reflexivity.
  - destruct (String.eqb_spec u "/__dev-editor/memes") as [->|Hm].
    + cbn [orb]. simpl in E7, E8. rewrite E7, E8.
      unfold bind. destruct (fs.mkdir_recursive (dataDir cwd) d) as [[[]|err] d']; reflexivity.
    + reflexivity.
Qed.

Lemma unknown_endpoint_404_witness :
  middleware plain_platform "/site"
    {| url := Some "/__dev-editor/nothing?x=1"; method := "GET"; json_body := None |}
    site_disk
  = Some (send 404 (error_payload "Unknown endpoint"), site_disk).
Proof.
  apply (proj1 (unknown_endpoint_404 plain_platform "/site"
                  {| url := Some "/__dev-editor/nothing?x=1"; method := "GET";
                     json_body := None |}
                  site_disk "/__dev-editor/nothing"
                  ltac:(reflexivity) ltac:(reflexivity) ltac:(reflexivity))).
Defined.

(** ** The save handler *)

(** C1, on the code. The check of the save handler is a test on the text of
    the path: a path that resolves to an entry of [src/content-drafts] passes
    it, and the file is written outside the content directory. *)
Theorem save_writes_outside_content_dir :
  inside_directory (contentDir "/site") "/site/src/content-drafts/x.md" = false
  /\ middleware plain_platform "/site"
       (save_request (JStr "src/content-drafts/x.md") (JStr "hello")) drafts_disk
     = Some (send 200 (JObj [("success", JBool true)]),
             <["/site/src/content-drafts/x.md" := File "hello"]> drafts_disk).
Proof. split; vm_compute; reflexivity. Qed.

(** What the check does give: a path whose text does not start with the text
    of the content directory is answered 403, and nothing is written. *)
Lemma save_rejects_other_prefixes cwd req d parsed filePath :
  json_body req = Some parsed ->
  get_property parsed "filePath" = Some (JStr filePath) ->
  startsWith (path.resolve cwd [cwd; filePath]) (contentDir cwd) = false ->
  handle_save cwd req d = (Ok (send 403 (error_payload "Can only edit content files")), d).
Proof.
  intros Hbody Hpath Hpre.
  unfold handle_save, try_catch, bind, readJsonBody, lift_option.
  rewrite Hbody. unfold ret at 1.
  assert (Hd : destructure parsed d = (Ok parsed, d)).
  { destruct parsed; try reflexivity. discriminate Hpath. }
  rewrite Hd, Hpath. cbn [string_argument ret]. rewrite Hpre. reflexivity.
Qed.

Example save_rejects_traversal :
  middleware plain_platform "/site"
    (save_request (JStr "src/content/../../public/secret.txt") (JStr "x")) drafts_disk
  = Some (send 403 (error_payload "Can only edit content files"), drafts_disk).
Proof. vm_compute. reflexivity. Qed.

(** ** Paths: splitting, joining and resolving *)

Lemma app_cons c s t : String c s +:+ t = String c (s +:+ t).
Proof. reflexivity. Qed.

Lemma app_empty_r s : s +:+ "" = s.
Proof. induction s as [|c s IH]; [reflexivity|]. rewrite app_cons, IH. reflexivity. Qed.

Lemma app_assoc_string a b c : (a +:+ b) +:+ c = a +:+ (b +:+ c).
Proof. induction a as [|x a IH]; [reflexivity|]. rewrite !app_cons, IH. reflexivity. Qed.

Lemma length_app_string a b :
  String.length (a +:+ b) = (String.length a + String.length b)%nat.
Proof. induction a as [|x a IH]; [reflexivity|]. rewrite app_cons. simpl. rewrite IH. reflexivity. Qed.

Lemma prefix_app_string a b : String.prefix a (a +:+ b) = true.
Proof.
  induction a as [|x a IH]; [destruct b; reflexivity|].
  rewrite app_cons. simpl. destruct (ascii_dec x x); [exact IH | contradiction].
Qed.

Lemma prefix_refl_string a : String.prefix a a = true.
Proof. rewrite <- (app_empty_r a) at 2. apply prefix_app_string. Qed.

Lemma prefix_length_string a b :
  String.prefix a b = true -> (String.length a <= String.length b)%nat.
Proof.
  revert b. induction a as [|x a IH]; intros b H; [simpl; lia|].
  destruct b as [|y b]; [discriminate H|]. simpl in H.
  destruct (ascii_dec x y); [|discriminate H]. simpl. apply IH in H. lia.
Qed.

Definition slash_free (s : string) : bool := negb (any_char is_slash s).

Lemma split_on_not_nil c s : split_on c s <> [].
Proof.
  destruct s as [|x s]; simpl; [discriminate|].
  destruct (Ascii.eqb x c); [discriminate|].
  destruct (split_on c s); discriminate.
Qed.

Lemma split_on_app c a b :
  split_on c (a +:+ String c b) = split_on c a ++ split_on c b.
Proof.
  induction a as [|x a IH].
  - simpl. rewrite Ascii.eqb_refl. reflexivity.
  - rewrite app_cons. simpl. destruct (Ascii.eqb x c); [rewrite IH; reflexivity|].
    rewrite IH. pose proof (split_on_not_nil c a) as Hn.
    destruct (split_on c a) as [|h t]; [contradiction|]. reflexivity.
Qed.

Lemma split_on_free s : slash_free s = true -> split_on "/" s = [s].
Proof.
  unfold slash_free. induction s as [|x s IH]; [reflexivity|].
  simpl. intros H. apply negb_true_iff, orb_false_iff in H as [Hx Hs].
  unfold is_slash in Hx. rewrite Hx, IH; [reflexivity|]. rewrite Hs. reflexivity.
Qed.

Lemma split_on_segments_free s : forallb slash_free (split_on "/" s) = true.
Proof.
  induction s as [|x s IH]; [reflexivity|].
  simpl. destruct (Ascii.eqb x "/") eqn:Hx; [exact IH|].
  pose proof (split_on_not_nil "/" s) as Hn.
  destruct (split_on "/" s) as [|h t]; [contradiction|].
  simpl in *. apply andb_true_iff in IH as [Hh Ht]. rewrite Ht, andb_true_r.
  unfold slash_free in *. simpl. unfold is_slash at 1. rewrite Hx. exact Hh.
Qed.

Lemma join_cons2 sep x y rest :
  join sep (x :: y :: rest) = x +:+ sep +:+ join sep (y :: rest).
Proof. reflexivity. Qed.

Lemma join_snoc sep parts x :
  parts <> [] -> join sep (parts ++ [x]) = join sep parts +:+ sep +:+ x.
Proof.
  induction parts as [|y parts IH]; [contradiction|]. intros _.
  destruct parts as [|z parts]; [reflexivity|].
  change ((y :: z :: parts) ++ [x]) with (y :: ((z :: parts) ++ [x])).
  change ((z :: parts) ++ [x]) with (z :: (parts ++ [x])) at 1.
  rewrite join_cons2.
  change (z :: (parts ++ [x])) with ((z :: parts) ++ [x]).
  rewrite IH by discriminate. rewrite join_cons2.
  rewrite !app_assoc_string. reflexivity.
Qed.

Lemma split_join parts :
  parts <> [] -> forallb slash_free parts = true ->
  split_on "/" (join "/" parts) = parts.
Proof.
  induction parts as [|x parts IH]; [contradiction|]. intros _ H.
  simpl in H. apply andb_true_iff in H as [Hx Hs].
  destruct parts as [|y parts]; [apply split_on_free; exact Hx|].
  rewrite join_cons2.
  change (x +:+ "/" +:+ join "/" (y :: parts))
    with (x +:+ String "/" (join "/" (y :: parts))).
  rewrite split_on_app, (split_on_free x Hx), IH; [reflexivity | discriminate | exact Hs].
Qed.

(** A segment as [normalizeString] leaves it. *)
Definition normal_segment (seg : string) : bool :=
  negb (String.eqb seg "") && negb (String.eqb seg ".") && negb (String.eqb seg "..")
  && slash_free seg.

Lemma normalize_app allow acc segs1 segs2 :
  path.normalize_segments allow acc (segs1 ++ segs2)
  = path.normalize_segments allow (rev (path.normalize_segments allow acc segs1)) segs2.
Proof.
  revert acc. induction segs1 as [|seg segs1 IH]; intros acc.
  - simpl. rewrite rev_involutive. reflexivity.
  - simpl.
    destruct (String.eqb seg "" || String.eqb seg "."); [apply IH|].
    destruct (String.eqb seg ".."); [|apply IH].
    destruct acc as [|top acc']; [apply IH|].
    destruct (String.eqb top ".."); apply IH.
Qed.

Lemma normal_segment_step seg :
  normal_segment seg = true ->
  String.eqb seg "" || String.eqb seg "." = false /\ String.eqb seg ".." = false.
Proof.
  unfold normal_segment. intros H.
  apply andb_true_iff in H as [H _]. apply andb_true_iff in H as [H H3].
  apply andb_true_iff in H as [H1 H2]. apply negb_true_iff in H1, H2, H3.
  rewrite H1, H2, H3. auto.
Qed.

Lemma normalize_normal acc segs :
  forallb normal_segment segs = true ->
  path.normalize_segments false acc segs = rev acc ++ segs.
Proof.
  revert acc. induction segs as [|seg segs IH]; intros acc H.
  - simpl. rewrite app_nil_r. reflexivity.
  - simpl in H. apply andb_true_iff in H as [Hseg Hs].
    destruct (normal_segment_step seg Hseg) as [E1 E2].
    simpl. rewrite E1, E2, IH by exact Hs. simpl. rewrite <- app_assoc. reflexivity.
Qed.

Lemma forallb_rev_list {A} (f : A -> bool) l : forallb f (rev l) = forallb f l.
Proof.
  induction l as [|x l IH]; [reflexivity|].
  simpl. rewrite forallb_app, IH. simpl. rewrite andb_true_r. apply andb_comm.
Qed.

Lemma normalize_is_normal acc segs :
  forallb normal_segment acc = true ->
  forallb slash_free segs = true ->
  forallb normal_segment (path.normalize_segments false acc segs) = true.
Proof.
  revert acc. induction segs as [|seg segs IH]; intros acc Hacc H.
  - simpl. rewrite forallb_rev_list. exact Hacc.
  - simpl in H. apply andb_true_iff in H as [Hseg Hs]. simpl.
    destruct (String.eqb seg "" || String.eqb seg ".") eqn:E1; [apply IH; assumption|].
    destruct (String.eqb seg "..") eqn:E2.
    + destruct acc as [|top acc']; [apply IH; assumption|].
      simpl in Hacc. apply andb_true_iff in Hacc as [Htop Hacc'].
      destruct (String.eqb top "..") eqn:E3; apply IH; try assumption.
      simpl. rewrite Htop, Hacc'. reflexivity.
    + apply IH; [|assumption]. simpl. rewrite Hacc, andb_true_r.
      unfold normal_segment. apply orb_false_iff in E1 as [E0 E1].
      rewrite E0, E1, E2, Hseg. reflexivity.
Qed.

Lemma normal_slash_free segs :
  forallb normal_segment segs = true -> forallb slash_free segs = true.
Proof.
  induction segs as [|seg segs IH]; [reflexivity|]. simpl. intros H.
  apply andb_true_iff in H as [Hseg Hs]. rewrite (IH Hs), andb_true_r.
  unfold normal_segment in Hseg. apply andb_true_iff in Hseg as [_ H]. exact H.
Qed.

Lemma of_segments_split segs :
  segs <> [] -> forallb normal_segment segs = true ->
  split_on "/" (fs.of_segments segs) = "" :: segs.
Proof.
  intros Hn H. unfold fs.of_segments.
  change ("/" +:+ join "/" segs) with (String "/" (join "/" segs)).
  simpl. rewrite split_join; [reflexivity | exact Hn | apply normal_slash_free; exact H].
Qed.

Lemma rev_tail_rev {A} (l : list A) (x : A) (rest : list A) :
  rev l = x :: rest -> rev rest = removelast l /\ l = rev rest ++ [x].
Proof.
  intros H. assert (E : l = rev rest ++ [x]).
  { rewrite <- (rev_involutive l), H. reflexivity. }
  split; [|exact E]. rewrite E. rewrite removelast_last. reflexivity.
Qed.

(** Resolving one name that holds no slash against a normalized absolute
    directory: the directory itself, its parent, or an entry of it. *)
Lemma resolve_child pcwd segs name :
  segs <> [] -> forallb normal_segment segs = true -> slash_free name = true ->
  path.resolve pcwd [fs.of_segments segs; name]
  = if String.eqb name "" || String.eqb name "." then fs.of_segments segs
    else if String.eqb name ".." then fs.of_segments (removelast segs)
    else fs.of_segments segs +:+ "/" +:+ name.
Proof.
  intros Hn Hsegs Hname. unfold path.resolve.
  change (rev (pcwd :: [fs.of_segments segs; name]))
    with [name; fs.of_segments segs; pcwd].
  assert (Hsplit : forall rest,
             path.normalize_segments false []
               (split_on "/" (fs.of_segments segs +:+ String "/" rest))
             = path.normalize_segments false (rev segs) (split_on "/" rest)).
  { intros rest. rewrite split_on_app, (of_segments_split _ Hn Hsegs).
    change (("" :: segs) ++ split_on "/" rest) with ("" :: (segs ++ split_on "/" rest)).
    change (path.normalize_segments false [] ("" :: (segs ++ split_on "/" rest)))
      with (path.normalize_segments false [] (segs ++ split_on "/" rest)).
    rewrite normalize_app, (normalize_normal [] segs Hsegs). reflexivity. }
  destruct (String.eqb_spec name "") as [->|Hne].
  - cbn [path.resolve_scan String.eqb orb].
    change (String.eqb (fs.of_segments segs) "") with false.
    change (head_sat is_slash (fs.of_segments segs)) with true.
    cbn iota. cbn [negb].
    change (fs.of_segments segs +:+ "/" +:+ "") with (fs.of_segments segs +:+ String "/" "").
    rewrite Hsplit. simpl. rewrite rev_involutive. reflexivity.
  - assert (Hhead : head_sat is_slash name = false).
    { destruct name as [|c name]; [reflexivity|]. unfold slash_free in Hname.
      simpl in *. apply negb_true_iff, orb_false_iff in Hname as [Hc _]. exact Hc. }
    cbn [path.resolve_scan].
    destruct (String.eqb_spec name ""); [contradiction|]. rewrite Hhead.
    change (String.eqb (fs.of_segments segs) "") with false.
    change (head_sat is_slash (fs.of_segments segs)) with true.
    cbn iota. cbn [negb orb].
    change (fs.of_segments segs +:+ "/" +:+ name +:+ "/" +:+ "")
      with (fs.of_segments segs +:+ String "/" (name +:+ String "/" "")).
    rewrite Hsplit, split_on_app, (split_on_free name Hname).
    change ([name] ++ split_on "/" "") with [name; ""].
    cbn [path.normalize_segments].
    destruct (String.eqb_spec name ""); [contradiction|]. cbn [orb].
    destruct (String.eqb_spec name ".") as [->|Hdot].
    + cbn [String.eqb orb]. rewrite rev_involutive. reflexivity.
    + destruct (String.eqb_spec name "..") as [->|Hdd].
      * destruct (rev segs) as [|top acc'] eqn:Hrev.
        { apply (f_equal (@rev string)) in Hrev. rewrite rev_involutive in Hrev.
          contradiction. }
        destruct (rev_tail_rev _ _ _ Hrev) as [Hrest Hsegs'].
        assert (Htop : String.eqb top ".." = false).
        { rewrite Hsegs', forallb_app in Hsegs. apply andb_true_iff in Hsegs as [_ Ht].
          simpl in Ht. rewrite andb_true_r in Ht.
          apply normal_segment_step in Ht as [_ Ht]. exact Ht. }
        rewrite Htop. cbn [String.eqb orb path.normalize_segments].
        rewrite Hrest. reflexivity.
      * cbn [String.eqb orb path.normalize_segments rev].
        rewrite rev_involutive. unfold fs.of_segments.
        rewrite join_snoc by exact Hn. rewrite !app_assoc_string. reflexivity.
Qed.

(** Resolving a relative path of normal segments against an absolute working
    directory appends its segments to those of the directory. *)
Lemma resolve_under_cwd cwd rel :
  head_sat is_slash cwd = true ->
  String.eqb rel "" = false -> head_sat is_slash rel = false ->
  forallb normal_segment (split_on "/" rel) = true ->
  exists base,
    forallb normal_segment base = true
    /\ path.resolve cwd [cwd; rel] = fs.of_segments (base ++ split_on "/" rel).
Proof.
  intros Hcwd Hrel Hhead Hnormal.
  exists (path.normalize_segments false [] (split_on "/" cwd)).
  split; [apply normalize_is_normal; [reflexivity | apply split_on_segments_free]|].
  unfold path.resolve.
  change (rev (cwd :: [cwd; rel])) with [rel; cwd; cwd].
  cbn [path.resolve_scan]. rewrite Hrel, Hhead.
  assert (Hne : String.eqb cwd "" = false) by (destruct cwd; [discriminate Hcwd | reflexivity]).
  rewrite Hne, Hcwd. cbn iota. cbn [negb].
  change (cwd +:+ "/" +:+ rel +:+ "/" +:+ "")
    with (cwd +:+ String "/" (rel +:+ String "/" "")).
  rewrite !split_on_app, normalize_app.
  set (base := path.normalize_segments false [] (split_on "/" cwd)).
  rewrite normalize_app, (normalize_normal _ _ Hnormal), rev_involutive.
  simpl. rewrite rev_involutive. reflexivity.
Qed.

Lemma basename_slash_free p : slash_free (path.basename p) = true.
Proof.
  unfold path.basename.
  assert (H : forallb slash_free
                (List.filter (fun seg => negb (String.eqb seg "")) (split_on "/" p)) = true).
  { pose proof (split_on_segments_free p) as H.
    induction (split_on "/" p) as [|seg segs IH]; [reflexivity|].
    simpl in *. apply andb_true_iff in H as [H1 H2].
    destruct (negb (String.eqb seg "")); simpl; rewrite ?H1; auto. }
  induction (List.filter _ _) as [|seg segs IH]; [reflexivity|].
  simpl in H. apply andb_true_iff in H as [H1 H2].
  destruct segs as [|seg' segs]; [exact H1 | exact (IH H2)].
Qed.

Lemma parent_not_prefixed segs :
  segs <> [] -> forallb normal_segment segs = true ->
  startsWith (fs.of_segments (removelast segs)) (fs.of_segments segs) = false.
Proof.
  intros Hn Hsegs. unfold startsWith.
  destruct (String.prefix _ _) eqn:E; [|reflexivity].
  apply prefix_length_string in E. exfalso.
  destruct (exists_last Hn) as [front [x ->]].
  rewrite removelast_last in E. unfold fs.of_segments in E.
  rewrite forallb_app in Hsegs. apply andb_true_iff in Hsegs as [_ Hx].
  simpl in Hx. rewrite andb_true_r in Hx.
  assert (Hlen : (1 <= String.length x)%nat).
  { destruct x; [discriminate Hx | simpl; lia]. }
  destruct front as [|y front].
  - rewrite !length_app_string in E.
    change (join "/" ([] ++ [x])) with x in E. change (join "/" []) with "" in E.
    simpl in E. lia.
  - rewrite join_snoc in E by discriminate.
    rewrite !length_app_string in E. simpl in E. lia.
Qed.

(** ** The delete handlers *)

Lemma delete_rejects_other_prefixes cwd dir publicPrefix what req d parsed imagePath :
  json_body req = Some parsed ->
  get_property parsed "path" = Some (JStr imagePath) ->
  startsWith imagePath publicPrefix = false ->
  handle_delete_from cwd dir publicPrefix what req d
  = (Ok (send 403 (error_payload ("Can only delete " +:+ what +:+ " images"))), d).
Proof.
  intros Hbody Hpath Hpre.
  unfold handle_delete_from, try_catch, bind, readJsonBody, lift_option.
  rewrite Hbody. unfold ret at 1.
  assert (Hd : destructure parsed d = (Ok parsed, d)).
  { destruct parsed; try reflexivity. discriminate Hpath. }
  rewrite Hd, Hpath. cbn [as_string ret]. rewrite Hpre. reflexivity.
Qed.

(** Whatever the request, a delete handler on a normalized directory leaves
    the disk as it was or removes one regular file that is an entry of that
    directory. *)
Lemma delete_stays_in_directory cwd segs publicPrefix what req d :
  segs <> [] -> forallb normal_segment segs = true ->
  fs.is_file d (fs.of_segments segs) = false ->
  match handle_delete_from cwd (fs.of_segments segs) publicPrefix what req d with
  | (_, d') =>
      d' = d
      \/ exists name,
           slash_free name = true /\ name <> ""
           /\ fs.is_file d (fs.of_segments segs +:+ "/" +:+ name) = true
           /\ d' = delete (fs.of_segments segs +:+ "/" +:+ name) d
  end.
Proof.
  intros Hn Hsegs Hfile.
  unfold handle_delete_from, try_catch, bind, readJsonBody, lift_option.
  destruct (json_body req) as [parsed|]; [|left; reflexivity].
  unfold ret at 1.
  destruct (destructure parsed d) as [[parsed'|err] d0] eqn:Hd.
  2:{ left. destruct parsed; simpl in Hd; inversion Hd; reflexivity. }
  assert (d0 = d) as -> by (destruct parsed; simpl in Hd; inversion Hd; reflexivity).
  destruct (get_property parsed' "path") as [[| | |imagePath| |]|]; try (left; reflexivity).
  cbn [as_string ret].
  destruct (negb (startsWith imagePath publicPrefix)); [left; reflexivity|].
  rewrite (resolve_child cwd segs _ Hn Hsegs (basename_slash_free imagePath)).
  set (name := path.basename imagePath).
  assert (Hname : slash_free name = true) by apply basename_slash_free.
  clearbody name.
  destruct (String.eqb_spec name "") as [->|Hne]; cbn [orb].
  { unfold startsWith at 1. rewrite prefix_refl_string. cbn [negb].
    destruct (negb (fs.existsSync d (fs.of_segments segs))); [left; reflexivity|].
    unfold fs.unlink, fs.is_file in *.
    destruct (d !! fs.of_segments segs) as [[content|]|];
      [discriminate Hfile | left; reflexivity |].
    destruct (String.eqb (fs.of_segments segs) "/"); left; reflexivity. }
  destruct (String.eqb_spec name ".") as [->|Hdot].
  { unfold startsWith at 1. rewrite prefix_refl_string. cbn [negb].
    destruct (negb (fs.existsSync d (fs.of_segments segs))); [left; reflexivity|].
    unfold fs.unlink, fs.is_file in *.
    destruct (d !! fs.of_segments segs) as [[content|]|];
      [discriminate Hfile | left; reflexivity |].
    destruct (String.eqb (fs.of_segments segs) "/"); left; reflexivity. }
  destruct (String.eqb_spec name "..") as [->|Hdd].
  { rewrite (parent_not_prefixed segs Hn Hsegs). left. reflexivity. }
  unfold startsWith at 1. rewrite prefix_app_string. cbn [negb].
  destruct (negb (fs.existsSync d _)); [left; reflexivity|].
  unfold fs.unlink.
  destruct (d !! (fs.of_segments segs +:+ "/" +:+ name)) as [[content|]|] eqn:Hlook.
  - right. exists name. unfold fs.is_file. rewrite Hlook. auto.
  - left. reflexivity.
  - destruct (String.eqb _ "/"); left; reflexivity.
Qed.

Lemma galleryDir_normal cwd :
  head_sat is_slash cwd = true ->
  exists segs,
    segs <> [] /\ forallb normal_segment segs = true
    /\ galleryDir cwd = fs.of_segments segs.
Proof.
  intros Hcwd.
  destruct (resolve_under_cwd cwd "public/gallery" Hcwd) as [base [Hbase E]];
    try reflexivity.
  exists (base ++ split_on "/" "public/gallery"). split; [|split].
  - intros Hnil. apply app_eq_nil in Hnil as [_ Hnil]. discriminate Hnil.
  - rewrite forallb_app, Hbase. reflexivity.
  - exact E.
Qed.



Example delete_traversal_stays_out :
  middleware plain_platform "/site"
    (delete_request (JStr "/gallery/../secret.txt")) drafts_disk
  = Some (send 404 (error_payload "File not found"), drafts_disk).
Proof. vm_compute. reflexivity. Qed.

Example delete_dotdot_rejected :
  middleware plain_platform "/site" (delete_request (JStr "/gallery/..")) drafts_disk
  = Some (send 403 (error_payload "Invalid path"), drafts_disk).
Proof. vm_compute. reflexivity. Qed.

Example delete_removes_entry :
  middleware plain_platform "/site" (delete_request (JStr "/gallery/cat.jpg")) drafts_disk
  = Some (send 200 (JObj [("success", JBool true)]),
          delete "/site/public/gallery/cat.jpg" drafts_disk).
Proof. vm_compute. reflexivity. Qed.

(** ** Reading the written front matter back *)

Definition nl_free (s : string) : bool := negb (any_char (Ascii.eqb nl_char) s).

Lemma split_on_free_char c s :
  any_char (Ascii.eqb c) s = false -> split_on c s = [s].
Proof.
  induction s as [|x s IH]; [reflexivity|].
  cbn [any_char split_on]. intros H. apply orb_false_iff in H as [Hx Hs].
  rewrite Ascii.eqb_sym, Hx, IH by exact Hs. reflexivity.
Qed.

Lemma any_char_app p a b : any_char p (a +:+ b) = any_char p a || any_char p b.
Proof.
  induction a as [|x a IH]; [reflexivity|].
  rewrite app_cons. simpl. rewrite IH, orb_assoc. reflexivity.
Qed.

Lemma all_chars_app p a b : all_chars p (a +:+ b) = all_chars p a && all_chars p b.
Proof.
  induction a as [|x a IH]; [reflexivity|].
  rewrite app_cons. simpl. rewrite IH, andb_assoc. reflexivity.
Qed.

Lemma nl_free_app a b : nl_free (a +:+ b) = nl_free a && nl_free b.
Proof. unfold nl_free. rewrite any_char_app, negb_orb. reflexivity. Qed.

Lemma all_chars_nl_free p s :
  p nl_char = false -> all_chars p s = true -> nl_free s = true.
Proof.
  intros Hp. unfold nl_free. induction s as [|x s IH]; [reflexivity|].
  cbn [all_chars any_char]. intros H. apply andb_true_iff in H as [Hx Hs].
  rewrite negb_orb, (IH Hs), andb_true_r.
  destruct (Ascii.eqb_spec nl_char x) as [<-|]; [congruence | reflexivity].
Qed.

Lemma nl_app s : nl +:+ s = String nl_char s.
Proof. reflexivity. Qed.

Lemma split_lines_join lines :
  lines <> [] -> forallb nl_free lines = true ->
  split_on nl_char (join nl lines) = lines.
Proof.
  induction lines as [|x lines IH]; [contradiction|]. intros _ H.
  simpl in H. apply andb_true_iff in H as [Hx Hs].
  assert (Hfree : split_on nl_char x = [x]).
  { apply split_on_free_char. unfold nl_free in Hx. apply negb_true_iff in Hx. exact Hx. }
  destruct lines as [|y lines]; [exact Hfree|].
  rewrite join_cons2, nl_app, split_on_app, Hfree, IH; [reflexivity | discriminate | exact Hs].
Qed.

(** The lines of a text made of blocks of lines. *)
Lemma split_lines_blocks (blocks : list (list string)) :
  blocks <> [] ->
  Forall (fun lines => lines <> [] /\ forallb nl_free lines = true) blocks ->
  split_on nl_char (join nl (map (join nl) blocks)) = concat blocks.
Proof.
  induction blocks as [|b blocks IH]; [contradiction|]. intros _ H.
  inversion H as [|? ? [Hb1 Hb2] Hrest]; subst.
  destruct blocks as [|b' blocks].
  - simpl. rewrite app_nil_r. apply split_lines_join; assumption.
  - change (map (join nl) (b :: b' :: blocks))
      with (join nl b :: map (join nl) (b' :: blocks)).
    change (map (join nl) (b' :: blocks))
      with (join nl b' :: map (join nl) blocks).
    rewrite join_cons2.
    change (join nl b' :: map (join nl) blocks) with (map (join nl) (b' :: blocks)).
    rewrite nl_app, split_on_app, IH by (discriminate || assumption).
    rewrite split_lines_join by assumption. reflexivity.
Qed.

(** *** The lines of an entry *)

Definition scalar_text (v : json) : string :=
  match v with
  | JStr s => yaml_string s
  | _ => js_String v
  end.

Definition entry_lines (entry : string * json) : list string :=
  match snd entry with
  | JArr items => (fst entry +:+ ":") :: map (fun v => "  - " +:+ js_String v) items
  | v => [fst entry +:+ ": " +:+ scalar_text v]
  end.

Lemma head_letter_not_digit s : head_sat is_letter s = true -> head_sat is_digit s = false.
Proof.
  destruct s as [|c s]; [discriminate|]. simpl.
  destruct c as [[] [] [] [] [] [] [] []]; vm_compute; congruence.
Qed.

Lemma plain_text_not_date s : plain_text s = true -> is_date_string s = false.
Proof.
  unfold plain_text. intros H.
  apply andb_true_iff in H as [H _]. apply andb_true_iff in H as [H _].
  apply andb_true_iff in H as [H _]. apply head_letter_not_digit in H.
  destruct s as [|c s]; [reflexivity|]. simpl in H.
  unfold is_date_string. cbn [String.list_ascii_of_string].
  repeat (match goal with
          | |- match ?l with _ => _ end = false => destruct l; try reflexivity
          | |- match String.list_ascii_of_string ?s with _ => _ end = false =>
              destruct s; cbn [String.list_ascii_of_string]; try reflexivity
          end).
  cbn [forallb]. rewrite H. reflexivity.
Qed.

Lemma date_string_chars s :
  is_date_string s = true -> all_chars (fun c => is_digit c || is_hyphen c) s = true.
Proof.
  unfold is_date_string.
  do 11 (destruct s as [|? s]; cbn [String.list_ascii_of_string]; try discriminate).
  cbn [forallb all_chars]. intros H.
  repeat match goal with
         | E : andb _ _ = true |- _ => apply andb_true_iff in E as [? ?]
         end.
  repeat match goal with E : _ = true |- _ => rewrite E; clear E end.
  rewrite ?orb_true_r. reflexivity.
Qed.

Lemma special_not_date c : is_special c = true -> is_digit c || is_hyphen c = false.
Proof. destruct c as [[] [] [] [] [] [] [] []]; vm_compute; congruence. Qed.

Lemma quotable_text_not_date s : quotable_text s = true -> is_date_string s = false.
Proof.
  unfold quotable_text. intros H. apply andb_true_iff in H as [H _].
  destruct (is_date_string s) eqn:E; [|reflexivity].
  apply date_string_chars in E. exfalso.
  induction s as [|c s IH]; [discriminate H|].
  simpl in *. apply andb_true_iff in E as [Ec Es].
  apply orb_true_iff in H as [H|H]; [|auto].
  apply special_not_date in H. congruence.
Qed.

Lemma any_char_ext p q s : (forall c, p c = q c) -> any_char p s = any_char q s.
Proof.
  intros H. induction s as [|c s IH]; [reflexivity|].
  cbn [any_char]. rewrite H, IH. reflexivity.
Qed.

Lemma any_char_or p q s :
  any_char (fun c => p c || q c) s = any_char p s || any_char q s.
Proof.
  induction s as [|c s IH]; [reflexivity|].
  cbn [any_char]. rewrite IH.
  destruct (p c), (q c), (any_char p s), (any_char q s); reflexivity.
Qed.

Lemma includes_special s :
  includes_char ":" s || includes_char "#" s
  || includes_char (ascii_of_nat 34) s || includes_char "'" s
  = any_char is_special s.
Proof.
  unfold includes_char.
  rewrite (any_char_ext is_special
             (fun c => (fun c => (fun c => Ascii.eqb ":" c || Ascii.eqb "#" c) c
                                 || Ascii.eqb (ascii_of_nat 34) c) c
                       || Ascii.eqb "'" c)).
  - rewrite !any_char_or. reflexivity.
  - intros c. unfold is_special, is_dquote.
    rewrite (Ascii.eqb_sym c ":"), (Ascii.eqb_sym c "#"), (Ascii.eqb_sym c "'"),
      (Ascii.eqb_sym c (ascii_of_nat 34)). reflexivity.
Qed.

Lemma text_char_not_special c : text_char c = true -> is_special c = false.
Proof. destruct c as [[] [] [] [] [] [] [] []]; vm_compute; congruence. Qed.

Lemma plain_text_chars s : plain_text s = true -> all_chars text_char s = true.
Proof.
  unfold plain_text. intros H.
  apply andb_true_iff in H as [H _]. apply andb_true_iff in H as [H _].
  apply andb_true_iff in H as [_ H]. exact H.
Qed.

Lemma plain_text_unquoted s : plain_text s = true -> yaml_string s = s.
Proof.
  intros H. apply plain_text_chars in H. unfold yaml_string.
  rewrite includes_special.
  assert (E : any_char is_special s = false).
  { induction s as [|c s IH]; [reflexivity|]. simpl in *.
    apply andb_true_iff in H as [Hc Hs].
    rewrite (text_char_not_special _ Hc), (IH Hs). reflexivity. }
  rewrite E. reflexivity.
Qed.

Lemma quotable_text_quoted s :
  quotable_text s = true ->
  yaml_string s = dquote +:+ replace_each is_dquote (backslash +:+ dquote) s +:+ dquote.
Proof.
  unfold quotable_text, yaml_string. intros H. apply andb_true_iff in H as [H _].
  rewrite includes_special, H. reflexivity.
Qed.

(** What [yaml_entry] writes for a plain entry: nothing for the empty array,
    and the lines of the entry otherwise. *)
Lemma yaml_entry_lines key value :
  plain_value value = true ->
  yaml_entry (key, value)
  = if is_empty_array value then None else Some (join nl (entry_lines (key, value))).
Proof.
  intros H. destruct value as [|b|n|s|items|entries]; try reflexivity.
  - cbn [yaml_entry is_empty_array entry_lines snd fst scalar_text join String.concat].
    simpl in H. apply orb_true_iff in H as [H|H].
    + rewrite (plain_text_not_date _ H). reflexivity.
    + rewrite (quotable_text_not_date _ H). reflexivity.
  - destruct items as [|x items]; [reflexivity|].
    cbn [yaml_entry is_empty_array entry_lines snd fst].
    change (map (fun v => "  - " +:+ js_String v) (x :: items))
      with (("  - " +:+ js_String x) :: map (fun v => "  - " +:+ js_String v) items).
    rewrite join_cons2, !app_assoc_string. reflexivity.
Qed.

Lemma plain_key_head key : plain_key key = true -> exists c rest, key = String c rest /\ is_letter c = true.
Proof.
  unfold plain_key. intros H. apply andb_true_iff in H as [H _].
  destruct key as [|c rest]; [discriminate H|]. eauto.
Qed.

Lemma entry_lines_text key value :
  plain_key key = true -> join nl (entry_lines (key, value)) <> "".
Proof.
  intros Hk. destruct (plain_key_head key Hk) as [c [rest [-> _]]].
  unfold entry_lines. cbn [fst snd].
  destruct value as [| | | |items|]; try (cbn; discriminate).
  destruct items; cbn; discriminate.
Qed.

Lemma drop_empty_cons key value data :
  drop_empty_arrays ((key, value) :: data)
  = if is_empty_array value then drop_empty_arrays data
    else (key, value) :: drop_empty_arrays data.
Proof. destruct value as [| | | |[|x items]|]; reflexivity. Qed.

Lemma frontmatterToYaml_blocks data :
  forallb (fun e => plain_key (fst e) && plain_value (snd e)) data = true ->
  frontmatterToYaml data
  = join nl (map (fun e => join nl (entry_lines e)) (drop_empty_arrays data)).
Proof.
  intros H. unfold frontmatterToYaml. f_equal.
  induction data as [|[key value] data IH]; [reflexivity|].
  simpl in H. apply andb_true_iff in H as [Hkv Hd]. apply andb_true_iff in Hkv as [Hk Hv].
  cbn [map List.filter]. rewrite (yaml_entry_lines key value Hv), drop_empty_cons.
  destruct (is_empty_array value); cbn [kept].
  - exact (IH Hd).
  - destruct (String.eqb_spec (join nl (entry_lines (key, value))) "") as [E|_];
      [exfalso; exact (entry_lines_text _ _ Hk E)|].
    cbn [negb map]. rewrite <- (IH Hd). reflexivity.
Qed.

(** *** Scalars read back *)

Lemma read_int_decimal n : read_int (decimal n) = Some n.
Proof.
  unfold read_int, decimal. rewrite NilZero.isi.
  - simpl. rewrite DecimalZ.of_to. reflexivity.
  - destruct n as [|p|p]; simpl; try discriminate.
    intros E. injection E as E. apply (f_equal Pos.of_uint) in E.
    rewrite DecimalPos.Unsigned.of_to in E. discriminate E.
  - destruct n as [|p|p]; simpl; try discriminate.
    intros E. injection E as E. apply (f_equal Pos.of_uint) in E.
    rewrite DecimalPos.Unsigned.of_to in E. discriminate E.
Qed.

Lemma read_int_not_number c s :
  is_digit c = false -> is_hyphen c = false -> read_int (String c s) = None.
Proof.
  intros Hd Hh. unfold read_int, NilZero.int_of_string.
  unfold is_hyphen in Hh. rewrite Hh.
  unfold NilZero.uint_of_string. cbn [NilEmpty.uint_of_string].
  destruct (NilEmpty.uint_of_string s) as [d|]; [|reflexivity].
  destruct c as [[] [] [] [] [] [] [] []]; try reflexivity; vm_compute in Hd; discriminate Hd.
Qed.

Lemma letter_not_number c : is_letter c = true -> is_digit c = false /\ is_hyphen c = false.
Proof. destruct c as [[] [] [] [] [] [] [] []]; vm_compute; intuition congruence. Qed.

Lemma letter_not_dquote c : is_letter c = true -> is_dquote c = false.
Proof. destruct c as [[] [] [] [] [] [] [] []]; vm_compute; congruence. Qed.

Lemma read_scalar_plain_text s : plain_text s = true -> read_scalar s = Some (JStr s).
Proof.
  unfold plain_text. intros H.
  apply andb_true_iff in H as [H Hres]. apply andb_true_iff in H as [H _].
  apply andb_true_iff in H as [Hhead _].
  destruct s as [|c s]; [discriminate Hhead|]. simpl in Hhead.
  destruct (letter_not_number c Hhead) as [Hd Hh].
  unfold read_scalar. rewrite (read_int_not_number c s Hd Hh).
  apply negb_true_iff in Hres.
  assert (Hw : forall w, In w reserved_words -> String.eqb (String c s) w = false).
  { intros w Hin. destruct (String.eqb_spec (String c s) w) as [E|]; [|reflexivity].
    rewrite <- Hres. symmetry. apply existsb_exists. exists w. split; [exact Hin|].
    rewrite E. apply String.eqb_eq.
    simpl in Hin. repeat (destruct Hin as [<-|Hin]; [reflexivity|]). contradiction. }
  rewrite (Hw "true"), (Hw "false"), (Hw "null") by (simpl; tauto).
  rewrite (letter_not_dquote c Hhead). reflexivity.
Qed.

Lemma unescape_escaped s :
  all_chars (fun c => char_between 32 126 c && negb (is_backslash c)) s = true ->
  unescape_quoted (replace_each is_dquote (backslash +:+ dquote) s +:+ dquote) = Some s.
Proof.
  induction s as [|c s IH]; [reflexivity|].
  simpl. intros H. apply andb_true_iff in H as [Hc Hs].
  apply andb_true_iff in Hc as [_ Hb]. apply negb_true_iff in Hb.
  destruct (is_dquote c) eqn:Hq.
  - change ((backslash +:+ dquote) +:+ replace_each is_dquote (backslash +:+ dquote) s)
      with (String (ascii_of_nat 92) (String (ascii_of_nat 34)
              (replace_each is_dquote (backslash +:+ dquote) s))).
    rewrite !app_cons. cbn [unescape_quoted].
    change (is_dquote (ascii_of_nat 92)) with false.
    change (is_backslash (ascii_of_nat 92)) with true.
    change (is_dquote (ascii_of_nat 34)) with true.
    cbn iota. rewrite (IH Hs). simpl.
    unfold is_dquote in Hq. apply Ascii.eqb_eq in Hq. subst c. reflexivity.
  - rewrite app_cons. cbn [unescape_quoted]. rewrite Hq, Hb, (IH Hs). reflexivity.
Qed.

Lemma read_scalar_quoted s :
  quotable_text s = true -> read_scalar (yaml_string s) = Some (JStr s).
Proof.
  intros H. rewrite (quotable_text_quoted s H).
  unfold quotable_text in H. apply andb_true_iff in H as [_ H].
  change (dquote +:+ replace_each is_dquote (backslash +:+ dquote) s +:+ dquote)
    with (String (ascii_of_nat 34)
            (replace_each is_dquote (backslash +:+ dquote) s +:+ dquote)).
  unfold read_scalar. rewrite read_int_not_number by reflexivity.
  cbn [String.eqb]. change (Ascii.eqb (ascii_of_nat 34) "t") with false.
  change (Ascii.eqb (ascii_of_nat 34) "f") with false.
  change (Ascii.eqb (ascii_of_nat 34) "n") with false.
  cbn iota. change (is_dquote (ascii_of_nat 34)) with true. cbn iota.
  rewrite (unescape_escaped s H). reflexivity.
Qed.

Lemma read_scalar_item v : plain_item v = true -> read_scalar (js_String v) = Some v.
Proof.
  destruct v as [|[]|n|s|items|entries]; try discriminate; try reflexivity.
  - intros _. unfold read_scalar. cbn [js_String]. rewrite read_int_decimal. reflexivity.
  - intros H. apply read_scalar_plain_text. exact H.
Qed.

Lemma read_scalar_value v :
  plain_value v = true -> (forall items, v <> JArr items) ->
  read_scalar (scalar_text v) = Some v.
Proof.
  destruct v as [|[]|n|s|items|entries]; try discriminate; try reflexivity.
  - intros _ _. unfold read_scalar. cbn [scalar_text js_String].
    rewrite read_int_decimal. reflexivity.
  - cbn [plain_value scalar_text]. intros H _. apply orb_true_iff in H as [H|H].
    + rewrite (plain_text_unquoted s H). apply read_scalar_plain_text. exact H.
    + apply read_scalar_quoted. exact H.
  - intros _ H. exfalso. apply (H items). reflexivity.
Qed.

(** *** Lines read back *)

Lemma key_char_not_colon c : key_char c = true -> Ascii.eqb c ":" = false.
Proof. destruct c as [[] [] [] [] [] [] [] []]; vm_compute; congruence. Qed.

Lemma letter_not_space c : is_letter c = true -> Ascii.eqb " " c = false.
Proof. destruct c as [[] [] [] [] [] [] [] []]; vm_compute; congruence. Qed.

Lemma split_key_line key rest :
  all_chars key_char key = true ->
  split_key (key +:+ ":" +:+ rest) = Some (key, rest).
Proof.
  induction key as [|c key IH]; [reflexivity|].
  simpl. intros H. apply andb_true_iff in H as [Hc Hk].
  rewrite (key_char_not_colon c Hc), (IH Hk). reflexivity.
Qed.

Lemma read_key_line acc key rest :
  plain_key key = true ->
  read_line (Some acc) (key +:+ ":" +:+ rest)
  = match rest with
    | EmptyString => Some ((key, JArr []) :: acc)
    | String c text =>
        if Ascii.eqb c " " then option_map (fun v => (key, v) :: acc) (read_scalar text)
        else None
    end.
Proof.
  intros Hk. destruct (plain_key_head key Hk) as [c [k [E Hc]]].
  unfold plain_key in Hk. apply andb_true_iff in Hk as [_ Hk].
  unfold read_line. rewrite (split_key_line key rest Hk).
  rewrite E, app_cons. cbn [String.eqb strip_prefix].
  rewrite (letter_not_space c Hc). reflexivity.
Qed.

Lemma read_item_line key items others text :
  read_line (Some ((key, JArr items) :: others)) ("  - " +:+ text)
  = match read_scalar text with
    | Some v => Some ((key, JArr (items ++ [v])) :: others)
    | None => None
    end.
Proof. reflexivity. Qed.

Lemma read_item_lines key others items done :
  forallb plain_item items = true ->
  fold_left read_line (map (fun v => "  - " +:+ js_String v) items)
    (Some ((key, JArr done) :: others))
  = Some ((key, JArr (done ++ items)) :: others).
Proof.
  revert done. induction items as [|v items IH]; intros done H.
  - simpl. rewrite app_nil_r. reflexivity.
  - simpl in H. apply andb_true_iff in H as [Hv Hs].
    cbn [map fold_left]. rewrite read_item_line, (read_scalar_item v Hv), (IH _ Hs).
    rewrite <- app_assoc. reflexivity.
Qed.

Lemma read_entry_lines acc key value :
  plain_key key = true -> plain_value value = true ->
  fold_left read_line (entry_lines (key, value)) (Some acc) = Some ((key, value) :: acc).
Proof.
  intros Hk Hv. unfold entry_lines. cbn [fst snd].
  destruct value as [|b|n|s|items|entries];
    try (cbn [fold_left];
         change (key +:+ ": " +:+ ?t) with (key +:+ ":" +:+ String " " t);
         rewrite (read_key_line acc key _ Hk); cbn [Ascii.eqb Bool.eqb];
         rewrite read_scalar_value by (exact Hv || discriminate); reflexivity).
  - cbn [fold_left].
    rewrite <- (app_empty_r (key +:+ ":")), app_assoc_string.
    rewrite (read_key_line acc key "" Hk).
    rewrite (read_item_lines key acc items [] Hv). reflexivity.
Qed.

Lemma read_blocks acc data :
  forallb (fun e => plain_key (fst e) && plain_value (snd e)) data = true ->
  fold_left read_line (concat (map entry_lines data)) (Some acc) = Some (rev data ++ acc).
Proof.
  revert acc. induction data as [|[key value] data IH]; intros acc H; [reflexivity|].
  simpl in H. apply andb_true_iff in H as [Hkv Hd]. apply andb_true_iff in Hkv as [Hk Hv].
  cbn [map concat]. rewrite fold_left_app, (read_entry_lines acc key value Hk Hv).
  rewrite (IH _ Hd). simpl. rewrite <- app_assoc. reflexivity.
Qed.

Lemma drop_empty_plain data :
  forallb (fun e => plain_key (fst e) && plain_value (snd e)) data = true ->
  forallb (fun e => plain_key (fst e) && plain_value (snd e)) (drop_empty_arrays data) = true.
Proof.
  induction data as [|e data IH]; [reflexivity|]. simpl. intros H.
  apply andb_true_iff in H as [He Hd]. unfold drop_empty_arrays. cbn [List.filter].
  destruct (negb _); [simpl; rewrite He|]; apply IH; exact Hd.
Qed.

Lemma drop_empty_closed data :
  map close_entry (drop_empty_arrays data) = drop_empty_arrays data.
Proof.
  induction data as [|[key value] data IH]; [reflexivity|].
  unfold drop_empty_arrays. cbn [List.filter snd].
  destruct value as [| | | |[|x items]|]; cbn [negb map close_entry];
    fold (drop_empty_arrays data); rewrite ?IH; reflexivity.
Qed.

Lemma key_nl_free key : plain_key key = true -> nl_free key = true.
Proof.
  unfold plain_key. intros H. apply andb_true_iff in H as [_ H].
  apply (all_chars_nl_free key_char); [reflexivity | exact H].
Qed.

Lemma decimal_chars n : all_chars (fun c => is_digit c || is_hyphen c) (decimal n) = true.
Proof.
  assert (U : forall d, all_chars (fun c => is_digit c || is_hyphen c)
                          (NilEmpty.string_of_uint d) = true).
  { induction d; simpl; auto. }
  unfold decimal. destruct (Z.to_int n) as [d|d]; simpl.
  - unfold NilZero.string_of_uint. destruct d; try reflexivity; apply U.
  - unfold NilZero.string_of_uint. destruct d; try reflexivity; apply U.
Qed.

Lemma item_nl_free v : plain_item v = true -> nl_free (js_String v) = true.
Proof.
  destruct v as [|[]|n|s|items|entries]; try discriminate; try reflexivity.
  - intros _. apply (all_chars_nl_free _ _ eq_refl (decimal_chars n)).
  - intros H. apply (all_chars_nl_free text_char); [reflexivity|].
    apply plain_text_chars. exact H.
Qed.

Lemma replace_each_nl_free p s :
  nl_free s = true -> nl_free (replace_each p (backslash +:+ dquote) s) = true.
Proof.
  unfold nl_free. induction s as [|c s IH]; [reflexivity|].
  simpl. rewrite !negb_orb. intros H. apply andb_true_iff in H as [Hc Hs].
  destruct (p c).
  - rewrite any_char_app, negb_orb, (IH Hs). reflexivity.
  - simpl. rewrite negb_orb, Hc, (IH Hs). reflexivity.
Qed.

Lemma scalar_nl_free v :
  plain_value v = true -> (forall items, v <> JArr items) -> nl_free (scalar_text v) = true.
Proof.
  destruct v as [|[]|n|s|items|entries]; try discriminate; try reflexivity.
  - intros _ _. apply (all_chars_nl_free _ _ eq_refl (decimal_chars n)).
  - cbn [plain_value scalar_text]. intros H _. apply orb_true_iff in H as [H|H].
    + rewrite (plain_text_unquoted s H).
      apply (all_chars_nl_free text_char); [reflexivity|]. apply plain_text_chars. exact H.
    + rewrite (quotable_text_quoted s H). rewrite !nl_free_app.
      unfold quotable_text in H. apply andb_true_iff in H as [_ H].
      rewrite replace_each_nl_free; [reflexivity|].
      apply (all_chars_nl_free _ _ eq_refl H).
  - intros _ H. exfalso. apply (H items). reflexivity.
Qed.

Lemma entry_lines_nl_free key value :
  plain_key key = true -> plain_value value = true ->
  entry_lines (key, value) <> [] /\ forallb nl_free (entry_lines (key, value)) = true.
Proof.
  intros Hk Hv. pose proof (key_nl_free key Hk) as Hkey.
  unfold entry_lines. cbn [fst snd].
  destruct value as [|b|n|s|items|entries];
    try (split; [discriminate|]; cbn [forallb]; rewrite !nl_free_app, Hkey;
         rewrite scalar_nl_free by (exact Hv || discriminate); reflexivity).
  - split; [discriminate|]. cbn [forallb]. rewrite nl_free_app, Hkey.
    change (nl_free ":") with true. cbn [andb].
    simpl in Hv. clear Hk Hkey. induction items as [|v items IH]; [reflexivity|].
    simpl in Hv. apply andb_true_iff in Hv as [H1 H2].
    cbn [map forallb]. rewrite nl_free_app, (item_nl_free v H1), (IH H2). reflexivity.
Qed.

(** *** The file that a create request writes *)

Lemma yaml_lines data :
  forallb (fun e => plain_key (fst e) && plain_value (snd e)) data = true ->
  split_on nl_char (frontmatterToYaml data)
  = match drop_empty_arrays data with
    | [] => [""]
    | _ => concat (map entry_lines (drop_empty_arrays data))
    end.
Proof.
  intros H. rewrite (frontmatterToYaml_blocks data H).
  pose proof (drop_empty_plain data H) as Hp.
  destruct (drop_empty_arrays data) as [|e rest] eqn:E; [reflexivity|].
  rewrite <- map_map. apply split_lines_blocks; [discriminate|].
  apply List.Forall_forall. intros lines Hin. apply List.in_map_iff in Hin as [[key value] [<- Hin]].
  rewrite forallb_forall in Hp. specialize (Hp _ Hin). cbn [fst snd] in Hp.
  apply andb_true_iff in Hp as [Hk Hv]. apply entry_lines_nl_free; assumption.
Qed.

Lemma read_yaml data :
  forallb (fun e => plain_key (fst e) && plain_value (snd e)) data = true ->
  read_lines (split_on nl_char (frontmatterToYaml data)) = Some (drop_empty_arrays data).
Proof.
  intros H. rewrite (yaml_lines data H).
  pose proof (drop_empty_plain data H) as Hp.
  pose proof (drop_empty_closed data) as Hc.
  destruct (drop_empty_arrays data) as [|e rest] eqn:E; [reflexivity|].
  unfold read_lines. rewrite (read_blocks [] _ Hp). cbn [option_map].
  rewrite app_nil_r, map_rev, Hc, rev_involutive. reflexivity.
Qed.

Definition not_delimiter (line : string) : bool := negb (String.eqb line "---").

Lemma letter_not_hyphen c : is_letter c = true -> Ascii.eqb c "-" = false.
Proof. destruct c as [[] [] [] [] [] [] [] []]; vm_compute; congruence. Qed.

Lemma entry_lines_not_delimiter key value :
  plain_key key = true -> forallb not_delimiter (entry_lines (key, value)) = true.
Proof.
  intros Hk. destruct (plain_key_head key Hk) as [c [k [-> Hc]]].
  assert (Hline : forall rest, not_delimiter (String c k +:+ rest) = true).
  { intros rest. unfold not_delimiter. rewrite app_cons. cbn [String.eqb].
    rewrite (letter_not_hyphen c Hc). reflexivity. }
  unfold entry_lines. cbn [fst snd].
  destruct value as [| | | |items|]; cbn [forallb]; rewrite ?Hline; try reflexivity.
  induction items as [|v items IH]; [reflexivity|]. cbn [map forallb]. exact IH.
Qed.

Lemma yaml_lines_not_delimiter data :
  forallb (fun e => plain_key (fst e) && plain_value (snd e)) data = true ->
  forallb not_delimiter (split_on nl_char (frontmatterToYaml data)) = true.
Proof.
  intros H. rewrite (yaml_lines data H).
  pose proof (drop_empty_plain data H) as Hp.
  destruct (drop_empty_arrays data) as [|e rest]; [reflexivity|].
  induction (e :: rest) as [|[key value] entries IH]; [reflexivity|].
  simpl in Hp. apply andb_true_iff in Hp as [Hkv Hp]. apply andb_true_iff in Hkv as [Hk _].
  cbn [map concat]. rewrite forallb_app, (entry_lines_not_delimiter key value Hk).
  exact (IH Hp).
Qed.

Lemma take_until_delimiter_app lines rest :
  forallb not_delimiter lines = true ->
  take_until_delimiter (lines ++ "---" :: rest) = Some lines.
Proof.
  induction lines as [|line lines IH]; [reflexivity|].
  cbn [forallb]. intros H. apply andb_true_iff in H as [Hl Hs].
  unfold not_delimiter in Hl. apply negb_true_iff in Hl.
  cbn [app take_until_delimiter]. rewrite Hl, (IH Hs). reflexivity.
Qed.

Lemma written_front_matter yaml text :
  forallb not_delimiter (split_on nl_char yaml) = true ->
  front_matter_lines ("---" +:+ nl +:+ yaml +:+ nl +:+ "---" +:+ nl +:+ nl +:+ text)
  = Some (split_on nl_char yaml).
Proof.
  intros H. unfold front_matter_lines.
  rewrite !nl_app.
  change ("---" +:+ String nl_char (yaml +:+ String nl_char ("---" +:+ String nl_char (String nl_char text))))
    with ("---" +:+ String nl_char (yaml +:+ String nl_char ("---" +:+ String nl_char (String nl_char text)))).
  rewrite (split_on_app nl_char "---"), (split_on_app nl_char yaml),
    (split_on_app nl_char "---").
  change (split_on nl_char "---") with ["---"].
  cbn [app String.eqb Ascii.eqb Bool.eqb]. cbn iota.
  apply take_until_delimiter_app. exact H.
Qed.

Lemma read_front_matter_of content lines :
  front_matter_lines content = Some lines -> read_front_matter content = read_lines lines.
Proof. intros H. unfold read_front_matter. rewrite H. reflexivity. Qed.




(** ** [JSON.parse] after [JSON.stringify] *)

Lemma json_induction (P : json -> Prop) :
  P JNull -> (forall b, P (JBool b)) -> (forall n, P (JNum n)) -> (forall s, P (JStr s)) ->
  (forall items, List.Forall P items -> P (JArr items)) ->
  (forall entries, List.Forall (fun e => P (snd e)) entries -> P (JObj entries)) ->
  forall v, P v.
Proof.
  intros Hnull Hbool Hnum Hstr Harr Hobj. fix IH 1. intros v.
  destruct v as [|b|n|s|items|entries];
    [exact Hnull | apply Hbool | apply Hnum | apply Hstr | | ].
  - apply Harr. induction items as [|x items IHitems]; constructor; [apply IH | exact IHitems].
  - apply Hobj. induction entries as [|[k x] entries IHentries]; constructor;
      [apply IH | exact IHentries].
Qed.

(** Objects whose keys are distinct, at every depth: the values that
    [JSON.parse] builds. *)
Fixpoint unique_keys (v : json) : bool :=
  match v with
  | JArr items => forallb unique_keys items
  | JObj entries =>
      distinct_keys entries && forallb (fun e => unique_keys (snd e)) entries
  | _ => true
  end.

(** Fuel that is enough to parse the text of a value. *)
Fixpoint cost (v : json) : nat :=
  match v with
  | JArr items => S (list_sum (map (fun x => S (cost x)) items))
  | JObj entries => S (list_sum (map (fun e => S (cost (snd e))) entries))
  | _ => 1%nat
  end.

Lemma parse_quote_char c tail :
  JSON.parse_string_body (JSON.quote_char c +:+ tail)
  = JSON.prepend c (JSON.parse_string_body tail).
Proof. destruct c as [[] [] [] [] [] [] [] []]; reflexivity. Qed.

Lemma parse_quote_chars s rest :
  JSON.parse_string_body (JSON.quote_chars s +:+ dquote +:+ rest) = Some (s, rest).
Proof.
  induction s as [|c s IH]; [reflexivity|].
  cbn [JSON.quote_chars]. rewrite app_assoc_string, parse_quote_char, IH. reflexivity.
Qed.

Lemma span_app p a rest :
  all_chars p a = true -> head_sat p rest = false -> JSON.span p (a +:+ rest) = (a, rest).
Proof.
  intros Ha Hrest. induction a as [|c a IH].
  - destruct rest as [|c rest]; [reflexivity|]. simpl in *. rewrite Hrest. reflexivity.
  - cbn [all_chars] in Ha. apply andb_true_iff in Ha as [Hc Ha].
    rewrite app_cons. cbn [JSON.span]. rewrite Hc, (IH Ha). reflexivity.
Qed.

Lemma continues_number_head rest :
  head_sat JSON.continues_number rest = false -> head_sat JSON.num_char rest = false.
Proof.
  destruct rest as [|c rest]; [reflexivity|]. simpl. unfold JSON.continues_number.
  destruct (JSON.num_char c); [discriminate | reflexivity].
Qed.

Lemma parse_number_decimal n rest :
  head_sat JSON.continues_number rest = false ->
  JSON.parse_number (decimal n +:+ rest) = Some (JNum n, rest).
Proof.
  intros H. unfold JSON.parse_number.
  rewrite (span_app JSON.num_char (decimal n) rest (decimal_chars n)
             (continues_number_head rest H)).
  rewrite H, read_int_decimal, String.eqb_refl. reflexivity.
Qed.

Lemma decimal_head n :
  exists c rest, decimal n = String c rest /\ JSON.num_char c = true.
Proof.
  pose proof (decimal_chars n) as H.
  destruct (decimal n) as [|c rest] eqn:E.
  - exfalso. pose proof (read_int_decimal n) as R. rewrite E in R. discriminate R.
  - cbn [all_chars] in H. apply andb_true_iff in H as [Hc _]. eauto.
Qed.

Lemma num_char_dispatch c :
  JSON.num_char c = true ->
  Ascii.eqb c "[" = false /\ Ascii.eqb c "{" = false /\ (nat_of_ascii c =? 34)%nat = false.
Proof. destruct c as [[] [] [] [] [] [] [] []]; vm_compute; intuition congruence. Qed.

(** The first character of the text of a value: no white space, and no
    closing bracket or brace. *)
Definition opens_value (c : ascii) : bool :=
  negb (JSON.is_ws c) && negb (Ascii.eqb c "]") && negb (Ascii.eqb c "}").

Lemma num_char_opens c : JSON.num_char c = true -> opens_value c = true.
Proof. destruct c as [[] [] [] [] [] [] [] []]; vm_compute; congruence. Qed.

Lemma serialize_head gap ind v :
  exists c t, JSON.serialize gap ind v = String c t /\ opens_value c = true.
Proof.
  destruct v as [|[]|n|s|items|entries]; cbn [JSON.serialize]; try (eexists _, _; split; reflexivity).
  - destruct (decimal_head n) as [c [t [E Hc]]]. rewrite E.
    exists c, t. split; [reflexivity | apply num_char_opens; exact Hc].
  - destruct items; [eexists _, _; split; reflexivity|].
    destruct (String.eqb gap ""); eexists _, _; split; reflexivity.
  - destruct entries; [eexists _, _; split; reflexivity|].
    destruct (String.eqb gap ""); eexists _, _; split; reflexivity.
Qed.

Lemma skip_ws_spaces ind s : all_chars JSON.is_ws ind = true -> JSON.skip_ws (ind +:+ s) = JSON.skip_ws s.
Proof.
  induction ind as [|c ind IH]; [reflexivity|].
  cbn [all_chars]. intros H. apply andb_true_iff in H as [Hc Hi].
  rewrite app_cons. cbn [JSON.skip_ws]. rewrite Hc. exact (IH Hi).
Qed.

Lemma skip_ws_opens c t : opens_value c = true -> JSON.skip_ws (String c t) = String c t.
Proof.
  unfold opens_value. intros H.
  apply andb_true_iff in H as [H _]. apply andb_true_iff in H as [H _].
  apply negb_true_iff in H. cbn [JSON.skip_ws]. rewrite H. reflexivity.
Qed.

Lemma skip_ws_nl s : JSON.skip_ws (nl +:+ s) = JSON.skip_ws s.
Proof. reflexivity. Qed.

(** What the main induction gives for a value: its text parses back at any
    indentation, with any fuel from its cost on, before any text that does
    not continue a number. *)
Definition parses_back (v : json) : Prop :=
  forall fuel ind rest,
    (cost v <= fuel)%nat ->
    all_chars JSON.is_ws ind = true ->
    head_sat JSON.continues_number rest = false ->
    JSON.parse_value fuel (JSON.serialize "  " ind v +:+ rest) = Some (v, rest).

Lemma skip_to_value ind gap v rest :
  all_chars JSON.is_ws ind = true ->
  JSON.skip_ws (ind +:+ JSON.serialize gap ind v +:+ rest)
  = JSON.serialize gap ind v +:+ rest.
Proof.
  intros Hind. rewrite (skip_ws_spaces ind _ Hind).
  destruct (serialize_head gap ind v) as [c [t [E Hc]]].
  rewrite E, app_cons. apply skip_ws_opens. exact Hc.
Qed.

Lemma skip_to_closer ind (closer : ascii) rest :
  all_chars JSON.is_ws ind = true -> JSON.is_ws closer = false ->
  JSON.skip_ws (nl +:+ ind +:+ String closer rest) = String closer rest.
Proof.
  intros Hind Hc. rewrite skip_ws_nl, (skip_ws_spaces ind _ Hind).
  cbn [JSON.skip_ws]. rewrite Hc. reflexivity.
Qed.

Lemma list_sum_cons_nat (a : nat) l : list_sum (a :: l) = (a + list_sum l)%nat.
Proof. reflexivity. Qed.

Lemma parse_elements_comma fuel s v tail :
  JSON.parse_value fuel s = Some (v, String "," tail) ->
  JSON.parse_elements (S fuel) s
  = match JSON.parse_elements fuel (JSON.skip_ws tail) with
    | Some (items, after) => Some (v :: items, after)
    | None => None
    end.
Proof. intros H. cbn [JSON.parse_elements]. rewrite H. reflexivity. Qed.

Lemma parse_elements_close fuel s v tail rest :
  JSON.parse_value fuel s = Some (v, tail) ->
  JSON.skip_ws tail = String "]" rest ->
  JSON.parse_elements (S fuel) s = Some ([v], rest).
Proof. intros H Hs. cbn [JSON.parse_elements]. rewrite H, Hs. reflexivity. Qed.

Lemma join_map_cons {A} sep (f : A -> string) x y rest :
  join sep (map f (x :: y :: rest)) = f x +:+ sep +:+ join sep (map f (y :: rest)).
Proof. reflexivity. Qed.

Lemma parse_elements_serialized ind ind' rest items :
  items <> [] ->
  List.Forall parses_back items ->
  all_chars JSON.is_ws ind = true -> all_chars JSON.is_ws ind' = true ->
  forall fuel,
    (list_sum (map (fun x => S (cost x)) items) <= fuel)%nat ->
    JSON.parse_elements fuel
      (join ("," +:+ nl +:+ ind') (map (JSON.serialize "  " ind') items)
       +:+ nl +:+ ind +:+ String "]" rest)
    = Some (items, rest).
Proof.
  intros Hne Hall Hind Hind'.
  induction items as [|x items IH]; [contradiction|].
  inversion Hall as [|? ? Hx Hrest]; subst. intros fuel Hfuel.
  cbn [map] in Hfuel. rewrite list_sum_cons_nat in Hfuel.
  destruct fuel as [|fuel]; [lia|].
  destruct items as [|y items].
  - apply (parse_elements_close fuel _ x (nl +:+ ind +:+ String "]" rest)).
    + apply Hx; [lia | exact Hind' | reflexivity].
    + apply skip_to_closer; [exact Hind | reflexivity].
  - rewrite join_map_cons, !app_assoc_string.
    set (tail := join ("," +:+ nl +:+ ind') (map (JSON.serialize "  " ind') (y :: items))
                 +:+ nl +:+ ind +:+ String "]" rest) in *.
    rewrite (parse_elements_comma fuel _ x (nl +:+ ind' +:+ tail)).
    + rewrite skip_ws_nl, (skip_ws_spaces ind' _ Hind').
      assert (Hskip : JSON.skip_ws tail = tail).
      { subst tail. destruct items as [|z items].
        - cbn [map join String.concat].
          destruct (serialize_head "  " ind' y) as [c [t [E Hc]]].
          rewrite E, app_cons. apply skip_ws_opens. exact Hc.
        - rewrite join_map_cons, !app_assoc_string.
          destruct (serialize_head "  " ind' y) as [c [t [E Hc]]].
          rewrite E, app_cons. apply skip_ws_opens. exact Hc. }
      rewrite Hskip. subst tail.
      rewrite (IH ltac:(discriminate) Hrest fuel ltac:(lia)). reflexivity.
    + apply (Hx fuel ind' (String "," (nl +:+ ind' +:+ tail)));
        [lia | exact Hind' | reflexivity].
Qed.

Definition member_text (ind : string) (e : string * json) : string :=
  JSON.quote (fst e) +:+ ": " +:+ JSON.serialize "  " ind (snd e).

Lemma member_text_head ind e tail :
  exists t, member_text ind e +:+ tail = String (ascii_of_nat 34) t.
Proof. eexists. unfold member_text, JSON.quote. rewrite !app_assoc_string. reflexivity. Qed.

Lemma parse_member fuel ind key v tail :
  all_chars JSON.is_ws ind = true ->
  JSON.parse_members (S fuel) (member_text ind (key, v) +:+ tail)
  = match JSON.parse_value fuel (JSON.serialize "  " ind v +:+ tail) with
    | Some (v', after_value) =>
        match JSON.skip_ws after_value with
        | String c rest =>
            if Ascii.eqb c "," then
              match JSON.parse_members fuel (JSON.skip_ws rest) with
              | Some (members, after) => Some ((key, v') :: members, after)
              | None => None
              end
            else if Ascii.eqb c "}" then Some ([(key, v')], rest)
            else None
        | EmptyString => None
        end
    | None => None
    end.
Proof.
  intros Hind. unfold member_text, JSON.quote. cbn [fst snd].
  rewrite !app_assoc_string.
  change (dquote +:+ ?X) with (String (ascii_of_nat 34) X).
  cbn [JSON.parse_members]. change (nat_of_ascii (ascii_of_nat 34) =? 34)%nat with true.
  cbn iota. rewrite parse_quote_chars.
  change (": " +:+ ?X) with (String ":" (String " " X)).
  cbn [JSON.skip_ws]. change (JSON.is_ws ":") with false. cbn iota.
  change (Ascii.eqb ":" ":") with true. cbn iota.
  assert (E : JSON.skip_ws (String " " (JSON.serialize "  " ind v +:+ tail))
              = JSON.serialize "  " ind v +:+ tail).
  { change (JSON.skip_ws (String " " ?X)) with (JSON.skip_ws X).
    destruct (serialize_head "  " ind v) as [c [t [E Hc]]].
    rewrite E, app_cons. apply skip_ws_opens. exact Hc. }
  rewrite E. reflexivity.
Qed.

Lemma parse_members_serialized ind ind' rest entries :
  entries <> [] ->
  List.Forall (fun e => parses_back (snd e)) entries ->
  all_chars JSON.is_ws ind = true -> all_chars JSON.is_ws ind' = true ->
  forall fuel,
    (list_sum (map (fun e => S (cost (snd e))) entries) <= fuel)%nat ->
    JSON.parse_members fuel
      (join ("," +:+ nl +:+ ind') (map (member_text ind') entries)
       +:+ nl +:+ ind +:+ String "}" rest)
    = Some (entries, rest).
Proof.
  intros Hne Hall Hind Hind'.
  induction entries as [|[key x] entries IH]; [contradiction|].
  inversion Hall as [|? ? Hx Hrest]; subst. cbn [snd] in Hx. intros fuel Hfuel.
  cbn [map snd] in Hfuel. rewrite list_sum_cons_nat in Hfuel.
  destruct fuel as [|fuel]; [lia|].
  destruct entries as [|e entries].
  - cbn [map join String.concat].
    rewrite (parse_member fuel ind' key x _ Hind').
    rewrite (Hx fuel ind' (nl +:+ ind +:+ String "}" rest) ltac:(lia) Hind' eq_refl).
    rewrite (skip_to_closer ind "}" rest Hind eq_refl). reflexivity.
  - rewrite join_map_cons, !app_assoc_string.
    set (tail := join ("," +:+ nl +:+ ind') (map (member_text ind') (e :: entries))
                 +:+ nl +:+ ind +:+ String "}" rest) in *.
    rewrite (parse_member fuel ind' key x _ Hind').
    change ("," +:+ nl +:+ ind' +:+ tail) with (String "," (nl +:+ ind' +:+ tail)).
    rewrite (Hx fuel ind' (String "," (nl +:+ ind' +:+ tail)) ltac:(lia) Hind' eq_refl).
    cbn [JSON.skip_ws]. change (JSON.is_ws ",") with false. cbn iota.
    change (Ascii.eqb "," ",") with true. cbn iota.
    rewrite skip_ws_nl, (skip_ws_spaces ind' _ Hind').
    assert (Hskip : JSON.skip_ws tail = tail).
    { subst tail. destruct entries as [|e' entries].
      - cbn [map join String.concat].
        destruct (member_text_head ind' e (nl +:+ ind +:+ String "}" rest)) as [t E].
        rewrite E. reflexivity.
      - rewrite join_map_cons, !app_assoc_string.
        destruct (member_text_head ind' e
                    ("," +:+ nl +:+ ind' +:+
                     join ("," +:+ nl +:+ ind') (map (member_text ind') (e' :: entries))
                     +:+ nl +:+ ind +:+ String "}" rest)) as [t E].
        rewrite E. reflexivity. }
    rewrite Hskip. subst tail.
    rewrite (IH ltac:(discriminate) Hrest fuel ltac:(lia)). reflexivity.
Qed.

Lemma set_property_fresh key v entries :
  existsb (fun e => String.eqb key (fst e)) entries = false ->
  JSON.set_property key v entries = entries ++ [(key, v)].
Proof.
  induction entries as [|[k old] entries IH]; [reflexivity|].
  cbn [existsb fst]. intros H. apply orb_false_iff in H as [Hk Hs].
  cbn [JSON.set_property]. rewrite String.eqb_sym, Hk, (IH Hs). reflexivity.
Qed.

Lemma distinct_keys_fresh done key v members :
  distinct_keys (done ++ (key, v) :: members) = true ->
  existsb (fun e => String.eqb key (fst e)) done = false.
Proof.
  induction done as [|[k old] done IH]; [reflexivity|].
  cbn [app distinct_keys]. intros H. apply andb_true_iff in H as [Hk Hd].
  cbn [existsb fst]. rewrite (IH Hd), orb_false_r.
  apply negb_true_iff in Hk. rewrite existsb_app in Hk.
  apply orb_false_iff in Hk as [_ Hk]. cbn [existsb fst] in Hk.
  apply orb_false_iff in Hk as [Hk _]. rewrite String.eqb_sym. exact Hk.
Qed.

Lemma build_object_distinct members :
  distinct_keys members = true -> JSON.build_object members = members.
Proof.
  unfold JSON.build_object.
  assert (H : forall done,
             distinct_keys (done ++ members) = true ->
             fold_left (fun entries member =>
                          JSON.set_property (fst member) (snd member) entries)
               members done = done ++ members).
  { induction members as [|[key v] members IH]; intros done Hd.
    - rewrite app_nil_r. reflexivity.
    - cbn [fold_left fst snd].
      rewrite (set_property_fresh key v done (distinct_keys_fresh done key v members Hd)).
      rewrite IH; rewrite <- app_assoc; [reflexivity | exact Hd]. }
  intros Hd. exact (H [] Hd).
Qed.

Lemma parse_value_array fuel inner c t items rest :
  JSON.skip_ws inner = String c t -> opens_value c = true ->
  JSON.parse_elements fuel (String c t) = Some (items, rest) ->
  JSON.parse_value (S fuel) (String "[" inner) = Some (JArr items, rest).
Proof.
  intros Hskip Hc Hparse. cbn [JSON.parse_value].
  change (Ascii.eqb "[" "[") with true. cbn iota. rewrite Hskip.
  unfold opens_value in Hc. apply andb_true_iff in Hc as [Hc _].
  apply andb_true_iff in Hc as [_ Hc]. apply negb_true_iff in Hc.
  rewrite Hc, Hparse. reflexivity.
Qed.

Lemma parse_value_object fuel inner c t members rest :
  JSON.skip_ws inner = String c t -> opens_value c = true ->
  JSON.parse_members fuel (String c t) = Some (members, rest) ->
  JSON.parse_value (S fuel) (String "{" inner)
  = Some (JObj (JSON.build_object members), rest).
Proof.
  intros Hskip Hc Hparse. cbn [JSON.parse_value].
  change (Ascii.eqb "{" "[") with false. change (Ascii.eqb "{" "{") with true.
  cbn iota. rewrite Hskip.
  unfold opens_value in Hc. apply andb_true_iff in Hc as [_ Hc].
  apply negb_true_iff in Hc. rewrite Hc, Hparse. reflexivity.
Qed.

Lemma serialize_array ind x items :
  JSON.serialize "  " ind (JArr (x :: items))
  = "[" +:+ nl +:+ (ind +:+ "  ")
    +:+ join ("," +:+ nl +:+ (ind +:+ "  "))
          (map (JSON.serialize "  " (ind +:+ "  ")) (x :: items))
    +:+ nl +:+ ind +:+ "]".
Proof. reflexivity. Qed.

Lemma serialize_object ind e entries :
  JSON.serialize "  " ind (JObj (e :: entries))
  = "{" +:+ nl +:+ (ind +:+ "  ")
    +:+ join ("," +:+ nl +:+ (ind +:+ "  ")) (map (member_text (ind +:+ "  ")) (e :: entries))
    +:+ nl +:+ ind +:+ "}".
Proof. reflexivity. Qed.

Lemma indent_deeper ind :
  all_chars JSON.is_ws ind = true -> all_chars JSON.is_ws (ind +:+ "  ") = true.
Proof. intros H. rewrite all_chars_app, H. reflexivity. Qed.

Lemma Forall_parses_back (items : list json) :
  List.Forall (fun v => unique_keys v = true -> parses_back v) items ->
  forallb unique_keys items = true -> List.Forall parses_back items.
Proof.
  induction 1 as [|x items Hx _ IH]; intros H; constructor;
    cbn [forallb] in H; apply andb_true_iff in H as [H1 H2]; auto.
Qed.

Lemma Forall_members_parse_back (entries : list (string * json)) :
  List.Forall (fun e => unique_keys (snd e) = true -> parses_back (snd e)) entries ->
  forallb (fun e => unique_keys (snd e)) entries = true ->
  List.Forall (fun e => parses_back (snd e)) entries.
Proof.
  induction 1 as [|x items Hx _ IH]; intros H; constructor;
    cbn [forallb] in H; apply andb_true_iff in H as [H1 H2]; auto.
Qed.

(** The text of a value parses back to the value. *)
Lemma parse_serialized v : unique_keys v = true -> parses_back v.
Proof.
  induction v as [|b|n|s|items IH|entries IH] using json_induction; intros Hu.
  - intros [|fuel] ind rest Hf _ _; [cbn in Hf; lia | reflexivity].
  - intros [|fuel] ind rest Hf _ _; [cbn in Hf; lia | destruct b; reflexivity].
  - intros [|fuel] ind rest Hf _ Hrest; [cbn in Hf; lia|].
    cbn [JSON.serialize].
    destruct (decimal_head n) as [c [t [E Hc]]].
    destruct (num_char_dispatch c Hc) as [H1 [H2 H3]].
    rewrite E, app_cons. cbn [JSON.parse_value]. rewrite H1, H2, H3, Hc.
    rewrite <- app_cons, <- E. apply parse_number_decimal. exact Hrest.
  - intros [|fuel] ind rest Hf _ _; [cbn in Hf; lia|].
    cbn [JSON.serialize]. unfold JSON.quote. rewrite !app_assoc_string.
    change (dquote +:+ ?X) with (String (ascii_of_nat 34) X).
    cbn [JSON.parse_value].
    change (Ascii.eqb (ascii_of_nat 34) "[") with false.
    change (Ascii.eqb (ascii_of_nat 34) "{") with false.
    change (nat_of_ascii (ascii_of_nat 34) =? 34)%nat with true.
    cbn iota. rewrite parse_quote_chars. reflexivity.
  - intros [|fuel] ind rest Hf Hind Hrest; [cbn in Hf; lia|].
    destruct items as [|x items]; [reflexivity|].
    cbn [unique_keys] in Hu. pose proof (Forall_parses_back _ IH Hu) as Hall.
    rewrite serialize_array, !app_assoc_string.
    change ("[" +:+ ?X) with (String "[" X). change ("]" +:+ rest) with (String "]" rest).
    pose proof (indent_deeper ind Hind) as Hind'.
    set (body := join _ _ +:+ nl +:+ ind +:+ String "]" rest).
    assert (Hbody : JSON.parse_elements fuel body = Some (x :: items, rest)).
    { apply parse_elements_serialized; try assumption; [discriminate|].
      cbn [cost] in Hf. lia. }
    assert (Hhead : exists c t, body = String c t /\ opens_value c = true).
    { subst body. destruct items as [|y items].
      - cbn [map join String.concat].
        destruct (serialize_head "  " (ind +:+ "  ") x) as [c [t [E Hc]]].
        rewrite E, app_cons. eauto.
      - rewrite join_map_cons, !app_assoc_string.
        destruct (serialize_head "  " (ind +:+ "  ") x) as [c [t [E Hc]]].
        rewrite E, app_cons. eauto. }
    destruct Hhead as [c [t [E Hc]]].
    apply (parse_value_array fuel _ c t); [|exact Hc | rewrite <- E; exact Hbody].
    rewrite skip_ws_nl, (skip_ws_spaces _ _ Hind).
    change (JSON.skip_ws ("  " +:+ body)) with (JSON.skip_ws body).
    rewrite E. apply skip_ws_opens. exact Hc.
  - intros [|fuel] ind rest Hf Hind Hrest; [cbn in Hf; lia|].
    destruct entries as [|e entries]; [reflexivity|].
    cbn [unique_keys] in Hu. apply andb_true_iff in Hu as [Hd Hu].
    pose proof (Forall_members_parse_back _ IH Hu) as Hall.
    rewrite serialize_object, !app_assoc_string.
    change ("{" +:+ ?X) with (String "{" X). change ("}" +:+ rest) with (String "}" rest).
    pose proof (indent_deeper ind Hind) as Hind'.
    set (body := join _ _ +:+ nl +:+ ind +:+ String "}" rest).
    assert (Hbody : JSON.parse_members fuel body = Some (e :: entries, rest)).
    { apply parse_members_serialized; try assumption; [discriminate|].
      cbn [cost] in Hf. lia. }
    assert (Hhead : exists t, body = String (ascii_of_nat 34) t).
    { subst body. destruct entries as [|e' entries].
      - cbn [map join String.concat]. apply member_text_head.
      - rewrite join_map_cons, !app_assoc_string. apply member_text_head. }
    destruct Hhead as [t E].
    rewrite <- (build_object_distinct (e :: entries) Hd).
    apply (parse_value_object fuel _ (ascii_of_nat 34) t);
      [|reflexivity | rewrite <- E; exact Hbody].
    rewrite skip_ws_nl, (skip_ws_spaces _ _ Hind).
    change (JSON.skip_ws ("  " +:+ body)) with (JSON.skip_ws body).
    rewrite E. reflexivity.
Qed.

Lemma sum_le_join {A} (f : A -> string) (c : A -> nat) sep items :
  (1 <= String.length sep)%nat ->
  List.Forall (fun x => (c x <= String.length (f x))%nat) items ->
  (list_sum (map (fun x => S (c x)) items) <= String.length (join sep (map f items)) + 1)%nat.
Proof.
  intros Hsep Hall. induction Hall as [|x items Hx Hall IH]; [cbn; lia|].
  cbn [map]. rewrite list_sum_cons_nat.
  destruct items as [|y items].
  - cbn [map join String.concat list_sum fold_right]. lia.
  - change (f x :: map f (y :: items)) with (map f (x :: y :: items)).
    rewrite join_map_cons, !length_app_string. lia.
Qed.

Lemma cost_le_length v ind :
  (cost v <= String.length (JSON.serialize "  " ind v))%nat.
Proof.
  revert ind.
  induction v as [|b|n|s|items IH|entries IH] using json_induction; intros ind.
  - cbn. lia.
  - destruct b; cbn; lia.
  - cbn [cost JSON.serialize]. destruct (decimal_head n) as [c [t [E _]]].
    rewrite E. cbn [String.length]. lia.
  - cbn [cost JSON.serialize]. unfold JSON.quote. rewrite !length_app_string.
    cbn [String.length dquote]. lia.
  - destruct items as [|x items]; [cbn; lia|].
    rewrite serialize_array, !length_app_string. cbn [cost].
    pose proof (sum_le_join (JSON.serialize "  " (ind +:+ "  ")) cost
                  ("," +:+ nl +:+ (ind +:+ "  ")) (x :: items)) as H.
    rewrite !length_app_string in H. cbn [String.length] in *.
    assert (Hall : List.Forall
                     (fun x => (cost x <= String.length (JSON.serialize "  " (ind +:+ "  ") x))%nat)
                     (x :: items)).
    { eapply List.Forall_impl; [|exact IH]. intros a Ha. apply Ha. }
    specialize (H ltac:(lia) Hall). lia.
  - destruct entries as [|e entries]; [cbn; lia|].
    rewrite serialize_object, !length_app_string. cbn [cost].
    pose proof (sum_le_join (member_text (ind +:+ "  ")) (fun e => cost (snd e))
                  ("," +:+ nl +:+ (ind +:+ "  ")) (e :: entries)) as H.
    rewrite !length_app_string in H. cbn [String.length] in *.
    assert (Hall : List.Forall
                     (fun e => (cost (snd e) <= String.length (member_text (ind +:+ "  ") e))%nat)
                     (e :: entries)).
    { eapply List.Forall_impl; [|exact IH]. intros a Ha. cbn beta in Ha.
      unfold member_text. rewrite !length_app_string. specialize (Ha (ind +:+ "  ")). lia. }
    specialize (H ltac:(lia) Hall). lia.
Qed.

(** [JSON.parse(JSON.stringify(v, null, 2))] is [v]. *)
Lemma parse_stringify_indent2 v :
  unique_keys v = true -> JSON.parse (JSON.stringify_indent2 v) = Some v.
Proof.
  intros Hu. unfold JSON.parse, JSON.stringify_indent2.
  destruct (serialize_head "  " "" v) as [c [t [E Hc]]].
  assert (Hskip : JSON.skip_ws (JSON.serialize "  " "" v) = JSON.serialize "  " "" v).
  { rewrite E. apply skip_ws_opens. exact Hc. }
  rewrite Hskip.
  pose proof (parse_serialized v Hu (S (String.length (JSON.serialize "  " "" v))) "" ""
                ltac:(pose proof (cost_le_length v ""); lia) eq_refl eq_refl) as H.
  rewrite app_empty_r in H. rewrite H. reflexivity.
Qed.

(** ** The config files *)

Lemma mkdir_lookup_in (dirs : list string) (d : disk) p :
  In p dirs -> fold_right (fun a acc => <[a := Dir]> acc) d dirs !! p = Some Dir.
Proof.
  induction dirs as [|a dirs IH]; [contradiction|].
  intros [->|Hin]; cbn [fold_right].
  - apply lookup_insert_eq.
  - destruct (String.eqb_spec a p) as [->|Hne].
    + apply lookup_insert_eq.
    + rewrite lookup_insert_ne by exact Hne. exact (IH Hin).
Qed.

Lemma mkdir_lookup_other (dirs : list string) (d : disk) p :
  ~ In p dirs -> fold_right (fun a acc => <[a := Dir]> acc) d dirs !! p = d !! p.
Proof.
  induction dirs as [|a dirs IH]; [reflexivity|].
  intros Hnot. cbn [fold_right].
  rewrite lookup_insert_ne by (intros ->; apply Hnot; left; reflexivity).
  apply IH. intros Hin. apply Hnot. right. exact Hin.
Qed.

Lemma segments_of_segments segs :
  segs <> [] -> forallb normal_segment segs = true ->
  fs.segments (fs.of_segments segs) = segs.
Proof.
  intros Hn H. unfold fs.segments. rewrite (of_segments_split segs Hn H).
  cbn [List.filter String.eqb negb]. clear Hn.
  induction segs as [|seg segs IH]; [reflexivity|].
  cbn [forallb] in H. apply andb_true_iff in H as [Hseg Hs].
  cbn [List.filter]. destruct (normal_segment_step seg Hseg) as [E _].
  apply orb_false_iff in E as [E _]. rewrite E, (IH Hs). reflexivity.
Qed.

Lemma join_firstn_length sep k (parts : list string) :
  (String.length (join sep (firstn k parts)) <= String.length (join sep parts))%nat.
Proof.
  revert k. induction parts as [|x parts IH]; intros k.
  - rewrite firstn_nil. lia.
  - destruct k as [|k]; [cbn; lia|]. cbn [firstn].
    specialize (IH k).
    destruct parts as [|y parts].
    + rewrite firstn_nil. lia.
    + destruct k as [|k].
      * cbn [firstn]. rewrite join_cons2, !length_app_string.
        cbn [join String.concat]. lia.
      * cbn [firstn] in *. rewrite !join_cons2, !length_app_string. lia.
Qed.

(** An entry of a directory is none of the directories that lead to it. *)
Lemma entry_not_ancestor segs name :
  segs <> [] -> forallb normal_segment segs = true ->
  ~ In (fs.of_segments segs +:+ "/" +:+ name) (fs.ancestors (fs.of_segments segs)).
Proof.
  intros Hn H Hin. unfold fs.ancestors in Hin.
  rewrite (segments_of_segments segs Hn H) in Hin.
  apply List.in_map_iff in Hin as [k [E _]].
  apply (f_equal String.length) in E. unfold fs.of_segments in E.
  rewrite !length_app_string in E.
  pose proof (join_firstn_length "/" (S k) segs) as Hle.
  cbn [String.length] in E. lia.
Qed.

Lemma config_path_shape cwd name :
  head_sat is_slash cwd = true ->
  slash_free name = true ->
  String.eqb name "" || String.eqb name "." = false -> String.eqb name ".." = false ->
  ~ In (path.resolve cwd [dataDir cwd; name]) (fs.ancestors (dataDir cwd)).
Proof.
  intros Hcwd Hfree H1 H2.
  destruct (resolve_under_cwd cwd "src/data" Hcwd) as [base [Hbase E]]; try reflexivity.
  unfold dataDir. rewrite E.
  assert (Hn : base ++ split_on "/" "src/data" <> []).
  { intros Hnil. apply app_eq_nil in Hnil as [_ Hnil]. discriminate Hnil. }
  assert (Hs : forallb normal_segment (base ++ split_on "/" "src/data") = true).
  { rewrite forallb_app, Hbase. reflexivity. }
  rewrite (resolve_child cwd _ name Hn Hs Hfree), H1, H2.
  apply entry_not_ancestor; assumption.
Qed.

(** After a successful POST of [v] to a config endpoint, the GET block of
    the same endpoint sends the text that was written. *)
Lemma config_post_then_get cwd configPath req v d r1 d1 :
  ~ In configPath (fs.ancestors (dataDir cwd)) ->
  json_body req = Some v ->
  bind (fs.mkdir_recursive (dataDir cwd)) (fun _ => handle_config_post configPath req) d
  = (Ok r1, d1) ->
  statusCode r1 = 200 ->
  exists d2,
    bind (fs.mkdir_recursive (dataDir cwd)) (fun _ => handle_config_get configPath) d1
    = (Ok (send_text 200 (JSON.stringify_indent2 v)), d2).
Proof.
  intros Hnot Hbody. unfold bind, fs.mkdir_recursive.
  destruct (existsb (fs.is_file d) (fs.ancestors (dataDir cwd))) eqn:Hblocked;
    [discriminate|].
  set (d0 := fold_right (fun a acc => <[a := Dir]> acc) d (fs.ancestors (dataDir cwd))).
  unfold handle_config_post, try_catch, bind, readJsonBody, lift_option.
  rewrite Hbody. unfold ret at 1. unfold fs.writeFile.
  destruct (fs.is_dir d0 configPath); [intros [= <- <-]; discriminate|].
  destruct (fs.is_dir d0 (fs.parent configPath)); [|intros [= <- <-]; discriminate].
  unfold ret. intros [= <- <-] _.
  set (text := JSON.stringify_indent2 v).
  assert (Hdirs : existsb (fs.is_file (<[configPath := File text]> d0))
                    (fs.ancestors (dataDir cwd)) = false).
  { destruct (existsb (fs.is_file (<[configPath := File text]> d0))
                (fs.ancestors (dataDir cwd))) eqn:E; [|reflexivity]. exfalso.
    apply existsb_exists in E as [a [Hin Hfile]]. unfold fs.is_file in Hfile.
    rewrite lookup_insert_ne in Hfile by (intros ->; exact (Hnot Hin)).
    subst d0. rewrite (mkdir_lookup_in _ d a Hin) in Hfile. discriminate Hfile. }
  rewrite Hdirs. eexists.
  unfold handle_config_get, try_catch, fs.existsSync.
  rewrite (mkdir_lookup_other _ _ configPath Hnot), lookup_insert_eq, orb_true_r.
  unfold bind, fs.readFile.
  rewrite (mkdir_lookup_other _ _ configPath Hnot), lookup_insert_eq.
  reflexivity.
Qed.

Lemma middleware_gallery P cwd meth payload d :
  middleware P cwd (config_request "/__dev-editor/gallery" meth payload) d
  = match bind (fs.mkdir_recursive (dataDir cwd))
            (fun _ =>
               if String.eqb meth "GET" then handle_config_get (galleryConfigPath cwd)
               else if String.eqb meth "POST" then
                 handle_config_post (galleryConfigPath cwd)
                   (config_request "/__dev-editor/gallery" meth payload)
               else unknown_endpoint) d with
    | (Ok r, d') => Some (r, d')
    | (Throw err, d') => Some (send 500 (error_payload err), d')
    end.
Proof. reflexivity. Qed.

Lemma middleware_memes P cwd meth payload d :
  middleware P cwd (config_request "/__dev-editor/memes" meth payload) d
  = match bind (fs.mkdir_recursive (dataDir cwd))
            (fun _ =>
               if String.eqb meth "GET" then handle_config_get (memesConfigPath cwd)
               else if String.eqb meth "POST" then
                 handle_config_post (memesConfigPath cwd)
                   (config_request "/__dev-editor/memes" meth payload)
               else unknown_endpoint) d with
    | (Ok r, d') => Some (r, d')
    | (Throw err, d') => Some (send 500 (error_payload err), d')
    end.
Proof. reflexivity. Qed.


Definition data_disk : disk :=
  list_to_map [("/site", Dir); ("/site/src", Dir)].


(** * Further properties of the handlers *)

(** ** Where the handlers write *)

Lemma filename_char_not_slash c : filename_char c = true -> is_slash c = false.
Proof. destruct c as [[] [] [] [] [] [] [] []]; vm_compute; congruence. Qed.

Lemma filename_chars_slash_free s : all_chars filename_char s = true -> slash_free s = true.
Proof.
  unfold slash_free. induction s as [|c s IH]; [reflexivity|].
  cbn [all_chars any_char]. intros H. apply andb_true_iff in H as [Hc Hs].
  rewrite (filename_char_not_slash c Hc). exact (IH Hs).
Qed.

Lemma rev_app_length s t :
  String.length (String.rev_app s t) = (String.length s + String.length t)%nat.
Proof.
  revert t. induction s as [|c s IH]; intros t; [reflexivity|].
  cbn [String.rev_app]. rewrite IH. cbn [String.length]. lia.
Qed.

Lemma rev_length_string s : String.length (String.rev s) = String.length s.
Proof. unfold String.rev. rewrite rev_app_length. cbn [String.length]. lia. Qed.

Lemma map_chars_length f s : String.length (map_chars f s) = String.length s.
Proof. induction s as [|c s IH]; [reflexivity|]. cbn. rewrite IH. reflexivity. Qed.

Lemma endsWith_length s t :
  endsWith s t = true -> (String.length t <= String.length s)%nat.
Proof.
  unfold endsWith. intros H. apply prefix_length_string in H.
  rewrite !rev_length_string in H. exact H.
Qed.

Lemma image_extension_length name :
  has_image_extension name = true -> (4 <= String.length name)%nat.
Proof.
  unfold has_image_extension. intros H.
  apply existsb_exists in H as [ext [Hin Hend]].
  apply endsWith_length in Hend. unfold toLowerCase in Hend.
  rewrite map_chars_length in Hend.
  cbn [In] in Hin.
  repeat (destruct Hin as [<-|Hin]; [cbn [String.length] in Hend; lia|]).
  contradiction.
Qed.

Lemma long_name_normal name :
  slash_free name = true -> (3 <= String.length name)%nat -> normal_segment name = true.
Proof.
  intros Hfree Hlen. unfold normal_segment. rewrite Hfree, andb_true_r.
  destruct (String.eqb_spec name "") as [->|_]; [cbn in Hlen; lia|].
  destruct (String.eqb_spec name ".") as [->|_]; [cbn in Hlen; lia|].
  destruct (String.eqb_spec name "..") as [->|_]; [cbn in Hlen; lia|].
  reflexivity.
Qed.

Lemma normal_segment_child pcwd segs name :
  segs <> [] -> forallb normal_segment segs = true -> normal_segment name = true ->
  path.resolve pcwd [fs.of_segments segs; name] = fs.of_segments segs +:+ "/" +:+ name.
Proof.
  intros Hn Hsegs Hname.
  destruct (normal_segment_step name Hname) as [E1 E2].
  unfold normal_segment in Hname. apply andb_true_iff in Hname as [_ Hfree].
  rewrite (resolve_child pcwd segs name Hn Hsegs Hfree), E1, E2. reflexivity.
Qed.

Lemma of_segments_snoc segs name :
  segs <> [] -> fs.of_segments (segs ++ [name]) = fs.of_segments segs +:+ "/" +:+ name.
Proof.
  intros Hn. unfold fs.of_segments. rewrite join_snoc by exact Hn.
  rewrite !app_assoc_string. reflexivity.
Qed.

Lemma dir_under_cwd_normal cwd rel :
  head_sat is_slash cwd = true ->
  String.eqb rel "" = false -> head_sat is_slash rel = false ->
  forallb normal_segment (split_on "/" rel) = true ->
  exists segs,
    segs <> [] /\ forallb normal_segment segs = true
    /\ path.resolve cwd [cwd; rel] = fs.of_segments segs.
Proof.
  intros Hcwd H1 H2 H3.
  destruct (resolve_under_cwd cwd rel Hcwd H1 H2 H3) as [base [Hbase E]].
  exists (base ++ split_on "/" rel). split; [|split].
  - intros Hnil. apply app_eq_nil in Hnil as [_ Hnil].
    exact (split_on_not_nil _ _ Hnil).
  - rewrite forallb_app, Hbase, H3. reflexivity.
  - exact E.
Qed.

Lemma normal_segment_head name :
  normal_segment name = true ->
  String.eqb name "" = false /\ head_sat is_slash name = false /\ slash_free name = true.
Proof.
  intros H. destruct (normal_segment_step name H) as [E _].
  apply orb_false_iff in E as [E _]. unfold normal_segment in H.
  apply andb_true_iff in H as [_ Hfree]. split; [exact E|]. split; [|exact Hfree].
  destruct name as [|c name]; [reflexivity|]. unfold slash_free in Hfree.
  cbn [any_char head_sat] in *. apply negb_true_iff, orb_false_iff in Hfree as [Hc _].
  exact Hc.
Qed.

(** Resolving two names of normal segments against a normalized absolute
    directory. *)
Lemma resolve_grandchild pcwd segs a b :
  segs <> [] -> forallb normal_segment segs = true ->
  normal_segment a = true -> normal_segment b = true ->
  path.resolve pcwd [fs.of_segments segs; a; b]
  = fs.of_segments segs +:+ "/" +:+ a +:+ "/" +:+ b.
Proof.
  intros Hn Hsegs Ha Hb.
  destruct (normal_segment_head a Ha) as [Ha1 [Ha2 Ha3]].
  destruct (normal_segment_head b Hb) as [Hb1 [Hb2 Hb3]].
  unfold path.resolve.
  change (rev (pcwd :: [fs.of_segments segs; a; b]))
    with [b; a; fs.of_segments segs; pcwd].
  cbn [path.resolve_scan]. rewrite Ha1, Ha2, Hb1, Hb2.
  change (String.eqb (fs.of_segments segs) "") with false.
  change (head_sat is_slash (fs.of_segments segs)) with true.
  cbn iota. cbn [negb].
  change (fs.of_segments segs +:+ "/" +:+ a +:+ "/" +:+ b +:+ "/" +:+ "")
    with (fs.of_segments segs +:+ String "/" (a +:+ String "/" (b +:+ String "/" ""))).
  rewrite !split_on_app, (of_segments_split _ Hn Hsegs),
    (split_on_free a Ha3), (split_on_free b Hb3).
  change (("" :: segs) ++ [a] ++ [b] ++ split_on "/" "")
    with ("" :: (segs ++ [a; b; ""])).
  change (path.normalize_segments false [] ("" :: (segs ++ [a; b; ""])))
    with (path.normalize_segments false [] (segs ++ [a; b; ""])).
  change [a; b; ""] with ([a; b] ++ [""]). rewrite app_assoc.
  assert (Hall : forallb normal_segment (segs ++ [a; b]) = true).
  { rewrite forallb_app, Hsegs. cbn [forallb]. rewrite Ha, Hb. reflexivity. }
  rewrite normalize_app, (normalize_normal [] _ Hall).
  cbn [rev app path.normalize_segments String.eqb orb]. rewrite rev_involutive.
  change [a; b] with ([a] ++ [b]). rewrite app_assoc.
  change ("/" +:+ join "/" ((segs ++ [a]) ++ [b]))
    with (fs.of_segments ((segs ++ [a]) ++ [b])).
  rewrite of_segments_snoc by (intros E; destruct segs; discriminate E).
  rewrite of_segments_snoc by exact Hn.
  rewrite !app_assoc_string. reflexivity.
Qed.

Lemma contentDir_normal cwd :
  head_sat is_slash cwd = true ->
  exists segs,
    segs <> [] /\ forallb normal_segment segs = true
    /\ contentDir cwd = fs.of_segments segs.
Proof. intros H. apply dir_under_cwd_normal; [exact H | reflexivity ..]. Qed.

Lemma memesDir_normal cwd :
  head_sat is_slash cwd = true ->
  exists segs,
    segs <> [] /\ forallb normal_segment segs = true
    /\ memesDir cwd = fs.of_segments segs.
Proof. intros H. apply dir_under_cwd_normal; [exact H | reflexivity ..]. Qed.

(** X1. Whatever the request, the save handler leaves the disk as it was or
    writes one regular file whose path starts with the text of the content
    directory. *)
Theorem save_touches_prefixed_paths_only (cwd : string) (req : request) (d : disk) :
  match handle_save cwd req d with
  | (_, d') =>
      d' = d
      \/ exists target content,
           startsWith target (contentDir cwd) = true
           /\ fs.is_dir d target = false
           /\ d' = <[target := File content]> d
  end.
Proof.
  unfold handle_save, try_catch, bind, readJsonBody, lift_option.
  destruct (json_body req) as [parsed|]; [|left; reflexivity].
  unfold ret at 1.
  destruct (destructure parsed d) as [[parsed'|err] d0] eqn:Hd.
  2:{ left. destruct parsed; simpl in Hd; inversion Hd; reflexivity. }
  assert (d0 = d) as -> by (destruct parsed; simpl in Hd; inversion Hd; reflexivity).
  destruct (get_property parsed' "filePath") as [[| | |filePath| |]|]; try (left; reflexivity).
  cbn [string_argument ret].
  destruct (startsWith (path.resolve cwd [cwd; filePath]) (contentDir cwd)) eqn:Hpre;
    cbn [negb]; [|left; reflexivity].
  destruct (get_property parsed' "content") as [[| | |content| |]|]; try (left; reflexivity).
  cbn [string_argument ret]. unfold fs.writeFile.
  destruct (fs.is_dir d (path.resolve cwd [cwd; filePath])) eqn:Hdir; [left; reflexivity|].
  destruct (fs.is_dir d (fs.parent (path.resolve cwd [cwd; filePath]))); [|left; reflexivity].
  right. eexists _, _. split; [exact Hpre|]. split; [exact Hdir | reflexivity].
Qed.

Lemma slash_free_app a b : slash_free (a +:+ b) = slash_free a && slash_free b.
Proof. unfold slash_free. rewrite any_char_app, negb_orb. reflexivity. Qed.

Lemma slug_file_normal slug :
  all_chars slug_char slug = true -> slug <> "" -> normal_segment (slug +:+ ".md") = true.
Proof.
  intros Hc Hne. apply long_name_normal.
  - rewrite slash_free_app.
    rewrite (filename_chars_slash_free slug
               (all_chars_impl _ _ _ slug_char_filename Hc)).
    reflexivity.
  - rewrite length_app_string. cbn [String.length]. lia.
Qed.

Lemma allowed_collection_normal collection :
  In collection allowedCollections -> normal_segment collection = true.
Proof.
  cbn [allowedCollections In]. intros H.
  repeat (destruct H as [<-|H]; [reflexivity|]). contradiction.
Qed.

Lemma includes_string_In list v :
  includes_string list v = true -> exists s, v = Some (JStr s) /\ In s list.
Proof.
  destruct v as [[| | |s| |]|]; try discriminate. cbn [includes_string]. intros H.
  apply existsb_exists in H as [x [Hin Heq]]. apply String.eqb_eq in Heq. subst x. eauto.
Qed.



(** The disk after [mkdir -p dir]. *)
Definition made_dirs (dir : string) (d : disk) : disk :=
  fold_right (fun a acc => <[a := Dir]> acc) d (fs.ancestors dir).

(** What an upload handler does: a refusal or an error with the disk as it
    was or with the directory created, or one file written into the
    directory under a sanitized name with an image extension. *)
Definition upload_outcome (P : Platform) (cwd dir publicPrefix : string)
    (req : request) (d : disk) : Prop :=
  match handle_upload_to P cwd dir publicPrefix req d with
  | (Ok r, d') =>
      (In (statusCode r) [400; 500] /\ (d' = d \/ d' = made_dirs dir d))
      \/ exists name content,
           all_chars filename_char name = true
           /\ has_image_extension name = true
           /\ d' = <[dir +:+ "/" +:+ name := File content]> (made_dirs dir d)
           /\ r = send 200 (JObj [("success", JBool true);
                                  ("path", JStr (publicPrefix +:+ name))])
  | (Throw _, _) => False
  end.

Lemma sanitized_image_normal name :
  has_image_extension (sanitizeFilename name) = true ->
  normal_segment (sanitizeFilename name) = true.
Proof.
  intros H. apply long_name_normal.
  - apply filename_chars_slash_free, sanitizeFilename_chars.
  - apply image_extension_length in H. lia.
Qed.

Lemma upload_in_directory P cwd segs publicPrefix req d :
  segs <> [] -> forallb normal_segment segs = true ->
  upload_outcome P cwd (fs.of_segments segs) publicPrefix req d.
Proof.
  intros Hn Hsegs. unfold upload_outcome.
  unfold handle_upload_to, try_catch, bind, readJsonBody, lift_option.
  destruct (json_body req) as [parsed|]; [|left; cbn; auto].
  unfold ret at 1.
  destruct (destructure parsed d) as [[parsed'|err] d0] eqn:Hd.
  2:{ assert (d0 = d) as -> by (destruct parsed; simpl in Hd; inversion Hd; reflexivity).
      left. cbn. auto. }
  assert (d0 = d) as -> by (destruct parsed; simpl in Hd; inversion Hd; reflexivity).
  destruct (truthy (get_property parsed' "mimeType")
            && negb (includes_string allowedTypes (get_property parsed' "mimeType")));
    [left; cbn; auto|].
  destruct (get_property parsed' "filename") as [[| | |filename| |]|];
    cbn [as_string ret throw]; try (left; cbn; auto).
  destruct (String.eqb (sanitizeFilename filename) ""); cbn [orb]; [left; cbn; auto|].
  destruct (has_image_extension (sanitizeFilename filename)) eqn:Hext; cbn [negb];
    [|left; cbn; auto].
  unfold fs.mkdir_recursive.
  destruct (existsb (fs.is_file d) (fs.ancestors (fs.of_segments segs)));
    [left; cbn; auto|].
  fold (made_dirs (fs.of_segments segs) d).
  rewrite (normal_segment_child cwd segs _ Hn Hsegs (sanitized_image_normal _ Hext)).
  destruct (Buffer_from_base64 P (get_property parsed' "data")) as [buffer|];
    cbn [ret throw]; [|left; cbn; auto].
  unfold fs.writeFile.
  destruct (fs.is_dir _ (fs.of_segments segs +:+ "/" +:+ sanitizeFilename filename));
    [left; cbn; auto|].
  destruct (fs.is_dir _ (fs.parent _)); [|left; cbn; auto].
  right. exists (sanitizeFilename filename), buffer.
  split; [apply sanitizeFilename_chars|]. split; [exact Hext|]. split; reflexivity.
Qed.


Definition upload_request (filename data mimeType : json) : request :=
  {| url := Some "/__dev-editor/upload";
     method := "POST";
     json_body := Some (JObj [("filename", filename); ("data", data);
                              ("mimeType", mimeType)]) |}.


Example upload_sanitizes_traversal :
  handle_upload_to plain_platform "/site" (galleryDir "/site") "/gallery/"
    (upload_request (JStr "../My Cat.JPG") (JStr "bytes") (JStr "image/jpeg")) drafts_disk
  = (Ok (send 200 (JObj [("success", JBool true); ("path", JStr "/gallery/..-my-cat.jpg")])),
     <["/site/public/gallery/..-my-cat.jpg" := File "bytes"]> drafts_disk).
Proof. vm_compute. reflexivity. Qed.

Lemma basename_of_public_path dirname name :
  slash_free dirname = true -> slash_free name = true -> name <> "" ->
  path.basename ("/" +:+ dirname +:+ "/" +:+ name) = name.
Proof.
  intros Hd Hname Hne. unfold path.basename.
  change ("/" +:+ dirname +:+ "/" +:+ name) with (String "/" (dirname +:+ String "/" name)).
  cbn [split_on]. change (Ascii.eqb "/" "/") with true. cbn iota.
  rewrite split_on_app, (split_on_free dirname Hd), (split_on_free name Hname).
  cbn [app List.filter String.eqb negb].
  destruct (String.eqb_spec name "") as [|_]; [contradiction|]. cbn [negb].
  destruct (negb (String.eqb dirname "")); reflexivity.
Qed.

Lemma delete_uploaded cwd segs dirname what name content (d : disk) :
  segs <> [] -> forallb normal_segment segs = true ->
  slash_free dirname = true -> normal_segment name = true ->
  d !! (fs.of_segments segs +:+ "/" +:+ name) = Some (File content) ->
  handle_delete_from cwd (fs.of_segments segs) ("/" +:+ dirname +:+ "/") what
    (delete_request (JStr ("/" +:+ dirname +:+ "/" +:+ name))) d
  = (Ok (send 200 (JObj [("success", JBool true)])),
     delete (fs.of_segments segs +:+ "/" +:+ name) d).
Proof.
  intros Hn Hsegs Hdir Hname Hlook.
  destruct (normal_segment_head name Hname) as [Hne [_ Hfree]].
  apply String.eqb_neq in Hne.
  unfold handle_delete_from, delete_request, try_catch, bind, readJsonBody, lift_option.
  cbn [json_body destructure ret get_property assoc_lookup String.eqb Ascii.eqb Bool.eqb
       as_string].
  assert (Hpre : startsWith ("/" +:+ dirname +:+ "/" +:+ name) ("/" +:+ dirname +:+ "/") = true).
  { unfold startsWith.
    replace ("/" +:+ dirname +:+ "/" +:+ name) with (("/" +:+ dirname +:+ "/") +:+ name)
      by (rewrite !app_assoc_string; reflexivity).
    apply prefix_app_string. }
  rewrite Hpre. cbn [negb].
  rewrite (basename_of_public_path dirname name Hdir Hfree Hne).
  rewrite (normal_segment_child cwd segs name Hn Hsegs Hname).
  unfold startsWith at 1. rewrite prefix_app_string. cbn [negb].
  unfold fs.existsSync, fs.unlink. rewrite Hlook, orb_true_r. reflexivity.
Qed.

(** X4. The path that a successful upload to the gallery returns is a path
    that the delete endpoint accepts: the DELETE request with that path that
    follows is answered 200 and removes the uploaded file, and nothing
    else. *)
Theorem uploaded_image_can_be_deleted (P : Platform) (cwd : string) (req : request)
    (d d1 : disk) (r : response) :
  head_sat is_slash cwd = true ->
  handle_upload_to P cwd (galleryDir cwd) "/gallery/" req d = (Ok r, d1) ->
  statusCode r = 200 ->
  exists name,
    r = send 200 (JObj [("success", JBool true); ("path", JStr ("/gallery/" +:+ name))])
    /\ fs.is_file d1 (galleryDir cwd +:+ "/" +:+ name) = true
    /\ handle_delete_from cwd (galleryDir cwd) "/gallery/" "gallery"
         (delete_request (JStr ("/gallery/" +:+ name))) d1
       = (Ok (send 200 (JObj [("success", JBool true)])),
          delete (galleryDir cwd +:+ "/" +:+ name) d1).
Proof.
  intros Hcwd Hrun Hstatus.
  destruct (galleryDir_normal cwd Hcwd) as [segs [Hn [Hsegs E]]].
  pose proof (upload_in_directory P cwd segs "/gallery/" req d Hn Hsegs) as Hout.
  unfold upload_outcome in Hout. rewrite <- E, Hrun in Hout.
  destruct Hout as [[Hbad _]|[name [content [Hchars [Hext [Hd1 Hr]]]]]].
  - exfalso. rewrite Hstatus in Hbad. cbn [In] in Hbad.
    destruct Hbad as [Hbad|[Hbad|[]]]; discriminate Hbad.
  - exists name. split; [exact Hr|].
    assert (Hlook : d1 !! (galleryDir cwd +:+ "/" +:+ name) = Some (File content)).
    { rewrite Hd1. apply lookup_insert_eq. }
    split; [unfold fs.is_file; rewrite Hlook; reflexivity|].
    rewrite E in *.
    apply (delete_uploaded cwd segs "gallery" "gallery" name content d1 Hn Hsegs eq_refl);
      [|exact Hlook].
    apply long_name_normal; [apply filename_chars_slash_free; exact Hchars|].
    apply image_extension_length in Hext. lia.
Qed.

Lemma uploaded_image_can_be_deleted_witness :
  exists name,
    send 200 (JObj [("success", JBool true); ("path", JStr "/gallery/..-my-cat.jpg")])
    = send 200 (JObj [("success", JBool true); ("path", JStr ("/gallery/" +:+ name))])
    /\ fs.is_file (<["/site/public/gallery/..-my-cat.jpg" := File "bytes"]> drafts_disk)
         (galleryDir "/site" +:+ "/" +:+ name) = true
    /\ handle_delete_from "/site" (galleryDir "/site") "/gallery/" "gallery"
         (delete_request (JStr ("/gallery/" +:+ name)))
         (<["/site/public/gallery/..-my-cat.jpg" := File "bytes"]> drafts_disk)
       = (Ok (send 200 (JObj [("success", JBool true)])),
          delete (galleryDir "/site" +:+ "/" +:+ name)
            (<["/site/public/gallery/..-my-cat.jpg" := File "bytes"]> drafts_disk)).
Proof.
  apply (uploaded_image_can_be_deleted plain_platform "/site"
           (upload_request (JStr "../My Cat.JPG") (JStr "bytes") (JStr "image/jpeg"))
           drafts_disk
           (<["/site/public/gallery/..-my-cat.jpg" := File "bytes"]> drafts_disk)
           (send 200 (JObj [("success", JBool true);
                            ("path", JStr "/gallery/..-my-cat.jpg")]))).
  - reflexivity.
  - vm_compute. reflexivity.
  - reflexivity.
Defined.

(** X5. DELETE /__dev-editor/delete-meme removes a file only if it is an
    entry of the memes directory itself: a path that does not begin with
    [/memes/] is answered 403 with the disk untouched, and whatever the path
    the disk is left as it was or loses one regular file [<memesDir>/<name>],
    where [name] holds no slash. *)
Theorem delete_meme_only_inside_memes (cwd : string) (req : request) (d : disk) :
  head_sat is_slash cwd = true ->
  fs.is_file d (memesDir cwd) = false ->
  (forall parsed imagePath,
      json_body req = Some parsed ->
      get_property parsed "path" = Some (JStr imagePath) ->
      startsWith imagePath "/memes/" = false ->
      handle_delete_from cwd (memesDir cwd) "/memes/" "meme" req d
      = (Ok (send 403 (error_payload "Can only delete meme images")), d))
  /\ match handle_delete_from cwd (memesDir cwd) "/memes/" "meme" req d with
     | (_, d') =>
         d' = d
         \/ exists name,
              slash_free name = true /\ name <> ""
              /\ fs.is_file d (memesDir cwd +:+ "/" +:+ name) = true
              /\ d' = delete (memesDir cwd +:+ "/" +:+ name) d
     end.
Proof.
  intros Hcwd Hfile. split.
  - intros parsed imagePath Hbody Hpath Hpre.
    rewrite (delete_rejects_other_prefixes cwd (memesDir cwd) "/memes/" "meme"
               req d parsed imagePath Hbody Hpath Hpre).
    reflexivity.
  - destruct (memesDir_normal cwd Hcwd) as [segs [Hn [Hsegs E]]].
    rewrite E in *. apply delete_stays_in_directory; assumption.
Qed.

Definition memes_disk : disk :=
  list_to_map [("/site", Dir); ("/site/public", Dir); ("/site/public/memes", Dir);
               ("/site/public/memes/doge.png", File "png bytes");
               ("/site/public/secret.txt", File "keep")].

Lemma delete_meme_only_inside_memes_witness :
  handle_delete_from "/site" (memesDir "/site") "/memes/" "meme"
    (delete_request (JStr "/gallery/doge.png")) memes_disk
  = (Ok (send 403 (error_payload "Can only delete meme images")), memes_disk).
Proof.
  apply (proj1 (delete_meme_only_inside_memes "/site"
                  (delete_request (JStr "/gallery/doge.png")) memes_disk
                  ltac:(reflexivity) ltac:(vm_compute; reflexivity))
           (JObj [("path", JStr "/gallery/doge.png")]) "/gallery/doge.png").
  - reflexivity.
  - reflexivity.
  - reflexivity.
Defined.

(** ** What no request does to the disk *)

Section Keeps.
Variable R : disk -> disk -> Prop.
Hypothesis R_refl : forall d, R d d.
Hypothesis R_trans : forall a b c, R a b -> R b c -> R a c.

(** A computation that leaves the disk related to the disk it starts on. *)
Definition Keeps {A} (m : M A) : Prop := forall d, R d (snd (m d)).

Lemma Keeps_ret {A} (a : A) : Keeps (ret a).
Proof. intros d. apply R_refl. Qed.

Lemma Keeps_throw {A} err : Keeps (@throw A err).
Proof. intros d. apply R_refl. Qed.

Lemma Keeps_bind {A B} (m : M A) (k : A -> M B) :
  Keeps m -> (forall a, Keeps (k a)) -> Keeps (bind m k).
Proof.
  intros Hm Hk d. unfold bind. specialize (Hm d).
  destruct (m d) as [[a|err] d']; cbn [snd] in *; [|exact Hm].
  apply (R_trans _ d'); [exact Hm | apply Hk].
Qed.

Lemma Keeps_try_catch m : Keeps m -> Keeps (try_catch m).
Proof.
  intros Hm d. unfold try_catch. specialize (Hm d).
  destruct (m d) as [[r|err] d']; exact Hm.
Qed.

Lemma Keeps_if {A} (b : bool) (m1 m2 : M A) : Keeps m1 -> Keeps m2 -> Keeps (if b then m1 else m2).
Proof. destruct b; auto. Qed.

Lemma Keeps_read {A} (f : disk -> bool) (a : outcome A) (m : M A) :
  Keeps m -> Keeps (fun d => if f d then (a, d) else m d).
Proof. intros Hm d. destruct (f d); [apply R_refl | apply Hm]. Qed.

Lemma Keeps_read_else {A} (f : disk -> bool) (a : outcome A) (m : M A) :
  Keeps m -> Keeps (fun d => if f d then m d else (a, d)).
Proof. intros Hm d. destruct (f d); [apply Hm | apply R_refl]. Qed.

Lemma Keeps_lift_option {A} err (o : option A) : Keeps (lift_option err o).
Proof. destruct o; [apply Keeps_ret | apply Keeps_throw]. Qed.

Lemma Keeps_readJsonBody req : Keeps (readJsonBody req).
Proof. apply Keeps_lift_option. Qed.

Lemma Keeps_destructure v : Keeps (destructure v).
Proof. destruct v; first [apply Keeps_ret | apply Keeps_throw]. Qed.

Lemma Keeps_as_string v : Keeps (as_string v).
Proof. destruct v as [[| | | | |]|]; first [apply Keeps_ret | apply Keeps_throw]. Qed.

Lemma Keeps_string_argument v : Keeps (string_argument v).
Proof. destruct v as [[| | | | |]|]; first [apply Keeps_ret | apply Keeps_throw]. Qed.

Lemma Keeps_readFile p : Keeps (fs.readFile p).
Proof.
  intros d. unfold fs.readFile.
  destruct (d !! p) as [[|]|]; try apply R_refl. destruct (String.eqb p "/"); apply R_refl.
Qed.

Lemma Keeps_readdir p : Keeps (fs.readdir p).
Proof. intros d. unfold fs.readdir. destruct (fs.is_dir d p); apply R_refl. Qed.

Lemma Keeps_stat p : Keeps (fs.stat p).
Proof.
  intros d. unfold fs.stat.
  destruct (d !! p) as [|]; try apply R_refl. destruct (String.eqb p "/"); apply R_refl.
Qed.

Hypothesis R_writeFile : forall p content, Keeps (fs.writeFile p content).
Hypothesis R_mkdir : forall p, Keeps (fs.mkdir_recursive p).

Ltac keeps_tac :=
  repeat first
    [ apply Keeps_try_catch
    | apply Keeps_readJsonBody | apply Keeps_destructure | apply Keeps_as_string
    | apply Keeps_string_argument | apply Keeps_lift_option
    | apply Keeps_readFile | apply Keeps_readdir | apply Keeps_stat
    | apply R_writeFile | apply R_mkdir
    | apply Keeps_ret | apply Keeps_throw
    | apply Keeps_bind; [|intros ?]
    | apply Keeps_if
    | apply Keeps_read
    | apply Keeps_read_else ].

Lemma Keeps_save cwd req : Keeps (handle_save cwd req).
Proof. unfold handle_save. keeps_tac. Qed.

Lemma Keeps_create cwd req : Keeps (handle_create cwd req).
Proof. unfold handle_create. keeps_tac. Qed.

Lemma Keeps_upload P cwd dir pre req : Keeps (handle_upload_to P cwd dir pre req).
Proof. unfold handle_upload_to. keeps_tac. Qed.

Lemma Keeps_convert P req : Keeps (handle_convert_heic P req).
Proof. unfold handle_convert_heic. keeps_tac. Qed.

Lemma Keeps_stat_all P cwd dir pre files : Keeps (stat_all P cwd dir pre files).
Proof. induction files as [|f files IH]; cbn [stat_all]; keeps_tac. exact IH. Qed.

Lemma Keeps_list P cwd dir pre : Keeps (handle_list P cwd dir pre).
Proof. unfold handle_list. keeps_tac. apply Keeps_stat_all. Qed.

Lemma Keeps_config_get p : Keeps (handle_config_get p).
Proof. unfold handle_config_get. keeps_tac. Qed.

Lemma Keeps_config_post p req : Keeps (handle_config_post p req).
Proof. unfold handle_config_post. keeps_tac. Qed.

Lemma Keeps_delete cwd dir pre what req :
  (forall p, Keeps (fs.unlink p)) -> Keeps (handle_delete_from cwd dir pre what req).
Proof. intros Hunlink. unfold handle_delete_from. keeps_tac. apply Hunlink. Qed.

(** The routes, when the two delete handlers keep the relation too. *)
Lemma Keeps_route P cwd u req :
  (forall dir pre what,
      String.eqb (method req) "DELETE" = true ->
      Keeps (handle_delete_from cwd dir pre what req)) ->
  Keeps (route P cwd u req).
Proof.
  intros Hdelete.
  unfold route, route_after_gallery, route_after_memes, unknown_endpoint.
  destruct (String.eqb (method req) "DELETE") eqn:Hm.
  - repeat first
      [ apply Keeps_save | apply Keeps_create | apply Keeps_upload | apply Keeps_convert
      | apply Keeps_list | apply Keeps_config_get | apply Keeps_config_post
      | apply R_mkdir | apply Keeps_ret
      | apply Hdelete; reflexivity
      | apply Keeps_bind; [|intros ?]
      | apply Keeps_if ].
  - rewrite !andb_false_r. cbv iota.
    repeat first
      [ apply Keeps_save | apply Keeps_create | apply Keeps_upload | apply Keeps_convert
      | apply Keeps_list | apply Keeps_config_get | apply Keeps_config_post
      | apply R_mkdir | apply Keeps_ret
      | apply Keeps_bind; [|intros ?]
      | apply Keeps_if ].
Qed.

End Keeps.

(** Directories stay directories. *)
Definition dirs_stay (d d' : disk) : Prop :=
  forall p, d !! p = Some Dir -> d' !! p = Some Dir.

(** Directories stay directories, and regular files stay regular files. *)
Definition kinds_stay (d d' : disk) : Prop :=
  forall p,
    (d !! p = Some Dir -> d' !! p = Some Dir)
    /\ (fs.is_file d p = true -> fs.is_file d' p = true).

Lemma kinds_stay_dirs d d' : kinds_stay d d' -> dirs_stay d d'.
Proof. intros H p. apply (H p). Qed.

Lemma kinds_stay_refl d : kinds_stay d d.
Proof. intros p. auto. Qed.

Lemma kinds_stay_trans a b c : kinds_stay a b -> kinds_stay b c -> kinds_stay a c.
Proof. intros H1 H2 p. destruct (H1 p), (H2 p). auto. Qed.

Lemma dirs_stay_refl d : dirs_stay d d.
Proof. intros p. auto. Qed.

Lemma dirs_stay_trans a b c : dirs_stay a b -> dirs_stay b c -> dirs_stay a c.
Proof. intros H1 H2 p H. auto. Qed.

Lemma writeFile_kinds_stay p content : Keeps kinds_stay (fs.writeFile p content).
Proof.
  intros d. unfold fs.writeFile.
  destruct (fs.is_dir d p) eqn:Hdir; [apply kinds_stay_refl|].
  destruct (fs.is_dir d (fs.parent p)); [|apply kinds_stay_refl].
  cbn [snd]. intros q. destruct (String.eqb_spec p q) as [<-|Hne].
  - unfold fs.is_dir in Hdir. apply orb_false_iff in Hdir as [_ Hdir].
    unfold fs.is_file. rewrite lookup_insert_eq. split; [|reflexivity].
    intros Hq. rewrite Hq in Hdir. discriminate Hdir.
  - unfold fs.is_file. rewrite lookup_insert_ne by exact Hne. auto.
Qed.

Lemma mkdir_kinds_stay p : Keeps kinds_stay (fs.mkdir_recursive p).
Proof.
  intros d. unfold fs.mkdir_recursive.
  destruct (existsb (fs.is_file d) (fs.ancestors p)) eqn:Hblocked; [apply kinds_stay_refl|].
  cbn [snd]. intros q. destruct (in_dec String.string_dec q (fs.ancestors p)) as [Hin|Hnot].
  - unfold fs.is_file at 2. rewrite (mkdir_lookup_in _ d q Hin). split; [reflexivity|].
    intros Hfile.
    assert (Hex : existsb (fs.is_file d) (fs.ancestors p) = true)
      by (apply existsb_exists; exists q; auto).
    congruence.
  - unfold fs.is_file. rewrite (mkdir_lookup_other _ d q Hnot). auto.
Qed.

Lemma unlink_dirs_stay p : Keeps dirs_stay (fs.unlink p).
Proof.
  intros d. unfold fs.unlink.
  destruct (d !! p) as [[content|]|] eqn:Hp; try apply dirs_stay_refl.
  - cbn [snd]. intros q Hq. rewrite lookup_delete_ne; [exact Hq|].
    intros ->. rewrite Hp in Hq. discriminate Hq.
  - destruct (String.eqb p "/"); apply dirs_stay_refl.
Qed.

Lemma writeFile_dirs_stay p content : Keeps dirs_stay (fs.writeFile p content).
Proof. intros d. apply kinds_stay_dirs, writeFile_kinds_stay. Qed.

Lemma mkdir_dirs_stay p : Keeps dirs_stay (fs.mkdir_recursive p).
Proof. intros d. apply kinds_stay_dirs, mkdir_kinds_stay. Qed.

(** X6. No request removes a directory or puts a file in its place: a path
    that is a directory before a request is a directory after it. *)
Theorem no_request_removes_a_directory (P : Platform) (cwd : string) (req : request)
    (d : disk) :
  match middleware P cwd req d with
  | Some (_, d') => forall p, d !! p = Some Dir -> d' !! p = Some Dir
  | None => True
  end.
Proof.
  unfold middleware. destruct (request_path req) as [u|]; [|exact I].
  destruct (startsWith u "/__dev-editor/"); [|exact I].
  pose proof (Keeps_route dirs_stay dirs_stay_refl dirs_stay_trans
                writeFile_dirs_stay mkdir_dirs_stay P cwd u req
                (fun dir pre what _ =>
                   Keeps_delete dirs_stay dirs_stay_refl dirs_stay_trans
                     cwd dir pre what req unlink_dirs_stay) d) as H.
  destruct (route P cwd u req d) as [[r|err] d']; exact H.
Qed.

(** X7. Only a DELETE request removes anything: after a request with another
    method every directory is still a directory and every regular file is
    still a regular file (its content may have been replaced). *)
Theorem only_delete_requests_remove (P : Platform) (cwd : string) (req : request)
    (d : disk) :
  String.eqb (method req) "DELETE" = false ->
  match middleware P cwd req d with
  | Some (_, d') =>
      forall p,
        (d !! p = Some Dir -> d' !! p = Some Dir)
        /\ (fs.is_file d p = true -> fs.is_file d' p = true)
  | None => True
  end.
Proof.
  intros Hm. unfold middleware. destruct (request_path req) as [u|]; [|exact I].
  destruct (startsWith u "/__dev-editor/"); [|exact I].
  pose proof (Keeps_route kinds_stay kinds_stay_refl kinds_stay_trans
                writeFile_kinds_stay mkdir_kinds_stay P cwd u req
                (fun dir pre what Hd =>
                   False_ind _ (eq_ind false (fun b => if b then False else True) I true
                                  (eq_trans (eq_sym Hm) Hd))) d) as H.
  destruct (route P cwd u req d) as [[r|err] d']; exact H.
Qed.

Lemma only_delete_requests_remove_witness :
  fs.is_file (<["/site/src/content/new.md" := File "text"]> drafts_disk)
    "/site/public/secret.txt" = true.
Proof.
  pose proof (only_delete_requests_remove plain_platform "/site"
                (save_request (JStr "src/content/new.md") (JStr "text")) drafts_disk
                eq_refl) as H.
  assert (E : middleware plain_platform "/site"
                (save_request (JStr "src/content/new.md") (JStr "text")) drafts_disk
              = Some (send 200 (JObj [("success", JBool true)]),
                      <["/site/src/content/new.md" := File "text"]> drafts_disk))
    by (vm_compute; reflexivity).
  rewrite E in H. apply (proj2 (H "/site/public/secret.txt")). reflexivity.
Defined.

(** ** Bodies, query strings and missing fields *)

(** The endpoints that read a JSON body before they look at the disk. *)
Definition body_endpoints : list (string * string) :=
  [("/__dev-editor/save", "POST"); ("/__dev-editor/create", "POST");
   ("/__dev-editor/upload", "POST"); ("/__dev-editor/delete", "DELETE");
   ("/__dev-editor/convert-heic", "POST");
   ("/__dev-editor/upload-meme", "POST"); ("/__dev-editor/delete-meme", "DELETE")].

(** X8. A request to one of the endpoints that start by reading their body,
    with a body that is not JSON, is answered 500 with the stringified error,
    and the disk is left as it was. *)
Theorem malformed_body_is_500 (P : Platform) (cwd : string) (req : request) (d : disk)
    (u : string) :
  request_path req = Some u ->
  In (u, method req) body_endpoints ->
  json_body req = None ->
  exists err, middleware P cwd req d = Some (send 500 (error_payload err), d).
Proof.
  intros Hu Hin Hbody. unfold middleware. rewrite Hu.
  cbn [body_endpoints In] in Hin.
  repeat (destruct Hin as [Hin|Hin];
          [injection Hin as <- Hm; eexists;
           unfold route, route_after_gallery, route_after_memes; rewrite <- Hm;
           cbn [startsWith String.prefix String.eqb Ascii.eqb Bool.eqb andb];
           unfold handle_save, handle_create, handle_upload_to, handle_delete_from,
             handle_convert_heic, try_catch, bind, readJsonBody, lift_option;
           rewrite Hbody; reflexivity|]).
  contradiction.
Qed.

Lemma malformed_body_is_500_witness :
  exists err,
    middleware plain_platform "/site"
      {| url := Some "/__dev-editor/delete?now"; method := "DELETE"; json_body := None |}
      drafts_disk
    = Some (send 500 (error_payload err), drafts_disk).
Proof.
  apply (malformed_body_is_500 plain_platform "/site"
           {| url := Some "/__dev-editor/delete?now"; method := "DELETE"; json_body := None |}
           drafts_disk "/__dev-editor/delete").
  - reflexivity.
  - cbn. tauto.
  - reflexivity.
Defined.

(** X9. The query string takes no part in the routing: a request is
    answered as the request with the same method and body whose URL stops
    before the first question mark. *)
Theorem query_string_is_ignored (P : Platform) (cwd u query meth : string)
    (payload : option json) (d : disk) :
  includes_char "?" u = false ->
  middleware P cwd {| url := Some (u +:+ "?" +:+ query); method := meth;
                      json_body := payload |} d
  = middleware P cwd {| url := Some u; method := meth; json_body := payload |} d.
Proof.
  intros Hu. unfold middleware, request_path. cbn [url].
  change (u +:+ "?" +:+ query) with (u +:+ String "?" query).
  rewrite split_on_app, (split_on_free_char "?" u Hu). cbn [app hd].
  reflexivity.
Qed.

Lemma query_string_is_ignored_witness :
  middleware plain_platform "/site"
    {| url := Some ("/__dev-editor/list-images" +:+ "?" +:+ "t=1?2"); method := "GET";
       json_body := None |} drafts_disk
  = middleware plain_platform "/site"
      {| url := Some "/__dev-editor/list-images"; method := "GET"; json_body := None |}
      drafts_disk.
Proof.
  apply (query_string_is_ignored plain_platform "/site" "/__dev-editor/list-images" "t=1?2"
           "GET" None drafts_disk).
  reflexivity.
Defined.

(** ** Slugs without a letter or a digit *)

Lemma hyphen_not_alnum c : is_hyphen c = true -> alnum_char c = false.
Proof.
  unfold is_hyphen. intros H. apply Ascii.eqb_eq in H. subst c. reflexivity.
Qed.

Lemma any_char_drop_leading s :
  any_char alnum_char (drop_leading_hyphen s) = any_char alnum_char s.
Proof.
  destruct s as [|c s]; [reflexivity|]. cbn [drop_leading_hyphen].
  destruct (is_hyphen c) eqn:Hc; [|reflexivity].
  cbn [any_char]. rewrite (hyphen_not_alnum c Hc). reflexivity.
Qed.

Lemma any_char_drop_trailing s :
  any_char alnum_char (drop_trailing_hyphen s) = any_char alnum_char s.
Proof.
  induction s as [|c s IH]; [reflexivity|].
  destruct s as [|c' s].
  - cbn [drop_trailing_hyphen]. destruct (is_hyphen c) eqn:Hc; [|reflexivity].
    cbn [any_char]. rewrite (hyphen_not_alnum c Hc). reflexivity.
  - change (drop_trailing_hyphen (String c (String c' s)))
      with (String c (drop_trailing_hyphen (String c' s))).
    cbn [any_char] in *. rewrite IH. reflexivity.
Qed.

Lemma any_char_replace_runs s :
  any_char alnum_char (replace_runs (fun c => negb (alnum_char c)) "-" s)
  = any_char alnum_char s.
Proof.
  induction s as [|c s IH]; [reflexivity|].
  cbn [replace_runs]. destruct (alnum_char c) eqn:Hc; cbn [negb].
  - cbn [any_char]. rewrite Hc. reflexivity.
  - destruct (head_sat _ s); cbn [any_char]; rewrite ?Hc;
      [exact IH|]. rewrite app_cons. cbn [any_char append]. cbn. exact IH.
Qed.

Lemma any_char_empty (p : ascii -> bool) s : s = "" -> any_char p s = false.
Proof. intros ->. reflexivity. Qed.

Lemma no_alnum_runs s :
  any_char alnum_char s = false ->
  replace_runs (fun c => negb (alnum_char c)) "-" s = ""
  \/ replace_runs (fun c => negb (alnum_char c)) "-" s = "-".
Proof.
  induction s as [|c s IH]; [left; reflexivity|].
  cbn [any_char]. intros H. apply orb_false_iff in H as [Hc Hs].
  cbn [replace_runs]. rewrite Hc. cbn [negb].
  destruct s as [|c' s]; [right; reflexivity|].
  cbn [any_char] in Hs. apply orb_false_iff in Hs as [Hc' Hs'].
  cbn [head_sat]. rewrite Hc'. cbn [negb].
  apply IH. cbn [any_char]. rewrite Hc', Hs'. reflexivity.
Qed.

(** The slug is empty exactly when the text has no letter [a-z] and no
    digit once it is lowercased. *)
Lemma slugify_empty text :
  slugify text = "" <-> any_char alnum_char (toLowerCase text) = false.
Proof.
  unfold slugify, strip_edge_hyphens. split.
  - intros H. apply (any_char_empty alnum_char) in H.
    rewrite any_char_drop_trailing, any_char_drop_leading, any_char_replace_runs in H.
    exact H.
  - intros H. destruct (no_alnum_runs _ H) as [-> | ->]; reflexivity.
Qed.

(** X10. For a request to create an entry in an allowed collection with a
    string as slug: the answer is 400 "Invalid slug", with the disk left as
    it was, exactly when the lowercased slug has no letter a-z and no digit. *)
Theorem create_rejects_empty_slug (cwd : string) (req : request) (d : disk)
    (parsed : json) (slug : string) :
  json_body req = Some parsed ->
  parsed <> JNull ->
  includes_string allowedCollections (get_property parsed "collection") = true ->
  get_property parsed "slug" = Some (JStr slug) ->
  any_char alnum_char (toLowerCase slug) = false
  <-> handle_create cwd req d = (Ok (send 400 (error_payload "Invalid slug")), d).
Proof.
  intros Hbody Hnull Hcoll Hslug.
  assert (Hd : destructure parsed = ret parsed)
    by (destruct parsed; solve [reflexivity | congruence]).
  unfold handle_create, try_catch, bind, readJsonBody, lift_option.
  rewrite Hbody. unfold ret at 1. rewrite Hd. unfold ret at 1.
  rewrite Hcoll, Hslug. cbn [negb as_string]. unfold ret at 1.
  destruct (String.eqb_spec (slugify slug) "") as [He|Hne].
  - unfold ret. split; [reflexivity|]. intros _. apply slugify_empty, He.
  - assert (Hany : any_char alnum_char (toLowerCase slug) <> false)
      by (intros H; apply Hne, slugify_empty, H).
    destruct (fs.existsSync d _).
    + split; [contradiction|]. intros H. discriminate H.
    + destruct (Object_entries _);
        [|cbn; split; [contradiction|]; intros H; discriminate H].
      unfold ret at 1. unfold throw.
      destruct (fs.writeFile _ _ d) as [[[]|err] d'] eqn:Hw;
        unfold ret; (split; [contradiction|]; intros H; discriminate H).
Qed.

Lemma create_rejects_empty_slug_witness :
  any_char alnum_char (toLowerCase "?! (+)") = false
  <-> handle_create "/site" (create_request (JStr "blog") (JStr "?! (+)") [] JNull)
        site_disk
      = (Ok (send 400 (error_payload "Invalid slug")), site_disk).
Proof.
  apply (create_rejects_empty_slug "/site"
           (create_request (JStr "blog") (JStr "?! (+)") [] JNull) site_disk
           (JObj [("collection", JStr "blog"); ("slug", JStr "?! (+)");
                  ("frontmatter", JObj []); ("body", JNull)]) "?! (+)").
  - reflexivity.
  - discriminate.
  - reflexivity.
  - reflexivity.
Defined.

(** ** Values that are written like strings *)

Definition is_array (v : json) : bool :=
  match v with
  | JArr _ => true
  | _ => false
  end.

Lemma digits_not_date s : all_chars is_digit s = true -> is_date_string s = false.
Proof.
  intros H. unfold is_date_string.
  destruct s as [|y1 [|y2 [|y3 [|y4 [|h1 [|m1 [|m2 [|h2 [|d1 [|d2 [|x s]]]]]]]]]]];
    try reflexivity.
  cbn [String.list_ascii_of_string].
  cbn [all_chars] in H.
  repeat match goal with
         | E : andb _ _ = true |- _ => apply andb_true_iff in E as [? E]
         end.
  assert (Hh : is_hyphen h1 = false).
  { destruct (is_hyphen h1) eqn:Hh; [|reflexivity].
    unfold is_hyphen in Hh. apply Ascii.eqb_eq in Hh. subst h1. discriminate. }
  rewrite Hh, andb_false_r. reflexivity.
Qed.

Lemma uint_digits d : all_chars is_digit (NilEmpty.string_of_uint d) = true.
Proof. induction d; simpl; auto. Qed.

Lemma nilzero_digits d : all_chars is_digit (NilZero.string_of_uint d) = true.
Proof.
  unfold NilZero.string_of_uint. destruct d; try reflexivity; apply uint_digits.
Qed.

Lemma decimal_not_date n : is_date_string (decimal n) = false.
Proof.
  unfold decimal. destruct (Z.to_int n) as [d|d]; cbn [NilZero.string_of_int].
  - apply digits_not_date, nilzero_digits.
  - unfold is_date_string. cbn [String.list_ascii_of_string].
    destruct (String.list_ascii_of_string (NilZero.string_of_uint d))
      as [|y2 [|y3 [|y4 [|h1 [|m1 [|m2 [|h2 [|d1 [|d2 [|x s]]]]]]]]]]; reflexivity.
Qed.

Lemma includes_char_outside (p : ascii -> bool) c s :
  p c = false -> all_chars p s = true -> includes_char c s = false.
Proof.
  intros Hc. unfold includes_char. induction s as [|x s IH]; [reflexivity|].
  cbn [all_chars any_char]. intros H. apply andb_true_iff in H as [Hx Hs].
  rewrite (IH Hs), orb_false_r.
  destruct (Ascii.eqb_spec c x) as [->|]; [congruence|reflexivity].
Qed.

Lemma decimal_unquoted n : yaml_string (decimal n) = decimal n.
Proof.
  unfold yaml_string.
  rewrite !(fun c H => includes_char_outside _ c _ H (decimal_chars n))
    by reflexivity.
  reflexivity.
Qed.

Lemma yaml_entry_of_String key v :
  is_array v = false -> yaml_entry (key, JStr (js_String v)) = yaml_entry (key, v).
Proof.
  destruct v as [|[]|n|s|items|fields]; intros Hv; try discriminate Hv;
    try reflexivity.
  cbn [yaml_entry js_String]. rewrite decimal_not_date, decimal_unquoted. reflexivity.
Qed.

(** X11. The front matter does not tell a value from its text: an entry
    whose value is not an array (a boolean, a number, [null], an object) is
    written exactly as the entry with the string [String(value)], whatever
    stands before and after it. *)
Theorem frontmatter_confuses_value_and_text (before after : list (string * json))
    (key : string) (v : json) :
  is_array v = false ->
  frontmatterToYaml (before ++ (key, JStr (js_String v)) :: after)
  = frontmatterToYaml (before ++ (key, v) :: after).
Proof.
  intros Hv. unfold frontmatterToYaml.
  rewrite !map_app. cbn [map]. rewrite (yaml_entry_of_String key v Hv). reflexivity.
Qed.

Lemma frontmatter_confuses_value_and_text_witness :
  frontmatterToYaml ([("title", JStr "Ten")] ++ ("draft", JStr (js_String (JBool true)))
                       :: [("rating", JNum 5)])
  = frontmatterToYaml ([("title", JStr "Ten")] ++ ("draft", JBool true)
                         :: [("rating", JNum 5)]).
Proof.
  apply (frontmatter_confuses_value_and_text [("title", JStr "Ten")] [("rating", JNum 5)]
           "draft" (JBool true)).
  reflexivity.
Defined.

(** ** Refused requests *)

(** The statuses with which a handler turns a request down. *)
Definition refusal (r : response) : bool :=
  existsb (Z.eqb (statusCode r)) [400; 403; 409].

(** A computation that leaves the disk as it is. *)
Definition Reads {A} (m : M A) : Prop := forall d, snd (m d) = d.

(** A computation that never ends in a refusal. *)
Definition Accepts (m : M response) : Prop :=
  forall d, match fst (m d) with Ok r => refusal r = false | Throw _ => True end.

(** A computation that has not touched the disk when it ends in a refusal. *)
Definition Refuses_early (m : M response) : Prop :=
  forall d, match m d with
            | (Ok r, d') => refusal r = true -> d' = d
            | (Throw _, _) => True
            end.

Lemma Reads_ret {A} (a : A) : Reads (ret a).
Proof. intros d. reflexivity. Qed.

Lemma Reads_throw {A} err : Reads (@throw A err).
Proof. intros d. reflexivity. Qed.

Lemma Reads_lift_option {A} err (o : option A) : Reads (lift_option err o).
Proof. destruct o; intros d; reflexivity. Qed.

Lemma Reads_readJsonBody req : Reads (readJsonBody req).
Proof. apply Reads_lift_option. Qed.

Lemma Reads_destructure v : Reads (destructure v).
Proof. destruct v; intros d; reflexivity. Qed.

Lemma Reads_as_string v : Reads (as_string v).
Proof. destruct v as [[| | | | |]|]; intros d; reflexivity. Qed.

Lemma Reads_string_argument v : Reads (string_argument v).
Proof. destruct v as [[| | | | |]|]; intros d; reflexivity. Qed.

Lemma Accepts_early m : Accepts m -> Refuses_early m.
Proof.
  intros H d. specialize (H d). destruct (m d) as [[r|err] d']; cbn [fst] in H; [|exact I].
  intros Hr. congruence.
Qed.

Lemma Accepts_ret r : refusal r = false -> Accepts (ret r).
Proof. intros H d. exact H. Qed.

Lemma Accepts_throw err : Accepts (throw err).
Proof. intros d. exact I. Qed.

Lemma Accepts_bind {A} (m : M A) (k : A -> M response) :
  (forall a, Accepts (k a)) -> Accepts (bind m k).
Proof.
  intros Hk d. unfold bind. destruct (m d) as [[a|err] d']; [apply Hk | exact I].
Qed.

Lemma Accepts_try_catch m : Accepts m -> Accepts (try_catch m).
Proof.
  intros H d. unfold try_catch. specialize (H d).
  destruct (m d) as [[r|err] d']; cbn [fst] in *; [exact H | reflexivity].
Qed.

Lemma Accepts_if (b : bool) (m1 m2 : M response) :
  Accepts m1 -> Accepts m2 -> Accepts (if b then m1 else m2).
Proof. destruct b; auto. Qed.

Lemma Accepts_read (f : disk -> bool) (m1 m2 : M response) :
  Accepts m1 -> Accepts m2 -> Accepts (fun d => if f d then m1 d else m2 d).
Proof. intros H1 H2 d. destruct (f d); [apply H1 | apply H2]. Qed.

Lemma Refuses_early_ret r : Refuses_early (ret r).
Proof. intros d. unfold ret. intros _. reflexivity. Qed.

Lemma Refuses_early_bind {A} (m : M A) (k : A -> M response) :
  Reads m -> (forall a, Refuses_early (k a)) -> Refuses_early (bind m k).
Proof.
  intros Hm Hk d. unfold bind. specialize (Hm d).
  destruct (m d) as [[a|err] d']; cbn [snd] in Hm; subst d'; [apply Hk | exact I].
Qed.

Lemma Refuses_early_try_catch m : Refuses_early m -> Refuses_early (try_catch m).
Proof.
  intros H d. unfold try_catch. specialize (H d).
  destruct (m d) as [[r|err] d']; [exact H | intros Hr; discriminate Hr].
Qed.

Lemma Refuses_early_if (b : bool) (m1 m2 : M response) :
  Refuses_early m1 -> Refuses_early m2 -> Refuses_early (if b then m1 else m2).
Proof. destruct b; auto. Qed.

Lemma Refuses_early_read (f : disk -> bool) (r : response) (m : M response) :
  Refuses_early m -> Refuses_early (fun d => if f d then (Ok r, d) else m d).
Proof. intros H d. destruct (f d); [intros _; reflexivity | apply H]. Qed.

Ltac accepts_tac :=
  repeat first
    [ apply Accepts_try_catch
    | apply Accepts_ret; reflexivity
    | apply Accepts_throw
    | apply Accepts_bind; intros ?
    | apply Accepts_if
    | apply Accepts_read ].

Ltac refuses_tac :=
  repeat first
    [ apply Refuses_early_try_catch
    | apply Refuses_early_ret
    | apply Refuses_early_bind;
      [first [ apply Reads_readJsonBody | apply Reads_destructure | apply Reads_as_string
             | apply Reads_string_argument | apply Reads_lift_option ]
      | intros ?]
    | apply Refuses_early_if
    | apply Refuses_early_read
    | apply Accepts_early; accepts_tac; fail ].

Lemma Refuses_early_save cwd req : Refuses_early (handle_save cwd req).
Proof. unfold handle_save. refuses_tac. Qed.

Lemma Refuses_early_create cwd req : Refuses_early (handle_create cwd req).
Proof. unfold handle_create. refuses_tac. Qed.

Lemma Refuses_early_upload P cwd dir pre req :
  Refuses_early (handle_upload_to P cwd dir pre req).
Proof. unfold handle_upload_to. refuses_tac. Qed.

Lemma Refuses_early_delete cwd dir pre what req :
  Refuses_early (handle_delete_from cwd dir pre what req).
Proof. unfold handle_delete_from. refuses_tac. Qed.

Lemma Accepts_convert P req : Accepts (handle_convert_heic P req).
Proof. unfold handle_convert_heic. accepts_tac. Qed.

Lemma Accepts_list P cwd dir pre : Accepts (handle_list P cwd dir pre).
Proof. unfold handle_list. accepts_tac. Qed.

Lemma Accepts_config_get p : Accepts (handle_config_get p).
Proof. unfold handle_config_get. accepts_tac. Qed.

Lemma Accepts_config_post p req : Accepts (handle_config_post p req).
Proof. unfold handle_config_post. accepts_tac. Qed.

Lemma Refuses_early_after_memes P cwd u req : Refuses_early (route_after_memes P cwd u req).
Proof.
  unfold route_after_memes, unknown_endpoint.
  repeat first
    [ apply Refuses_early_upload | apply Refuses_early_delete
    | apply Accepts_early, Accepts_list
    | apply Refuses_early_ret
    | apply Refuses_early_if ].
Qed.

Lemma Refuses_early_after_gallery P cwd u req :
  Refuses_early (route_after_gallery P cwd u req).
Proof.
  unfold route_after_gallery.
  destruct (String.eqb_spec u "/__dev-editor/memes") as [->|_];
    [|apply Refuses_early_after_memes].
  unfold route_after_memes, unknown_endpoint. cbn [String.eqb Ascii.eqb Bool.eqb andb].
  apply Accepts_early, Accepts_bind. intros _.
  repeat first
    [ apply Accepts_config_get | apply Accepts_config_post
    | apply Accepts_ret; reflexivity
    | apply Accepts_if ].
Qed.

Lemma Refuses_early_route P cwd u req : Refuses_early (route P cwd u req).
Proof.
  unfold route.
  destruct (String.eqb_spec u "/__dev-editor/gallery") as [->|_].
  - unfold route_after_gallery, route_after_memes, unknown_endpoint.
    cbn [String.eqb Ascii.eqb Bool.eqb andb].
    apply Accepts_early, Accepts_bind. intros _.
    repeat first
      [ apply Accepts_config_get | apply Accepts_config_post
      | apply Accepts_ret; reflexivity
      | apply Accepts_if ].
  - repeat first
      [ apply Refuses_early_save | apply Refuses_early_create
      | apply Refuses_early_upload | apply Refuses_early_delete
      | apply Refuses_early_after_gallery
      | apply Accepts_early, Accepts_convert
      | apply Accepts_early, Accepts_list
      | apply Refuses_early_if ].
Qed.

(** X12. A request that is turned down with 400, 403 or 409 has changed
    nothing: the disk after it is the disk before it. *)
Theorem refused_request_changes_nothing (P : Platform) (cwd : string) (req : request)
    (d : disk) :
  match middleware P cwd req d with
  | Some (r, d') => refusal r = true -> d' = d
  | None => True
  end.
Proof.
  unfold middleware. destruct (request_path req) as [u|]; [|exact I].
  destruct (startsWith u "/__dev-editor/"); [|exact I].
  pose proof (Refuses_early_route P cwd u req d) as H.
  destruct (route P cwd u req d) as [[r|err] d']; [exact H|].
  intros Hr. discriminate Hr.
Qed.

(** The same does not hold of 404 and 500: an unsupported method on a config
    endpoint is answered 404 after the data directory has been created. *)
Example unsupported_method_creates_data_dir :
  let req := {| url := Some "/__dev-editor/memes"; method := "PUT"; json_body := None |} in
  status_of (middleware plain_platform "/site" req drafts_disk) = Some 404
  /\ fs.existsSync drafts_disk "/site/src/data" = false
  /\ match middleware plain_platform "/site" req drafts_disk with
     | Some (_, d') => fs.existsSync d' "/site/src/data"
     | None => false
     end = true.
Proof. repeat split; vm_compute; reflexivity. Qed.

(** ** Requests that write no file *)

(** Every entry of [d] is unchanged in [d'], and what [d'] has more is
    directories. *)
Definition adds_dirs_only (d d' : disk) : Prop :=
  forall p, d' !! p = d !! p \/ (d !! p = None /\ d' !! p = Some Dir).

Lemma adds_dirs_only_refl d : adds_dirs_only d d.
Proof. intros p. left. reflexivity. Qed.

Lemma adds_dirs_only_trans a b c :
  adds_dirs_only a b -> adds_dirs_only b c -> adds_dirs_only a c.
Proof.
  intros H1 H2 p. destruct (H1 p) as [E1|[E1 E1']], (H2 p) as [E2|[E2 E2']].
  - left. congruence.
  - right. split; congruence.
  - right. split; congruence.
  - congruence.
Qed.

Lemma mkdir_adds_dirs_only p : Keeps adds_dirs_only (fs.mkdir_recursive p).
Proof.
  intros d. unfold fs.mkdir_recursive.
  destruct (existsb (fs.is_file d) (fs.ancestors p)) eqn:Hblocked;
    [apply adds_dirs_only_refl|].
  cbn [snd]. intros q. destruct (in_dec String.string_dec q (fs.ancestors p)) as [Hin|Hnot].
  - rewrite (mkdir_lookup_in _ d q Hin).
    destruct (d !! q) as [[content|]|] eqn:Hq; [|left; reflexivity|right; auto].
    assert (Hex : existsb (fs.is_file d) (fs.ancestors p) = true).
    { apply existsb_exists. exists q. split; [exact Hin|].
      unfold fs.is_file. rewrite Hq. reflexivity. }
    congruence.
  - left. apply (mkdir_lookup_other _ d q Hnot).
Qed.

Lemma Keeps_reading_route P cwd u req :
  String.eqb (method req) "POST" = false ->
  String.eqb (method req) "DELETE" = false ->
  Keeps adds_dirs_only (route P cwd u req).
Proof.
  intros Hpost Hdelete.
  unfold route, route_after_gallery, route_after_memes, unknown_endpoint.
  rewrite Hpost, Hdelete, !andb_false_r. cbv iota.
  repeat first
    [ apply (Keeps_list _ adds_dirs_only_refl adds_dirs_only_trans mkdir_adds_dirs_only)
    | apply (Keeps_config_get _ adds_dirs_only_refl adds_dirs_only_trans)
    | apply mkdir_adds_dirs_only
    | apply (Keeps_ret _ adds_dirs_only_refl)
    | apply (Keeps_bind _ adds_dirs_only_trans); [|intros ?]
    | apply Keeps_if ].
Qed.

(** X13. Only POST and DELETE requests touch a file: after a request with
    another method every entry of the disk is as it was, and whatever is new
    is a directory. *)
Theorem other_methods_write_no_file (P : Platform) (cwd : string) (req : request)
    (d : disk) :
  String.eqb (method req) "POST" = false ->
  String.eqb (method req) "DELETE" = false ->
  match middleware P cwd req d with
  | Some (_, d') =>
      forall p, d' !! p = d !! p \/ (d !! p = None /\ d' !! p = Some Dir)
  | None => True
  end.
Proof.
  intros Hpost Hdelete. unfold middleware.
  destruct (request_path req) as [u|]; [|exact I].
  destruct (startsWith u "/__dev-editor/"); [|exact I].
  pose proof (Keeps_reading_route P cwd u req Hpost Hdelete d) as H.
  destruct (route P cwd u req d) as [[r|err] d']; exact H.
Qed.

Lemma other_methods_write_no_file_witness :
  (<["/site/public/memes" := Dir]> drafts_disk) !! "/site/public/memes"
  = drafts_disk !! "/site/public/memes"
  \/ (drafts_disk !! "/site/public/memes" = None
      /\ (<["/site/public/memes" := Dir]> drafts_disk) !! "/site/public/memes" = Some Dir).
Proof.
  pose proof (other_methods_write_no_file plain_platform "/site"
                {| url := Some "/__dev-editor/list-memes"; method := "GET";
                   json_body := None |} drafts_disk eq_refl eq_refl) as H.
  assert (E : middleware plain_platform "/site"
                {| url := Some "/__dev-editor/list-memes"; method := "GET";
                   json_body := None |} drafts_disk
              = Some (send 200 (JObj [("images", JArr [])]),
                      <["/site/public/memes" := Dir]> drafts_disk))
    by (vm_compute; reflexivity).
  rewrite E in H. exact (H "/site/public/memes").
Defined.

(** ** A missing config file, and a slug that is taken *)

(** The config endpoints with the files they serve. *)
Definition config_files (cwd : string) : list (string * string) :=
  [("/__dev-editor/gallery", galleryConfigPath cwd);
   ("/__dev-editor/memes", memesConfigPath cwd)].

Lemma config_paths_not_ancestors cwd endpoint configPath :
  In (endpoint, configPath) (config_files cwd) ->
  head_sat is_slash cwd = true ->
  ~ In configPath (fs.ancestors (dataDir cwd)).
Proof.
  intros Hin Hcwd. destruct Hin as [E|[E|[]]]; injection E as _ <-.
  - exact (config_path_shape cwd "gallery-config.json" Hcwd eq_refl eq_refl eq_refl).
  - exact (config_path_shape cwd "memes-config.json" Hcwd eq_refl eq_refl eq_refl).
Qed.

Lemma config_get_missing cwd configPath d :
  ~ In configPath (fs.ancestors (dataDir cwd)) ->
  existsb (fs.is_file d) (fs.ancestors (dataDir cwd)) = false ->
  fs.existsSync d configPath = false ->
  bind (fs.mkdir_recursive (dataDir cwd)) (fun _ => handle_config_get configPath) d
  = (Ok (send 200 (JObj [("images", JArr [])])), made_dirs (dataDir cwd) d).
Proof.
  intros Hnot Hfree Hmissing. unfold bind, fs.mkdir_recursive. rewrite Hfree.
  unfold handle_config_get, try_catch.
  fold (made_dirs (dataDir cwd) d).
  assert (E : fs.existsSync (made_dirs (dataDir cwd) d) configPath = false).
  { unfold fs.existsSync, made_dirs in *.
    rewrite (mkdir_lookup_other _ d configPath Hnot). exact Hmissing. }
  rewrite E. reflexivity.
Qed.

(** X14. While a config file does not exist, the GET of its endpoint is
    answered 200 with the empty gallery [{ images: [] }], and nothing but
    the data directory is created. The working directory is absolute, and
    no regular file stands where the data directory goes. *)
Theorem config_get_default (P : Platform) (cwd endpoint configPath : string)
    (payload : option json) (d : disk) :
  In (endpoint, configPath) (config_files cwd) ->
  head_sat is_slash cwd = true ->
  existsb (fs.is_file d) (fs.ancestors (dataDir cwd)) = false ->
  fs.existsSync d configPath = false ->
  middleware P cwd (config_request endpoint "GET" payload) d
  = Some (send 200 (JObj [("images", JArr [])]), made_dirs (dataDir cwd) d)
  /\ JSON.parse (body (send 200 (JObj [("images", JArr [])])))
     = Some (JObj [("images", JArr [])])
  /\ fs.existsSync (made_dirs (dataDir cwd) d) configPath = false.
Proof.
  intros Hin Hcwd Hfree Hmissing.
  pose proof (config_paths_not_ancestors cwd endpoint configPath Hin Hcwd) as Hnot.
  split; [|split; [vm_compute; reflexivity|]].
  - destruct Hin as [E|[E|[]]]; injection E as <- <-.
    + rewrite middleware_gallery. cbn [String.eqb Ascii.eqb Bool.eqb].
      rewrite (config_get_missing cwd _ d Hnot Hfree Hmissing). reflexivity.
    + rewrite middleware_memes. cbn [String.eqb Ascii.eqb Bool.eqb].
      rewrite (config_get_missing cwd _ d Hnot Hfree Hmissing). reflexivity.
  - unfold fs.existsSync, made_dirs in *.
    rewrite (mkdir_lookup_other _ d configPath Hnot). exact Hmissing.
Qed.

Lemma config_get_default_witness :
  middleware plain_platform "/site" (config_request "/__dev-editor/memes" "GET" None)
    drafts_disk
  = Some (send 200 (JObj [("images", JArr [])]), made_dirs (dataDir "/site") drafts_disk)
  /\ JSON.parse (body (send 200 (JObj [("images", JArr [])])))
     = Some (JObj [("images", JArr [])])
  /\ fs.existsSync (made_dirs (dataDir "/site") drafts_disk) (memesConfigPath "/site")
     = false.
Proof.
  apply (config_get_default plain_platform "/site" "/__dev-editor/memes"
           (memesConfigPath "/site") None drafts_disk).
  - right. left. reflexivity.
  - reflexivity.
  - vm_compute. reflexivity.
  - vm_compute. reflexivity.
Defined.

(** X15. A slug that is taken stays taken: after a create request that was
    answered with success, a create request for the same collection whose
    slug sanitizes to the same name is answered 409 and changes nothing. *)
Theorem create_twice_conflicts (cwd : string) (req1 req2 : request)
    (parsed1 parsed2 : json) (slug1 slug2 : string) (r : response) (d d' : disk) :
  json_body req1 = Some parsed1 ->
  json_body req2 = Some parsed2 ->
  get_property parsed2 "collection" = get_property parsed1 "collection" ->
  get_property parsed1 "slug" = Some (JStr slug1) ->
  get_property parsed2 "slug" = Some (JStr slug2) ->
  slugify slug2 = slugify slug1 ->
  handle_create cwd req1 d = (Ok r, d') ->
  statusCode r = 200 ->
  handle_create cwd req2 d' = (Ok (send 409 (error_payload "File already exists")), d').
Proof.
  intros Hb1 Hb2 Hcoll Hs1 Hs2 Hslug Hfirst Hstatus.
  unfold handle_create, try_catch, bind, readJsonBody, lift_option in *.
  rewrite Hb1 in Hfirst. rewrite Hb2. unfold ret at 1 in Hfirst. unfold ret at 1.
  destruct parsed1 as [| | | | |fields1]; try discriminate Hs1.
  destruct parsed2 as [| | | | |fields2]; try discriminate Hs2.
  cbn [destructure] in *. unfold ret at 1 in Hfirst. unfold ret at 1.
  rewrite Hcoll, Hs2. rewrite Hs1 in Hfirst.
  destruct (includes_string allowedCollections (get_property (JObj fields1) "collection"));
    cbn [negb as_string] in *;
    [|injection Hfirst as <- <-; discriminate Hstatus].
  unfold ret at 1 in Hfirst. unfold ret at 1. cbv beta iota. rewrite Hslug.
  destruct (String.eqb (slugify slug1) "");
    [injection Hfirst as <- <-; discriminate Hstatus|].
  set (target := path.resolve cwd _) in *.
  destruct (fs.existsSync d target);
    [injection Hfirst as <- <-; discriminate Hstatus|].
  destruct (Object_entries (get_property (JObj fields1) "frontmatter")) as [entries|];
    [|injection Hfirst as <- <-; discriminate Hstatus].
  unfold ret at 1 in Hfirst. unfold fs.writeFile in Hfirst.
  destruct (fs.is_dir d target);
    [injection Hfirst as <- <-; discriminate Hstatus|].
  destruct (fs.is_dir d (fs.parent target));
    [|injection Hfirst as <- <-; discriminate Hstatus].
  injection Hfirst as <- <-.
  unfold fs.existsSync. rewrite lookup_insert_eq, orb_true_r. reflexivity.
Qed.

Lemma create_twice_conflicts_witness :
  handle_create "/site" (create_request (JStr "blog") (JStr "a new POST!") [] (JStr "again"))
    (<["/site/src/content/blog/a-new-post.md" := File ("---" +:+ nl +:+ nl +:+ "---" +:+ nl +:+ nl)]>
       site_disk)
  = (Ok (send 409 (error_payload "File already exists")),
     <["/site/src/content/blog/a-new-post.md" := File ("---" +:+ nl +:+ nl +:+ "---" +:+ nl +:+ nl)]>
       site_disk).
Proof.
  apply (create_twice_conflicts "/site"
           (create_request (JStr "blog") (JStr "A new post") [] JNull)
           (create_request (JStr "blog") (JStr "a new POST!") [] (JStr "again"))
           (JObj [("collection", JStr "blog"); ("slug", JStr "A new post");
                  ("frontmatter", JObj []); ("body", JNull)])
           (JObj [("collection", JStr "blog"); ("slug", JStr "a new POST!");
                  ("frontmatter", JObj []); ("body", JStr "again")])
           "A new post" "a new POST!"
           (send 200 (JObj [("success", JBool true);
                            ("filePath", JStr "src/content/blog/a-new-post.md")]))
           site_disk).
  - reflexivity.
  - reflexivity.
  - reflexivity.
  - reflexivity.
  - reflexivity.
  - vm_compute. reflexivity.
  - vm_compute. reflexivity.
  - reflexivity.
Defined.

(** ** The names that an upload accepts and the names that a listing shows *)

Lemma prefix_split a b : String.prefix a b = true -> exists c, b = a +:+ c.
Proof.
  revert b. induction a as [|x a IH]; intros b H.
  - exists b. reflexivity.
  - destruct b as [|y b]; [discriminate H|]. cbn [String.prefix] in H.
    destruct (ascii_dec x y) as [->|]; [|discriminate H].
    destruct (IH b H) as [c ->]. exists c. reflexivity.
Qed.

Lemma rev_app_rev_app s acc acc' :
  String.rev_app (String.rev_app s acc) acc' = String.rev_app acc (s +:+ acc').
Proof.
  revert acc acc'. induction s as [|c s IH]; intros acc acc'; [reflexivity|].
  cbn [String.rev_app]. rewrite IH. reflexivity.
Qed.

Lemma rev_app_append a b acc :
  String.rev_app (a +:+ b) acc = String.rev_app b (String.rev_app a acc).
Proof.
  revert acc. induction a as [|c a IH]; intros acc; [reflexivity|].
  rewrite app_cons. cbn [String.rev_app]. apply IH.
Qed.

Lemma rev_app_acc a acc : String.rev_app a acc = String.rev_app a "" +:+ acc.
Proof.
  revert acc. induction a as [|c a IH]; intros acc; [reflexivity|].
  cbn [String.rev_app]. rewrite IH, (IH (String c "")), app_assoc_string. reflexivity.
Qed.

(** A string that ends with [t] is some string followed by [t]. *)
Lemma endsWith_split s t : endsWith s t = true -> exists pre, s = pre +:+ t.
Proof.
  unfold endsWith, String.rev. intros H. apply prefix_split in H as [c H].
  exists (String.rev_app c "").
  assert (E : String.rev_app (String.rev_app s "") "" = s).
  { rewrite rev_app_rev_app. cbn [String.rev_app]. apply app_empty_r. }
  rewrite <- E, H, rev_app_append, rev_app_rev_app.
  rewrite app_empty_r. apply rev_app_acc.
Qed.

Lemma split_on_single c s : split_on c s = [""] -> s = "".
Proof.
  destruct s as [|x s]; [reflexivity|]. cbn [split_on].
  pose proof (split_on_not_nil c s) as Hn.
  destruct (Ascii.eqb x c); destruct (split_on c s) as [|seg rest];
    try contradiction; discriminate.
Qed.

Lemma single_empty (parts : list string) :
  forallb (String.eqb "") parts && (length parts =? 1)%nat = true -> parts = [""].
Proof.
  intros H. apply andb_true_iff in H as [Hall Hlen].
  destruct parts as [|x [|y parts]]; try discriminate Hlen.
  cbn [forallb] in Hall. apply andb_true_iff in Hall as [Hx _].
  apply String.eqb_eq in Hx. subst x. reflexivity.
Qed.

Lemma basename_of_name name :
  slash_free name = true -> name <> "" -> path.basename name = name.
Proof.
  intros Hfree Hne. unfold path.basename. rewrite (split_on_free name Hfree).
  cbn [List.filter]. destruct (String.eqb_spec name ""); [contradiction|]. reflexivity.
Qed.

(** The extension of [pre.ext], for [ext] without a dot: nothing when [pre]
    is empty, and [.ext] otherwise. *)
Lemma extname_of_name pre ext :
  slash_free (pre +:+ String "." ext) = true ->
  any_char (Ascii.eqb ".") ext = false ->
  (2 <= String.length ext)%nat ->
  path.extname (pre +:+ String "." ext)
  = if String.eqb pre "" then "" else String "." ext.
Proof.
  intros Hfree Hext Hlen. unfold path.extname.
  assert (Hne : pre +:+ String "." ext <> "") by (destruct pre; discriminate).
  rewrite (basename_of_name _ Hfree Hne), split_on_app, (split_on_free_char "." ext Hext).
  rewrite rev_app_distr. cbn [rev app].
  pose proof (split_on_not_nil "." pre) as Hn.
  destruct (rev (split_on "." pre)) as [|x before] eqn:Hrev.
  { apply (f_equal (@rev string)) in Hrev. rewrite rev_involutive in Hrev. contradiction. }
  rewrite <- Hrev.
  assert (Hdots : String.eqb (pre +:+ String "." ext) ".." = false).
  { apply String.eqb_neq. intros E. apply (f_equal String.length) in E.
    rewrite length_app_string in E. cbn [String.length] in E. lia. }
  rewrite Hdots, orb_false_r, forallb_rev_list, length_rev.
  destruct (String.eqb_spec pre "") as [->|Hpre]; [reflexivity|].
  destruct (forallb (String.eqb "") (split_on "." pre)
            && (length (split_on "." pre) =? 1)%nat) eqn:E; [|reflexivity].
  apply single_empty, split_on_single in E. contradiction.
Qed.

Lemma not_a_bare_extension pre ext e :
  pre <> "" -> In e imageExtensions -> pre +:+ String "." ext <> e.
Proof.
  intros Hpre Hin E. destruct pre as [|c pre]; [contradiction|].
  rewrite app_cons in E. cbn [imageExtensions In] in Hin.
  repeat (destruct Hin as [<-|Hin];
          [injection E as _ E;
           apply (f_equal (any_char (Ascii.eqb "."))) in E;
           rewrite any_char_app in E; cbn [any_char] in E;
           rewrite Ascii.eqb_refl, orb_true_r in E; discriminate E|]).
  contradiction.
Qed.

Lemma listed_unless_bare pre ext :
  slash_free (pre +:+ String "." ext) = true ->
  In (String "." ext) imageExtensions ->
  existsb (String.eqb (toLowerCase (path.extname (pre +:+ String "." ext)))) imageExtensions
  = negb (existsb (String.eqb (pre +:+ String "." ext)) imageExtensions).
Proof.
  intros Hfree Hin.
  assert (Hext : any_char (Ascii.eqb ".") ext = false /\ (2 <= String.length ext)%nat
                 /\ existsb (String.eqb (toLowerCase (String "." ext))) imageExtensions = true).
  { cbn [imageExtensions In] in Hin.
    repeat (destruct Hin as [E|Hin];
            [injection E as <-; repeat split; solve [reflexivity | cbn; lia]|]).
    contradiction. }
  destruct Hext as [Hdot [Hlen Hlisted]].
  rewrite (extname_of_name pre ext Hfree Hdot Hlen).
  destruct (String.eqb_spec pre "") as [->|Hpre].
  - change ("" +:+ String "." ext) with (String "." ext).
    assert (Hbare : existsb (String.eqb (String "." ext)) imageExtensions = true).
    { apply existsb_exists. exists (String "." ext). split; [exact Hin|].
      apply String.eqb_refl. }
    rewrite Hbare. reflexivity.
  - rewrite Hlisted.
    destruct (existsb (String.eqb (pre +:+ String "." ext)) imageExtensions) eqn:E;
      [|reflexivity].
    apply existsb_exists in E as [e [He E]]. apply String.eqb_eq in E.
    exfalso. exact (not_a_bare_extension pre ext e Hpre He E).
Qed.

(** X16. The upload's test of a sanitized name and the listing's test of a
    file name agree but for a bare extension: a name of characters
    [a-z0-9.-] that the upload accepts is a name that the listing shows,
    unless the name is nothing but the extension (as [.jpg]), which is then
    written to the directory and never listed. *)
Theorem accepted_names_are_listed (name : string) :
  all_chars filename_char name = true ->
  has_image_extension name = true ->
  existsb (String.eqb (toLowerCase (path.extname name))) imageExtensions
  = negb (existsb (String.eqb name) imageExtensions).
Proof.
  intros Hchars Hext.
  pose proof (filename_chars_slash_free name Hchars) as Hfree.
  unfold has_image_extension in Hext. rewrite (toLowerCase_fixed name Hchars) in Hext.
  apply existsb_exists in Hext as [e [Hin Hend]].
  apply endsWith_split in Hend as [pre ->].
  assert (He : exists ext, e = String "." ext).
  { cbn [In] in Hin.
    repeat (destruct Hin as [<-|Hin]; [eexists; reflexivity|]). contradiction. }
  destruct He as [ext ->].
  apply listed_unless_bare; assumption.
Qed.

Lemma accepted_names_are_listed_witness :
  existsb (String.eqb (toLowerCase (path.extname "holiday.2024.jpeg"))) imageExtensions
  = negb (existsb (String.eqb "holiday.2024.jpeg") imageExtensions).
Proof.
  apply (accepted_names_are_listed "holiday.2024.jpeg"); reflexivity.
Defined.

(** The exception: the upload accepts the name [.jpg], and the listing
    drops it. *)
Example bare_extension_is_not_listed :
  sanitizeFilename ".JPG" = ".jpg"
  /\ has_image_extension ".jpg" = true
  /\ existsb (String.eqb (toLowerCase (path.extname ".jpg"))) imageExtensions = false.
Proof. repeat split; vm_compute; reflexivity. Qed.

(** ** Deleting what was deleted *)

(** X17. A deleted image stays deleted: after a delete request that was
    answered with success, the same request is answered 404 and changes
    nothing. This is the code of both delete endpoints; the root of the disk
    is a directory. *)
Theorem delete_twice_is_404 (cwd dir publicPrefix what : string) (req : request)
    (r : response) (d d' : disk) :
  fs.is_file d "/" = false ->
  handle_delete_from cwd dir publicPrefix what req d = (Ok r, d') ->
  statusCode r = 200 ->
  handle_delete_from cwd dir publicPrefix what req d'
  = (Ok (send 404 (error_payload "File not found")), d').
Proof.
  intros Hroot Hfirst Hstatus.
  unfold handle_delete_from, try_catch, bind, readJsonBody, lift_option in *.
  destruct (json_body req) as [parsed|];
    [|injection Hfirst as <- <-; discriminate Hstatus].
  unfold ret at 1 in Hfirst. unfold ret at 1.
  destruct parsed as [| | | | |fields]; cbn [destructure] in *;
    try (injection Hfirst as <- <-; discriminate Hstatus).
  unfold ret at 1 in Hfirst. unfold ret at 1.
  destruct (get_property (JObj fields) "path") as [[| | |imagePath| |]|];
    cbn [as_string] in *;
    try (injection Hfirst as <- <-; discriminate Hstatus).
  unfold ret at 1 in Hfirst. unfold ret at 1. cbv beta iota in *.
  destruct (negb (startsWith imagePath publicPrefix));
    [injection Hfirst as <- <-; discriminate Hstatus|].
  set (target := path.resolve cwd _) in *.
  destruct (negb (startsWith target dir));
    [injection Hfirst as <- <-; discriminate Hstatus|].
  destruct (negb (fs.existsSync d target));
    [injection Hfirst as <- <-; discriminate Hstatus|].
  unfold fs.unlink in Hfirst.
  destruct (d !! target) as [[content|]|] eqn:Htarget.
  - injection Hfirst as <- <-.
    assert (Hne : String.eqb target "/" = false).
    { destruct (String.eqb_spec target "/") as [E|]; [|reflexivity].
      unfold fs.is_file in Hroot. rewrite <- E, Htarget in Hroot. discriminate Hroot. }
    unfold fs.existsSync. rewrite Hne, lookup_delete_eq. reflexivity.
  - injection Hfirst as <- <-. discriminate Hstatus.
  - destruct (String.eqb target "/"); injection Hfirst as <- <-; discriminate Hstatus.
Qed.

Lemma delete_twice_is_404_witness :
  handle_delete_from "/site" (galleryDir "/site") "/gallery/" "gallery"
    (delete_request (JStr "/gallery/cat.jpg"))
    (delete "/site/public/gallery/cat.jpg" drafts_disk)
  = (Ok (send 404 (error_payload "File not found")),
     delete "/site/public/gallery/cat.jpg" drafts_disk).
Proof.
  apply (delete_twice_is_404 "/site" (galleryDir "/site") "/gallery/" "gallery"
           (delete_request (JStr "/gallery/cat.jpg"))
           (send 200 (JObj [("success", JBool true)])) drafts_disk).
  - reflexivity.
  - vm_compute. reflexivity.
  - reflexivity.
Defined.
